(** * rule/update_stats.js: the counter and the header synchronizer

    A shallow embedding of the three text transformations of
    [rule/update_stats.js] ([parseCountsFromList], [updateListHeader],
    [updateReadme]) and of the string primitives of ECMAScript they call.

    A JavaScript string is a sequence of UTF-16 code units; it is modelled as
    a list of code units ([N]).  Counts are JavaScript numbers holding
    integers; they are modelled as [Z] and printed in decimal, which is what
    [String(n)] and template literals do for every integer below 10^21. *)

From Stdlib Require Import ZArith NArith String Ascii Decimal.
From stdpp Require Import base list gmap.

(** ** Strings of UTF-16 code units *)

Abbreviation jsstring := (list N).

(** An ASCII literal of the source, as code units. *)
Definition lit (s : string) : jsstring :=
  map N_of_ascii (list_ascii_of_string s).

Module JS.
Local Open Scope N_scope.

Definition LF : N := 10.
Definition CR : N := 13.
Definition SPACE : N := 32.
Definition COMMA : N := 44.
Definition HASH : N := 35.
Definition PIPE : N := 124.
Definition DOLLAR : N := 36.

(** WhiteSpace and LineTerminator code units of ECMAScript: what
    [String.prototype.trim] strips and what [\s] matches. *)
Definition isSpace (c : N) : bool :=
  (9 <=? c) && (c <=? 13)
  || (c =? 32) || (c =? 160) || (c =? 5760)
  || (8192 <=? c) && (c <=? 8202)
  || (c =? 8232) || (c =? 8233) || (c =? 8239) || (c =? 8287)
  || (c =? 12288) || (c =? 65279).

(** [\d] *)
Definition isDigit (c : N) : bool := (48 <=? c) && (c <=? 57).

(** [s.startsWith(p)] *)
Fixpoint startsWith (s p : jsstring) {struct p} : bool :=
  match p with
  | [] => true
  | a :: p' =>
      match s with
      | [] => false
      | b :: s' => (b =? a) && startsWith s' p'
      end
  end.

(** [s.includes(t)] *)
Fixpoint includes (s t : jsstring) : bool :=
  startsWith s t
  || match s with
     | [] => false
     | _ :: s' => includes s' t
     end.

(** [s.endsWith(c)] for a one-unit string [c]. *)
Definition endsWith (s : jsstring) (c : N) : bool :=
  match last s with
  | Some b => b =? c
  | None => false
  end.

Fixpoint dropSpaces (s : jsstring) : jsstring :=
  match s with
  | [] => []
  | c :: s' => if isSpace c then dropSpaces s' else s
  end.

Definition trimStart (s : jsstring) : jsstring := dropSpaces s.
Definition trimEnd (s : jsstring) : jsstring := rev (dropSpaces (rev s)).

(** [s.trim()] *)
Definition trim (s : jsstring) : jsstring := trimEnd (trimStart s).

(** [s.indexOf(c)] for a one-unit search string: the first position of
    [c], or -1. *)
Fixpoint indexOf (s : jsstring) (c : N) : Z :=
  match s with
  | [] => (-1)%Z
  | b :: s' =>
      if b =? c then 0%Z
      else let i := indexOf s' c in
           if (i =? -1)%Z then (-1)%Z else (i + 1)%Z
  end.

(** [s.slice(0, e)]: a negative end counts from the end of the string. *)
Definition slice0 (s : jsstring) (e : Z) : jsstring :=
  if (e <? 0)%Z then take (Z.to_nat (Z.of_nat (length s) + e)) s
  else take (Z.to_nat e) s.

(** The first line of a non-empty array of lines gets one more unit in
    front. *)
Definition push_front (c : N) (ls : list jsstring) : list jsstring :=
  match ls with
  | [] => [[c]]
  | l :: ls' => (c :: l) :: ls'
  end.

(** [s.split(/\r?\n/)]: the text is cut at every LF; a CR directly before
    that LF belongs to the separator, any other CR is content.  The result
    always has at least one line. *)
Fixpoint split_lines (s : jsstring) : list jsstring :=
  match s with
  | [] => [[]]
  | c :: s' =>
      if c =? LF then [] :: split_lines s'
      else if c =? CR then
        match s' with
        | c' :: s'' =>
            if c' =? LF then [] :: split_lines s''
            else push_front c (split_lines s')
        | [] => [[c]]
        end
      else push_front c (split_lines s')
  end.

(** [lines.join(sep)] *)
Fixpoint join (sep : jsstring) (ls : list jsstring) : jsstring :=
  match ls with
  | [] => []
  | [l] => l
  | l :: ls' => l ++ sep ++ join sep ls'
  end.

Definition join_lines (ls : list jsstring) : jsstring := join [LF] ls.

Fixpoint digits_of_uint (d : uint) : jsstring :=
  match d with
  | Nil => []
  | D0 d' => 48 :: digits_of_uint d'
  | D1 d' => 49 :: digits_of_uint d'
  | D2 d' => 50 :: digits_of_uint d'
  | D3 d' => 51 :: digits_of_uint d'
  | D4 d' => 52 :: digits_of_uint d'
  | D5 d' => 53 :: digits_of_uint d'
  | D6 d' => 54 :: digits_of_uint d'
  | D7 d' => 55 :: digits_of_uint d'
  | D8 d' => 56 :: digits_of_uint d'
  | D9 d' => 57 :: digits_of_uint d'
  end.

(** [String(n)] and [`${n}`] for an integer [n]: decimal digits, with a
    minus sign in front of a negative one. *)
Definition Number_toString (n : Z) : jsstring :=
  match n with
  | Z0 => [48]
  | Zpos p => digits_of_uint (Pos.to_uint p)
  | Zneg p => 45 :: digits_of_uint (Pos.to_uint p)
  end.

(** [s.padEnd(n, ' ')] *)
Definition padEnd (s : jsstring) (n : nat) : jsstring :=
  s ++ replicate (n - length s) SPACE.

End JS.

(** ** The counter: [isRuleLine] and [parseCountsFromList] *)

Module Counter.
Import JS.
Local Open Scope Z_scope.

Record CountSummary := mkSummary {
  typeCounts : gmap jsstring Z;
  total : Z
}.

Definition isRuleLine (line : jsstring) : bool :=
  match line with
  | [] => false
  | _ =>
      let trimmed := trim line in
      if (length trimmed =? 0)%nat then false
      else if startsWith trimmed (lit "#") then false
      else true
  end.

(** [(idx === -1 ? line : line.slice(0, idx)).trim()] *)
Definition typeOf (line : jsstring) : jsstring :=
  let idx := indexOf line COMMA in
  trim (if (idx =? -1)%Z then line else slice0 line idx).

(** [typeCounts[type] || 0]: an absent key reads [undefined], and
    [undefined] and [0] both give [0]. *)
Definition getOr0 (m : gmap jsstring Z) (k : jsstring) : Z :=
  match m !! k with
  | Some v => if v =? 0 then 0 else v
  | None => 0
  end.

(** One iteration of the loop over the lines. *)
Definition countLine (st : CountSummary) (line : jsstring) : CountSummary :=
  if negb (isRuleLine line) then st
  else
    let type := typeOf line in
    match type with
    | [] => st
    | _ =>
        {| typeCounts := <[type := getOr0 (typeCounts st) type + 1]> (typeCounts st);
           total := total st + 1 |}
    end.

Definition countLines (lines : list jsstring) : CountSummary :=
  fold_left countLine lines {| typeCounts := ∅; total := 0 |}.

Definition parseCountsFromList (content : jsstring) : CountSummary :=
  countLines (split_lines content).

(** The sum of the values of the object [typeCounts]. *)
Definition sumCounts (m : gmap jsstring Z) : Z :=
  map_fold (λ _ v acc, v + acc) 0 m.

(** The specification speaks of blank lines (empty or whitespace only), of comment
    lines (the trimmed line starts with [#]) and of rule entries (neither
    of the two). *)
Definition blank (line : jsstring) : bool := forallb isSpace line.
Definition comment (line : jsstring) : bool := startsWith (trim line) (lit "#").
Definition ruleEntry (line : jsstring) : bool :=
  negb (blank line) && negb (comment line).

Definition countIf (f : jsstring → bool) (lines : list jsstring) : nat :=
  length (List.filter f lines).

(** A rule entry whose category token is not empty. *)
Definition counted (line : jsstring) : bool :=
  ruleEntry line && negb (bool_decide (typeOf line = [])).

(** The number of counted lines of category [c]. *)
Definition occurrences (c : jsstring) (lines : list jsstring) : nat :=
  countIf (λ l, counted l && bool_decide (typeOf l = c)) lines.

End Counter.

(** ** The list header: [updateListHeader] *)

Module ListHeader.
Import JS.

(** The state of the first loop: the array [out] and the four flags. *)
Record Scan := mkScan {
  out : list jsstring;
  hasUpdated : bool;
  hasDomain : bool;
  hasDomainSuffix : bool;
  hasTotal : bool
}.

(** [arr.findIndex(f)]: the first index whose element satisfies [f], or -1. *)
Fixpoint findIndex {A} (f : A → bool) (arr : list A) : Z :=
  match arr with
  | [] => (-1)%Z
  | x :: arr' =>
      if f x then 0%Z
      else let i := findIndex f arr' in
           if (i =? -1)%Z then (-1)%Z else (i + 1)%Z
  end.

(** [arr.splice(start, 0, item)] for a non-negative [start]: the array
    with [item] inserted in front of position [start]; a [start] beyond
    the end is clamped to the length, so the item is appended. *)
Definition splice0 {A} (start : nat) (item : A) (arr : list A) : list A :=
  let actualStart := Nat.min start (length arr) in
  take actualStart arr ++ item :: drop actualStart arr.

(** [x] sits at index [i] of [arr'], and [arr'] without it is [arr]. *)
Definition inserted_at {A} (i : nat) (x : A) (arr arr' : list A) : Prop :=
  ∃ pre post, arr = pre ++ post ∧ arr' = pre ++ x :: post ∧ length pre = i.

(** The place of a missing UPDATED line: directly after the first line
    whose trimmed content is not empty, index 0 when every line is blank. *)
Definition after_first_nonblank (arr : list jsstring) (p : nat) : Prop :=
  (Forall (λ l, trim l = []) arr ∧ p = 0%nat)
  ∨ (∃ i l, arr !! i = Some l ∧ trim l ≠ []
            ∧ (∀ j l', (j < i)%nat → arr !! j = Some l' → trim l' = [])
            ∧ p = S i).

(** No line begins with [prefix]. *)
Definition absent (prefix : jsstring) (lines : list jsstring) : bool :=
  forallb (λ l, negb (startsWith l prefix)) lines.

(** A missing line [x] is put into [arr] at a place that [spot] allows; a
    line that is not missing leaves the array alone. *)
Definition place (missing : bool) (x : jsstring)
    (spot : list jsstring → nat → Prop) (arr arr' : list jsstring) : Prop :=
  if missing then ∃ p, spot arr p ∧ inserted_at p x arr arr' else arr' = arr.

Section Rewrite.
Variables (updatedAt : jsstring) (domainCount domainSuffixCount total : Z).

Definition updatedLine : jsstring := lit "# UPDATED: " ++ updatedAt.
Definition domainLine : jsstring := lit "# DOMAIN: " ++ Number_toString domainCount.
Definition domainSuffixLine : jsstring :=
  lit "# DOMAIN-SUFFIX: " ++ Number_toString domainSuffixCount.
Definition totalLine : jsstring := lit "# TOTAL: " ++ Number_toString total.

(** The body of [for (const line of lines)]. *)
Definition scanLine (st : Scan) (line : jsstring) : Scan :=
  if startsWith line (lit "# UPDATED:") then
    mkScan (out st ++ [updatedLine]) true (hasDomain st) (hasDomainSuffix st) (hasTotal st)
  else if startsWith line (lit "# DOMAIN:") then
    mkScan (out st ++ [domainLine]) (hasUpdated st) true (hasDomainSuffix st) (hasTotal st)
  else if startsWith line (lit "# DOMAIN-SUFFIX:") then
    mkScan (out st ++ [domainSuffixLine]) (hasUpdated st) (hasDomain st) true (hasTotal st)
  else if startsWith line (lit "# TOTAL:") then
    mkScan (out st ++ [totalLine]) (hasUpdated st) (hasDomain st) (hasDomainSuffix st) true
  else
    mkScan (out st ++ [line]) (hasUpdated st) (hasDomain st) (hasDomainSuffix st) (hasTotal st).

Definition scan (lines : list jsstring) : Scan :=
  fold_left scanLine lines (mkScan [] false false false false).

(** What the loop pushes for one line: the canonical form of a header
    line, any other line as it is. *)
Definition canonical (line : jsstring) : jsstring :=
  if startsWith line (lit "# UPDATED:") then updatedLine
  else if startsWith line (lit "# DOMAIN:") then domainLine
  else if startsWith line (lit "# DOMAIN-SUFFIX:") then domainSuffixLine
  else if startsWith line (lit "# TOTAL:") then totalLine
  else line.

(** The closure [insertHeaderIfMissing]: its state is the array [out] and
    the flag [headerInserted]. *)
Definition insertHeaderIfMissing (st : list jsstring * bool) (line : jsstring)
  : list jsstring * bool :=
  let '(arr, headerInserted) := st in
  if headerInserted then st
  else
    let idx := findIndex (λ l, (0 <? length (trim l))%nat) arr in
    let insertAt :=
      if (idx =? -1)%Z then 0%Z else Z.min (idx + 1) (Z.of_nat (length arr)) in
    (splice0 (Z.to_nat insertAt) line arr, true).

(** The array [out] after each of the four conditional insertions. *)
Definition afterUpdated (st : Scan) : list jsstring :=
  if negb (hasUpdated st) then fst (insertHeaderIfMissing (out st, false) updatedLine)
  else out st.
Definition afterDomain (st : Scan) : list jsstring :=
  if negb (hasDomain st) then splice0 2 domainLine (afterUpdated st)
  else afterUpdated st.
Definition afterDomainSuffix (st : Scan) : list jsstring :=
  if negb (hasDomainSuffix st) then splice0 3 domainSuffixLine (afterDomain st)
  else afterDomain st.
Definition afterTotal (st : Scan) : list jsstring :=
  if negb (hasTotal st) then splice0 4 totalLine (afterDomainSuffix st)
  else afterDomainSuffix st.

(** The array [out] when the function returns. *)
Definition updateListHeader_lines (content : jsstring) : list jsstring :=
  afterTotal (scan (split_lines content)).

Definition updateListHeader (content : jsstring) : jsstring :=
  join_lines (updateListHeader_lines content).

(** The insertion policy for missing header lines, with [index k arr] the
    place that the fixed index [k] denotes in the array [arr]: UPDATED goes
    after the first non-blank line, then DOMAIN, DOMAIN-SUFFIX and TOTAL
    go to the indices 2, 3 and 4 of the array as it is by then. *)
Definition insertion_policy (index : nat → list jsstring → nat)
    (content result : jsstring) : Prop :=
  let lines := split_lines content in
  ∃ o1 o2 o3 o4,
    place (absent (lit "# UPDATED:") lines) updatedLine
          after_first_nonblank (map canonical lines) o1
    ∧ place (absent (lit "# DOMAIN:") lines) domainLine
            (λ arr p, p = index 2%nat arr) o1 o2
    ∧ place (absent (lit "# DOMAIN-SUFFIX:") lines) domainSuffixLine
            (λ arr p, p = index 3%nat arr) o2 o3
    ∧ place (absent (lit "# TOTAL:") lines) totalLine
            (λ arr p, p = index 4%nat arr) o3 o4
    ∧ result = join_lines o4.

End Rewrite.

(** A line that begins with one of the four header prefixes. *)
Definition isHeader (line : jsstring) : bool :=
  startsWith line (lit "# UPDATED:") || startsWith line (lit "# DOMAIN:")
  || startsWith line (lit "# DOMAIN-SUFFIX:") || startsWith line (lit "# TOTAL:").

End ListHeader.

(** ** Regular expressions

    The README rows are recognised by [RegExp] objects without flags.  The
    patterns use literals, the classes [\s] and [\d], [*], [+] and the two
    anchors, so a pattern [^r$] tests whether the whole line is in the
    language of [r].  [Matches] is that language; [test] decides it by
    derivatives. *)

Module Regex.
Import JS.

Inductive regex :=
| Void
| Eps
| Class (f : N → bool)
| Cat (r1 r2 : regex)
| Alt (r1 r2 : regex)
| Star (r : regex).

Definition Chr (c : N) : regex := Class (N.eqb c).
Definition Plus (r : regex) : regex := Cat r (Star r).

(** A literal string. *)
Fixpoint Str (s : jsstring) : regex :=
  match s with
  | [] => Eps
  | c :: s' => Cat (Chr c) (Str s')
  end.

Inductive Matches : regex → jsstring → Prop :=
| MEps : Matches Eps []
| MClass f c : f c = true → Matches (Class f) [c]
| MCat r1 r2 s1 s2 : Matches r1 s1 → Matches r2 s2 → Matches (Cat r1 r2) (s1 ++ s2)
| MAltL r1 r2 s : Matches r1 s → Matches (Alt r1 r2) s
| MAltR r1 r2 s : Matches r2 s → Matches (Alt r1 r2) s
| MStar0 r : Matches (Star r) []
| MStarS r s1 s2 : Matches r s1 → Matches (Star r) s2 → Matches (Star r) (s1 ++ s2).

Fixpoint nullable (r : regex) : bool :=
  match r with
  | Void => false
  | Eps => true
  | Class _ => false
  | Cat r1 r2 => nullable r1 && nullable r2
  | Alt r1 r2 => nullable r1 || nullable r2
  | Star _ => true
  end.

Fixpoint deriv (c : N) (r : regex) : regex :=
  match r with
  | Void => Void
  | Eps => Void
  | Class f => if f c then Eps else Void
  | Cat r1 r2 =>
      if nullable r1 then Alt (Cat (deriv c r1) r2) (deriv c r2)
      else Cat (deriv c r1) r2
  | Alt r1 r2 => Alt (deriv c r1) (deriv c r2)
  | Star r1 => Cat (deriv c r1) (Star r1)
  end.

(** [/^r$/.test(s)] *)
Fixpoint test (r : regex) (s : jsstring) : bool :=
  match s with
  | [] => nullable r
  | c :: s' => test (deriv c r) s'
  end.

End Regex.

(** ** The README: [updateReadme] *)

Module Readme.
Import JS Regex.

(** The label in front of the time of the last update, seven code units. *)
Definition updatedAtPrefix : jsstring :=
  [26368; 21518; 26356; 26032; 26102; 38388; 65306]%N.

Definition DATETIME : jsstring := lit "${{ datetime }}".
Definition TEMPNAME : jsstring := lit "${{ TempName }}".

(** GetSubstitution of ECMAScript for a string pattern, which has no
    captures: in the replacement text [$$] stands for a dollar sign, [$&]
    for the matched text, [$`] for the text in front of the match and [$']
    for the text behind it; every other dollar sign stands for itself. *)
Fixpoint GetSubstitution (matched before after template : jsstring) : jsstring :=
  match template with
  | [] => []
  | c :: t' =>
      if (c =? DOLLAR)%N then
        match t' with
        | [] => [c]
        | d :: t'' =>
            if (d =? DOLLAR)%N then DOLLAR :: GetSubstitution matched before after t''
            else if (d =? 38)%N then matched ++ GetSubstitution matched before after t''
            else if (d =? 96)%N then before ++ GetSubstitution matched before after t''
            else if (d =? 39)%N then after ++ GetSubstitution matched before after t''
            else c :: GetSubstitution matched before after t'
        end
      else c :: GetSubstitution matched before after t'
  end.

(** [s.replace(t, template)] for a string [t]: the first occurrence of [t]
    is replaced; [before] is the text already passed. *)
Fixpoint replace_from (before s t template : jsstring) : jsstring :=
  if startsWith s t then
    before ++ GetSubstitution t before (drop (length t) s) template ++ drop (length t) s
  else
    match s with
    | [] => before
    | c :: s' => replace_from (before ++ [c]) s' t template
    end.

Definition replace (s t template : jsstring) : jsstring :=
  replace_from [] s t template.

(** [s.replaceAll(t, template)] for a non-empty string [t]: the occurrences
    of [t] are found from left to right without overlap, and each is
    replaced; [skip] counts the units of the current occurrence that are
    still to be passed. *)
Fixpoint replaceAll_from (before : jsstring) (skip : nat) (s t template : jsstring)
  : jsstring :=
  match s with
  | [] => []
  | c :: s' =>
      match skip with
      | S k => replaceAll_from (before ++ [c]) k s' t template
      | O =>
          if startsWith s t then
            GetSubstitution t before (drop (length t) s) template
            ++ replaceAll_from (before ++ [c]) (length t - 1) s' t template
          else c :: replaceAll_from (before ++ [c]) 0 s' t template
      end
  end.

Definition replaceAll (s t template : jsstring) : jsstring :=
  replaceAll_from [] 0 s t template.

(** The pattern built for [key]:
    [^\|\s*] key [\s*\|\s*\d+\s*\|$].  The escape that
    [key.replace('-', '\\-')] puts in front of the first hyphen makes the
    hyphen a literal, which it is in [Str key]. *)
Definition rowRegex (key : jsstring) : regex :=
  Cat (Chr PIPE) (Cat (Star (Class isSpace)) (Cat (Str key)
    (Cat (Star (Class isSpace)) (Cat (Chr PIPE) (Cat (Star (Class isSpace))
      (Cat (Plus (Class isDigit)) (Cat (Star (Class isSpace)) (Chr PIPE)))))))).

(** The shape [| key | digits |] of a table row: the pipe in front, then
    the key, a pipe, one digit or more and the pipe that ends the line, with
    any white space between them. *)
Definition row_shape (key line : jsstring) : Prop :=
  ∃ w1 w2 w3 ds w4,
    line = PIPE :: w1 ++ key ++ w2 ++ PIPE :: w3 ++ ds ++ w4 ++ [PIPE]
    ∧ forallb isSpace w1 = true ∧ forallb isSpace w2 = true
    ∧ forallb isSpace w3 = true ∧ forallb isSpace w4 = true
    ∧ ds ≠ [] ∧ forallb isDigit ds = true.

(** A value is truthy unless it is [undefined] or the empty string. *)
Definition truthy (v : option jsstring) : bool :=
  match v with
  | Some (_ :: _) => true
  | _ => false
  end.

(** [String(v)] of an optional string. *)
Definition toString (v : option jsstring) : jsstring :=
  match v with
  | Some s => s
  | None => lit "undefined"
  end.

Section Rewrite.
Variables (updatedAt : jsstring) (domainCount domainSuffixCount total : Z).
Variable tempName : option jsstring.

Definition tableMatchers : list (jsstring * Z) :=
  [(lit "DOMAIN", domainCount);
   (lit "DOMAIN-SUFFIX", domainSuffixCount);
   (lit "TOTAL", total)].

Definition row (key : jsstring) (value : Z) : jsstring :=
  lit "| " ++ padEnd key 14 ++ lit " | " ++ padEnd (Number_toString value) 5 ++ lit " |".

(** The [for] loop over the matchers: the row of the first matcher whose
    pattern accepts the line. *)
Fixpoint matchRow (matchers : list (jsstring * Z)) (line : jsstring)
  : option jsstring :=
  match matchers with
  | [] => None
  | (key, value) :: rest =>
      if test (rowRegex key) line then Some (row key value)
      else matchRow rest line
  end.

(** The function mapped over the lines. *)
Definition rewriteLine (line : jsstring) : jsstring :=
  if startsWith line updatedAtPrefix then updatedAtPrefix ++ updatedAt
  else
    match matchRow tableMatchers line with
    | Some r => r
    | None =>
        if includes line DATETIME then replace line DATETIME updatedAt
        else if includes line TEMPNAME && truthy tempName then
          replaceAll line TEMPNAME (toString tempName)
        else line
    end.

Definition updateReadme_lines (content : jsstring) : list jsstring :=
  map rewriteLine (split_lines content).

Definition updateReadme (content : jsstring) : jsstring :=
  join_lines (updateReadme_lines content).

End Rewrite.

End Readme.

(** ** Calls with an arbitrary value as the text

    The three functions begin with [content.split(...)], which exists only
    on a string: any other value throws a [TypeError] there.  On a string
    one thing can fail: the engine makes no string longer than its limit,
    and a template literal, [padEnd], [replace], [replaceAll] or [join]
    whose result would be longer throws a [RangeError] (invalid string
    length).  The other string operations of the three functions ([split],
    [trim], [slice], [indexOf], [startsWith], [includes], [test]) return
    parts of a string that exists, or no string at all. *)

Module Call.
Import JS.

Inductive value :=
| VUndefined
| VNull
| VBoolean (b : bool)
| VNumber (n : Z)
| VString (s : jsstring).

Inductive error := TypeError | RangeError.

Inductive completion (A : Type) :=
| Normal (a : A)
| Throw (e : error).
Arguments Normal {A} a.
Arguments Throw {A} e.

#[export] Instance completion_bind : MBind completion :=
  λ A B k c,
    match c with
    | Normal a => k a
    | Throw e => Throw e
    end.

#[export] Instance completion_ret : MRet completion := λ A a, Normal a.

(** [content.split(/\r?\n/)] *)
Definition split (content : value) : completion (list jsstring) :=
  match content with
  | VString s => Normal (split_lines s)
  | _ => Throw TypeError
  end.

Definition parseCountsFromList (content : value) : completion Counter.CountSummary :=
  lines ← split content;
  Normal (Counter.countLines lines).

Section Limit.
(** The length of the longest string of the engine, in code units (V8 on
    64 bit: 2^29 - 24). *)
Variable maxLength : N.

(** A string that the engine is asked to make. *)
Definition build (s : jsstring) : completion jsstring :=
  if (N.of_nat (length s) <=? maxLength)%N then Normal s else Throw RangeError.

Variables (updatedAt : jsstring) (domainCount domainSuffixCount total : Z).
Variable tempName : option jsstring.

(** The body of [for (const line of lines)] in [updateListHeader]. *)
Definition scanLine (st : ListHeader.Scan) (line : jsstring)
  : completion ListHeader.Scan :=
  let '(ListHeader.mkScan out hasUpdated hasDomain hasDomainSuffix hasTotal) := st in
  if startsWith line (lit "# UPDATED:") then
    l ← build (lit "# UPDATED: " ++ updatedAt);
    Normal (ListHeader.mkScan (out ++ [l]) true hasDomain hasDomainSuffix hasTotal)
  else if startsWith line (lit "# DOMAIN:") then
    l ← build (lit "# DOMAIN: " ++ Number_toString domainCount);
    Normal (ListHeader.mkScan (out ++ [l]) hasUpdated true hasDomainSuffix hasTotal)
  else if startsWith line (lit "# DOMAIN-SUFFIX:") then
    l ← build (lit "# DOMAIN-SUFFIX: " ++ Number_toString domainSuffixCount);
    Normal (ListHeader.mkScan (out ++ [l]) hasUpdated hasDomain true hasTotal)
  else if startsWith line (lit "# TOTAL:") then
    l ← build (lit "# TOTAL: " ++ Number_toString total);
    Normal (ListHeader.mkScan (out ++ [l]) hasUpdated hasDomain hasDomainSuffix true)
  else
    Normal (ListHeader.mkScan (out ++ [line]) hasUpdated hasDomain hasDomainSuffix hasTotal).

Fixpoint scan (lines : list jsstring) (st : ListHeader.Scan)
  : completion ListHeader.Scan :=
  match lines with
  | [] => Normal st
  | line :: lines' => st' ← scanLine st line; scan lines' st'
  end.

(** [if (!has) insert(line)]: the line is made before it is inserted. *)
Definition ifMissing (has : bool) (line : jsstring)
    (insert : jsstring → list jsstring → list jsstring) (arr : list jsstring)
  : completion (list jsstring) :=
  if negb has then l ← build line; Normal (insert l arr) else Normal arr.

(** The array [out] when [updateListHeader] comes to its last line. *)
Definition updateListHeader_lines (content : value) : completion (list jsstring) :=
  lines ← split content;
  st ← scan lines (ListHeader.mkScan [] false false false false);
  out ← ifMissing (ListHeader.hasUpdated st) (lit "# UPDATED: " ++ updatedAt)
          (λ l arr, fst (ListHeader.insertHeaderIfMissing (arr, false) l))
          (ListHeader.out st);
  out ← ifMissing (ListHeader.hasDomain st)
          (lit "# DOMAIN: " ++ Number_toString domainCount)
          (ListHeader.splice0 2) out;
  out ← ifMissing (ListHeader.hasDomainSuffix st)
          (lit "# DOMAIN-SUFFIX: " ++ Number_toString domainSuffixCount)
          (ListHeader.splice0 3) out;
  ifMissing (ListHeader.hasTotal st) (lit "# TOTAL: " ++ Number_toString total)
    (ListHeader.splice0 4) out.

Definition updateListHeader (content : value) : completion jsstring :=
  out ← updateListHeader_lines content;
  build (join_lines out).

(** [new RegExp(...)] of [updateReadme]: the key with its first hyphen
    escaped, then the source of the pattern, then the pattern. *)
Definition rowPattern (key : jsstring) : completion Regex.regex :=
  escaped ← build (Readme.replace key (lit "-") (lit "\-"));
  _ ← build (lit "^\|\s*" ++ escaped ++ lit "\s*\|\s*\d+\s*\|$");
  Normal (Readme.rowRegex key).

(** The row that [updateReadme] returns for a key and its value. *)
Definition row (key : jsstring) (value : Z) : completion jsstring :=
  k ← build (padEnd key 14);
  v ← build (padEnd (Number_toString value) 5);
  build (lit "| " ++ k ++ lit " | " ++ v ++ lit " |").

(** The [for] loop over the matchers. *)
Fixpoint matchRow (matchers : list (jsstring * Z)) (line : jsstring)
  : completion (option jsstring) :=
  match matchers with
  | [] => Normal None
  | (key, value) :: rest =>
      regex ← rowPattern key;
      if Regex.test regex line then r ← row key value; Normal (Some r)
      else matchRow rest line
  end.

(** The function mapped over the lines of the README. *)
Definition rewriteLine (line : jsstring) : completion jsstring :=
  if startsWith line Readme.updatedAtPrefix then build (Readme.updatedAtPrefix ++ updatedAt)
  else
    found ← matchRow (Readme.tableMatchers domainCount domainSuffixCount total) line;
    match found with
    | Some r => Normal r
    | None =>
        if includes line Readme.DATETIME then
          build (Readme.replace line Readme.DATETIME updatedAt)
        else if includes line Readme.TEMPNAME && Readme.truthy tempName then
          build (Readme.replaceAll line Readme.TEMPNAME (Readme.toString tempName))
        else Normal line
    end.

Definition updateReadme (content : value) : completion jsstring :=
  lines ← split content;
  newLines ← mapM rewriteLine lines;
  build (join_lines newLines).

End Limit.

(** The limit of V8 on 64 bit, which Node.js gives as
    [buffer.constants.MAX_STRING_LENGTH]: 2^29 - 24 code units. *)
Definition MAX_STRING_LENGTH : N := 536870888.

End Call.

(** ** The timestamp: [formatDate]

    A [Date] is read through its six getters only; a valid date gives an
    integer for each. *)

Module Timestamp.
Import JS.

Record Date := mkDate {
  getFullYear : Z;
  getMonth : Z;
  getDate : Z;
  getHours : Z;
  getMinutes : Z;
  getSeconds : Z
}.

(** [s.padStart(n, '0')] *)
Definition padStart (s : jsstring) (n : nat) : jsstring :=
  replicate (n - length s) 48%N ++ s.

(** [pad = (n) => String(n).padStart(2, '0')] *)
Definition pad (n : Z) : jsstring := padStart (Number_toString n) 2.

Definition formatDate (date : Date) : jsstring :=
  let y := getFullYear date in
  let m := pad (getMonth date + 1) in
  let d := pad (getDate date) in
  let h := pad (getHours date) in
  let mi := pad (getMinutes date) in
  let s := pad (getSeconds date) in
  Number_toString y ++ lit "-" ++ m ++ lit "-" ++ d ++ lit " "
  ++ h ++ lit ":" ++ mi ++ lit ":" ++ s.

(** A date of the years 1000 to 9999 with its fields in their ranges. *)
Definition valid (date : Date) : Prop :=
  (1000 ≤ getFullYear date ≤ 9999)%Z ∧ (0 ≤ getMonth date ≤ 11)%Z
  ∧ (1 ≤ getDate date ≤ 31)%Z ∧ (0 ≤ getHours date ≤ 23)%Z
  ∧ (0 ≤ getMinutes date ≤ 59)%Z ∧ (0 ≤ getSeconds date ≤ 59)%Z.

End Timestamp.

(** ** One rule-set directory: [readText], [writeText], [processRuleDir]

    The file system is the map from the paths of the regular files to their
    texts, together with the paths that cannot be written.  A read of a path
    that is not in the map throws, a write to a path that cannot be written
    throws, and what was written before a throw stays written.  The two
    functions of the module [path] and the listing of the directory are
    taken as given. *)

Module RuleDir.
Import JS Timestamp.

Inductive fs_error := ENOENT | EACCES.

Record FileSystem := mkFS {
  files : gmap jsstring jsstring;
  readonly : gset jsstring
}.

(** A computation on the file system: the file system afterwards and the
    value returned or the error thrown. *)
Definition IO (A : Type) : Type := FileSystem → FileSystem * (fs_error + A).

Definition ret {A} (a : A) : IO A := λ fs, (fs, inr a).

Definition bind {A B} (m : IO A) (k : A → IO B) : IO B :=
  λ fs, match m fs with
        | (fs', inr a) => k a fs'
        | (fs', inl e) => (fs', inl e)
        end.

(** [fs.readFileSync(file, 'utf8')] *)
Definition readText (file : jsstring) : IO jsstring :=
  λ fs, match files fs !! file with
        | Some content => (fs, inr content)
        | None => (fs, inl ENOENT)
        end.

(** [fs.writeFileSync(file, content, 'utf8')] *)
Definition writeText (file content : jsstring) : IO unit :=
  λ fs, if bool_decide (file ∈ readonly fs) then (fs, inl EACCES)
        else (mkFS (<[file := content]> (files fs)) (readonly fs), inr tt).

(** [fs.existsSync(file)] *)
Definition existsSync (file : jsstring) : IO bool :=
  λ fs, (fs, inr (bool_decide (is_Some (files fs !! file)))).

(** [s.endsWith(t)] *)
Definition endsWithString (s t : jsstring) : bool := startsWith (rev s) (rev t).

(** An entry of [fs.readdirSync(dir, { withFileTypes: true })]. *)
Record Dirent := mkDirent {
  name : jsstring;
  isFile : bool
}.

(** What [processRuleDir] returns. *)
Record Outcome := mkOutcome {
  changed : bool;
  listFile : option jsstring;
  readmeFile : option jsstring
}.

Section Paths.
(** [path.join(dir, name)] and [path.basename(file, ext)]. *)
Variable path_join : jsstring → jsstring → jsstring.
Variable path_basename : jsstring → jsstring → jsstring.
(** [fs.readdirSync(ruleDir, { withFileTypes: true })] *)
Variable readdirSync : jsstring → list Dirent.
(** [new Date()] at the call of [formatDate]. *)
Variable now : Date.

Definition listFiles (ruleDir : jsstring) : list jsstring :=
  map name (List.filter (λ e, isFile e && endsWithString (name e) (lit ".list"))
                        (readdirSync ruleDir)).

Definition processRuleDir (ruleDir : jsstring) : IO Outcome :=
  match listFiles ruleDir with
  | [] => ret (mkOutcome false None None)
  | first :: _ =>
      let listFile := path_join ruleDir first in
      let readmeFile := path_join ruleDir (lit "README.md") in
      bind (readText listFile) (λ listContent,
      let summary := Counter.parseCountsFromList listContent in
      let domainCount := Counter.getOr0 (Counter.typeCounts summary) (lit "DOMAIN") in
      let domainSuffixCount :=
        Counter.getOr0 (Counter.typeCounts summary) (lit "DOMAIN-SUFFIX") in
      let total := Counter.total summary in
      let updatedAt := formatDate now in
      let updatedList :=
        ListHeader.updateListHeader updatedAt domainCount domainSuffixCount total
          listContent in
      bind (writeText listFile updatedList) (λ _,
      bind (existsSync readmeFile) (λ there,
      bind (if there then
              bind (readText readmeFile) (λ readmeContent,
              let tempName := path_basename listFile (lit ".list") in
              let updatedReadme :=
                Readme.updateReadme updatedAt domainCount domainSuffixCount total
                  (Some tempName) readmeContent in
              writeText readmeFile updatedReadme)
            else ret tt) (λ _,
      ret (mkOutcome true (Some listFile) (Some readmeFile))))))
  end.

End Paths.

End RuleDir.

(** ** The changed rule sets: [getChangedRuleDirs]

    The output of [git status --porcelain] is given, or nothing when the
    command throws; [path.join] and the test for an existing directory are
    taken as given.  A [Set] of paths is the list of its members in the
    order of their insertion. *)

Module GitStatus.
Import JS.

(** [s.indexOf(t)]: the first position at which [t] begins, or -1. *)
Fixpoint indexOfString (s t : jsstring) : Z :=
  if startsWith s t then 0%Z
  else match s with
       | [] => (-1)%Z
       | _ :: s' =>
           let i := indexOfString s' t in
           if (i =? -1)%Z then (-1)%Z else (i + 1)%Z
       end.

(** [s.slice(n)] for a non-negative [n]. *)
Definition sliceFrom (s : jsstring) (n : Z) : jsstring := drop (Z.to_nat n) s.

(** [s.split(c)] for a one-unit separator. *)
Fixpoint splitOn (c : N) (s : jsstring) : list jsstring :=
  match s with
  | [] => [[]]
  | b :: s' =>
      if (b =? c)%N then [] :: splitOn c s'
      else push_front b (splitOn c s')
  end.

(** [raw.replace(/\\/g, '/')]: every backslash becomes a slash. *)
Definition toPosix (raw : jsstring) : jsstring :=
  map (λ c, if (c =? 92)%N then 47%N else c) raw.

(** [set.add(x)] *)
Definition Set_add (x : jsstring) (set : list jsstring) : list jsstring :=
  if bool_decide (x ∈ set) then set else set ++ [x].

(** The set [changed] and the array [changedPaths]. *)
Record Found := mkFound {
  changed : list jsstring;
  changedPaths : list jsstring
}.

Section Paths.
(** [path.join(ruleRoot, platform, ruleSet)] *)
Variable path_join : jsstring → jsstring → jsstring → jsstring.
(** [fs.existsSync(dir) && fs.statSync(dir).isDirectory()] *)
Variable isDirectory : jsstring → bool.
Variable ruleRoot : jsstring.

(** The body of [for (const line of lines)]. *)
Definition statusLine (acc : Found) (line : jsstring) : Found :=
  let renameIdx := indexOfString line (lit "->") in
  let rawPath :=
    if negb (renameIdx =? -1)%Z then trim (sliceFrom line (renameIdx + 2))
    else trim (sliceFrom line 3) in
  match rawPath with
  | [] => acc
  | _ =>
      let posixPath := toPosix rawPath in
      if negb (startsWith posixPath (lit "rule/")) then acc
      else
        let acc' := mkFound (changed acc) (changedPaths acc ++ [posixPath]) in
        let parts := splitOn 47 posixPath in
        if (length parts <? 3)%nat then acc'
        else
          let platform := nth 1 parts [] in
          let ruleSet := nth 2 parts [] in
          match platform, ruleSet with
          | [], _ | _, [] => acc'
          | _, _ =>
              if bool_decide (platform = lit "__template__") then acc'
              else
                let absDir := path_join ruleRoot platform ruleSet in
                if isDirectory absDir
                then mkFound (Set_add absDir (changed acc')) (changedPaths acc')
                else acc'
          end
  end.

(** The lines that [console.log] prints. *)
Definition report (paths : list jsstring) : list jsstring :=
  match paths with
  | [] => []
  | _ => lit "Changed files under rule/:" :: map (λ p, lit " - " ++ p) paths
  end.

(** The set returned and the lines printed. *)
Definition getChangedRuleDirs (gitStatus : option jsstring)
  : list jsstring * list jsstring :=
  match gitStatus with
  | None => ([], [])
  | Some output =>
      let lines :=
        List.filter (λ l, negb (bool_decide (l = []))) (split_lines output) in
      let acc := fold_left statusLine lines (mkFound [] []) in
      (changed acc, report (changedPaths acc))
  end.

End Paths.

End GitStatus.

(** * Properties *)

(** ** Facts about the string primitives *)

Module JSFacts.
Import JS.

Lemma dropSpaces_nil (s : jsstring) :
  dropSpaces s = [] ↔ forallb isSpace s = true.
Proof.
  induction s as [|c s IH]; simpl; [tauto|].
  destruct (isSpace c); simpl; [exact IH|].
  split; intros H; discriminate H.
Qed.

Lemma dropSpaces_head (s : jsstring) (c : N) (s' : jsstring) :
  dropSpaces s = c :: s' → isSpace c = false.
Proof.
  induction s as [|b s IH]; simpl; [discriminate|].
  destruct (isSpace b) eqn:Hb; [exact IH|].
  intros [= -> _]. exact Hb.
Qed.

Lemma forallb_isSpace_rev (s : jsstring) :
  forallb isSpace (rev s) = forallb isSpace s.
Proof.
  induction s as [|c s IH]; simpl; [reflexivity|].
  rewrite forallb_app, IH. simpl. destruct (isSpace c), (forallb isSpace s); reflexivity.
Qed.

(** Trimming leaves nothing exactly when the string is empty or has only
    white space. *)
Lemma trim_nil (s : jsstring) : trim s = [] ↔ forallb isSpace s = true.
Proof.
  unfold trim, trimEnd, trimStart. split.
  - intros H. apply (f_equal (@rev N)) in H. rewrite rev_involutive in H. simpl in H.
    apply dropSpaces_nil in H. rewrite forallb_isSpace_rev in H.
    destruct (dropSpaces s) as [|c s'] eqn:Hd.
    + apply dropSpaces_nil. exact Hd.
    + apply dropSpaces_head in Hd. simpl in H. rewrite Hd in H. discriminate H.
  - intros H. apply dropSpaces_nil in H. rewrite H. reflexivity.
Qed.

Lemma indexOf_absent (s : jsstring) (c : N) : c ∉ s → indexOf s c = (-1)%Z.
Proof.
  induction s as [|b s IH]; simpl; [reflexivity|].
  intros Hn. apply not_elem_of_cons in Hn as [Hcb Hs].
  destruct (N.eqb_spec b c) as [->|_]; [congruence|].
  rewrite (IH Hs). reflexivity.
Qed.

Lemma indexOf_ge (s : jsstring) (c : N) : (-1 ≤ indexOf s c)%Z.
Proof.
  induction s as [|b s IH]; simpl; [lia|].
  destruct (b =? c)%N; [lia|].
  destruct (Z.eqb_spec (indexOf s c) (-1)); lia.
Qed.

(** The first occurrence: [indexOf] is the length of the part in front of
    it. *)
Lemma indexOf_first (pre post : jsstring) (c : N) :
  c ∉ pre → indexOf (pre ++ c :: post) c = Z.of_nat (length pre).
Proof.
  induction pre as [|b pre IH]; simpl; intros Hn.
  - rewrite N.eqb_refl. reflexivity.
  - apply not_elem_of_cons in Hn as [Hcb Hs].
    destruct (N.eqb_spec b c) as [->|_]; [congruence|].
    rewrite (IH Hs).
    destruct (Z.eqb_spec (Z.of_nat (length pre)) (-1)); lia.
Qed.

Lemma slice0_first (pre post : jsstring) :
  slice0 (pre ++ post) (Z.of_nat (length pre)) = pre.
Proof.
  unfold slice0. destruct (Z.ltb_spec (Z.of_nat (length pre)) 0); [lia|].
  rewrite Nat2Z.id. apply take_app_length.
Qed.

Lemma includes_unit (s : jsstring) (c : N) : includes s [c] = false ↔ (c ∉ s).
Proof.
  induction s as [|b s IH]; simpl.
  - split; [intros _; apply not_elem_of_nil|reflexivity].
  - rewrite not_elem_of_cons, <- IH.
    destruct (N.eqb_spec b c) as [->|Hne]; simpl.
    + split; [discriminate|]. intros [Hc _]. congruence.
    + split; [intros H; split; [congruence|exact H]|tauto].
Qed.

Lemma endsWith_cons_cons (a b : N) (s : jsstring) (c : N) :
  endsWith (a :: b :: s) c = endsWith (b :: s) c.
Proof. unfold endsWith. rewrite last_cons_cons. reflexivity. Qed.

Lemma endsWith_app (s t : jsstring) (c : N) :
  endsWith (s ++ t) c = match t with [] => endsWith s c | _ => endsWith t c end.
Proof.
  unfold endsWith. rewrite last_app. destruct t as [|b t]; [reflexivity|].
  destruct (last (b :: t)) eqn:Hl; [reflexivity|].
  apply last_None in Hl. discriminate Hl.
Qed.

(** A line without LF that does not end in CR is cut off whole at the LF
    behind it. *)
Lemma split_lines_line (l rest : jsstring) :
  LF ∉ l → endsWith l CR = false →
  split_lines (l ++ LF :: rest) = l :: split_lines rest.
Proof.
  induction l as [|c l IH]; intros Hlf Hcr; [reflexivity|].
  apply not_elem_of_cons in Hlf as [Hc Hl].
  cbn [app split_lines].
  destruct (N.eqb_spec c LF) as [->|_]; [congruence|].
  destruct l as [|c' l].
  - destruct (N.eqb_spec c CR) as [->|_]; [discriminate Hcr|]. reflexivity.
  - rewrite endsWith_cons_cons in Hcr. rewrite (IH Hl Hcr).
    apply not_elem_of_cons in Hl as [Hc' _].
    cbn [app]. destruct (N.eqb_spec c' LF) as [->|_]; [congruence|].
    destruct (c =? CR)%N; reflexivity.
Qed.

(** A text without LF is one line. *)
Lemma split_lines_last (l : jsstring) : LF ∉ l → split_lines l = [l].
Proof.
  induction l as [|c l IH]; intros Hlf; [reflexivity|].
  apply not_elem_of_cons in Hlf as [Hc Hl].
  cbn [split_lines]. rewrite (IH Hl).
  destruct (N.eqb_spec c LF) as [->|_]; [congruence|].
  destruct l as [|c' l]; [destruct (c =? CR)%N; reflexivity|].
  apply not_elem_of_cons in Hl as [Hc' _].
  destruct (N.eqb_spec c' LF) as [->|_]; [congruence|].
  destruct (c =? CR)%N; reflexivity.
Qed.

Lemma join_lines_cons (l l' : jsstring) (ls : list jsstring) :
  join_lines (l :: l' :: ls) = l ++ LF :: join_lines (l' :: ls).
Proof. reflexivity. Qed.

(** Splitting undoes joining when no line has an LF or ends in CR. *)
Lemma split_join_lines (ls : list jsstring) :
  ls ≠ [] →
  Forall (λ l, (LF ∉ l) ∧ endsWith l CR = false) ls →
  split_lines (join_lines ls) = ls.
Proof.
  induction ls as [|l ls IH]; intros Hne Hall; [congruence|].
  apply Forall_cons in Hall as [[Hlf Hcr] Hall].
  destruct ls as [|l' ls].
  - apply split_lines_last. exact Hlf.
  - rewrite join_lines_cons, (split_lines_line _ _ Hlf Hcr).
    f_equal. apply IH; [discriminate|exact Hall].
Qed.

Lemma push_front_no_LF (c : N) (ls : list jsstring) :
  c ≠ LF → Forall (λ l, LF ∉ l) ls → Forall (λ l, LF ∉ l) (push_front c ls).
Proof.
  intros Hc Hall. destruct ls as [|l ls]; simpl.
  - constructor; [|constructor]. apply not_elem_of_cons. split; [congruence|apply not_elem_of_nil].
  - apply Forall_cons in Hall as [Hl Hall]. constructor; [|exact Hall].
    apply not_elem_of_cons. split; [congruence|exact Hl].
Qed.

(** No line of a split text holds an LF. *)
Lemma split_lines_no_LF (s : jsstring) : Forall (λ l, LF ∉ l) (split_lines s).
Proof.
  assert (Hnil : Forall (λ l : jsstring, LF ∉ l) [[]]).
  { constructor; [apply not_elem_of_nil|constructor]. }
  assert (H : Forall (λ l, LF ∉ l) (split_lines s)
              ∧ ∀ c, Forall (λ l, LF ∉ l) (split_lines (c :: s))).
  { induction s as [|c' s [IH1 IH2]].
    - split; [exact Hnil|]. intros c. cbn [split_lines].
      destruct (N.eqb_spec c LF) as [->|Hc];
        [constructor; [apply not_elem_of_nil|exact Hnil]|].
      destruct (c =? CR)%N; [|apply push_front_no_LF; assumption].
      constructor; [|constructor].
      apply not_elem_of_cons. split; [congruence|apply not_elem_of_nil].
    - split; [apply IH2|]. intros c.
      change (split_lines (c :: c' :: s)) with
        (if (c =? LF)%N then [] :: split_lines (c' :: s)
         else if (c =? CR)%N then
           (if (c' =? LF)%N then [] :: split_lines s
            else push_front c (split_lines (c' :: s)))
         else push_front c (split_lines (c' :: s))).
      destruct (N.eqb_spec c LF) as [->|Hc].
      + constructor; [apply not_elem_of_nil|apply IH2].
      + destruct (c =? CR)%N; [destruct (c' =? LF)%N|].
        * constructor; [apply not_elem_of_nil|exact IH1].
        * apply push_front_no_LF; [exact Hc|apply IH2].
        * apply push_front_no_LF; [exact Hc|apply IH2]. }
  apply H.
Qed.

Lemma digits_of_uint_plain (d : uint) :
  Forall (λ c, c ≠ LF ∧ c ≠ CR) (digits_of_uint d).
Proof.
  induction d; cbn [digits_of_uint]; constructor; try assumption;
    split; discriminate.
Qed.

(** A printed number has neither LF nor CR. *)
Lemma Number_toString_plain (n : Z) :
  Forall (λ c, c ≠ LF ∧ c ≠ CR) (Number_toString n).
Proof.
  destruct n as [|p|p]; cbn [Number_toString].
  - constructor; [split; discriminate|constructor].
  - apply digits_of_uint_plain.
  - constructor; [split; discriminate|apply digits_of_uint_plain].
Qed.

Lemma plain_no_LF (s : jsstring) : Forall (λ c, c ≠ LF ∧ c ≠ CR) s → LF ∉ s.
Proof.
  intros H Hin. rewrite Forall_forall in H. destruct (H LF Hin) as [Hne _]. congruence.
Qed.

Lemma plain_endsWith (s : jsstring) :
  Forall (λ c, c ≠ LF ∧ c ≠ CR) s → endsWith s CR = false.
Proof.
  intros H. unfold endsWith. destruct (last s) as [b|] eqn:Hl; [|reflexivity].
  apply last_Some_elem_of in Hl. rewrite Forall_forall in H.
  destruct (H b Hl) as [_ Hne]. apply N.eqb_neq. exact Hne.
Qed.

Lemma split_lines_nonempty (s : jsstring) : split_lines s ≠ [].
Proof.
  assert (Hp : ∀ c ls, push_front c ls ≠ []) by (intros c [|l ls]; discriminate).
  assert (H : split_lines s ≠ [] ∧ ∀ c, split_lines (c :: s) ≠ []).
  { induction s as [|c' s [IH1 IH2]].
    - split; [discriminate|]. intros c. cbn [split_lines].
      destruct (c =? LF)%N; [discriminate|]. destruct (c =? CR)%N; [discriminate|apply Hp].
    - split; [apply IH2|]. intros c. cbn [split_lines].
      destruct (c =? LF)%N; [discriminate|].
      destruct (c =? CR)%N; [destruct (c' =? LF)%N; [discriminate|apply Hp]|apply Hp]. }
  apply H.
Qed.

End JSFacts.

(** ** The counter *)

Module CounterFacts.
Import JS Counter JSFacts.
Local Open Scope Z_scope.

(** [isRuleLine] accepts exactly the lines that are neither blank nor
    comments. *)
Lemma isRuleLine_ruleEntry (line : jsstring) : isRuleLine line = ruleEntry line.
Proof.
  unfold isRuleLine, ruleEntry, blank, comment.
  destruct line as [|c line]; [reflexivity|].
  destruct (forallb isSpace (c :: line)) eqn:Hb.
  - apply trim_nil in Hb. rewrite Hb. reflexivity.
  - destruct (trim (c :: line)) as [|d t] eqn:Ht.
    + apply trim_nil in Ht. congruence.
    + simpl length. simpl Nat.eqb. cbv iota.
      destruct (startsWith (d :: t) (lit "#")); reflexivity.
Qed.

Lemma getOr0_default (m : gmap jsstring Z) (k : jsstring) :
  getOr0 m k = default 0 (m !! k).
Proof.
  unfold getOr0. destruct (m !! k) as [v|]; simpl; [|reflexivity].
  destruct (Z.eqb_spec v 0); congruence.
Qed.

(** What one iteration does, in terms of [counted]. *)
Lemma countLine_counted (st : CountSummary) (line : jsstring) :
  countLine st line =
    if counted line then
      {| typeCounts := <[typeOf line := default 0 (typeCounts st !! typeOf line) + 1]>
                         (typeCounts st);
         total := total st + 1 |}
    else st.
Proof.
  unfold countLine, counted. rewrite isRuleLine_ruleEntry, getOr0_default.
  destruct (ruleEntry line); simpl; [|reflexivity].
  destruct (typeOf line) as [|c t]; reflexivity.
Qed.

Lemma countLines_snoc (lines : list jsstring) (line : jsstring) :
  countLines (lines ++ [line]) = countLine (countLines lines) line.
Proof. unfold countLines. rewrite fold_left_app. reflexivity. Qed.

Lemma countIf_snoc (f : jsstring → bool) (lines : list jsstring) (line : jsstring) :
  countIf f (lines ++ [line]) = (countIf f lines + (if f line then 1 else 0))%nat.
Proof.
  unfold countIf. rewrite List.filter_app, length_app. simpl.
  destruct (f line); reflexivity.
Qed.

Lemma countIf_app (f : jsstring → bool) (l1 l2 : list jsstring) :
  countIf f (l1 ++ l2) = (countIf f l1 + countIf f l2)%nat.
Proof. unfold countIf. rewrite List.filter_app, length_app. reflexivity. Qed.

Lemma countIf_cons (f : jsstring → bool) (line : jsstring) (lines : list jsstring) :
  countIf f (line :: lines) = ((if f line then 1 else 0) + countIf f lines)%nat.
Proof. unfold countIf. simpl. destruct (f line); reflexivity. Qed.

(** [total] counts the counted lines. *)
Lemma countLines_total (lines : list jsstring) :
  total (countLines lines) = Z.of_nat (countIf counted lines).
Proof.
  induction lines as [|line lines IH] using rev_ind; [reflexivity|].
  rewrite countLines_snoc, countIf_snoc, countLine_counted.
  destruct (counted line); simpl; rewrite IH; lia.
Qed.

(** The entry of category [c] is absent when no counted line has that
    category, and otherwise holds the number of those lines. *)
Lemma countLines_lookup (lines : list jsstring) (c : jsstring) :
  typeCounts (countLines lines) !! c =
    match occurrences c lines with
    | O => None
    | n => Some (Z.of_nat n)
    end.
Proof.
  induction lines as [|line lines IH] using rev_ind; [reflexivity|].
  unfold occurrences in *.
  rewrite countLines_snoc, countIf_snoc, countLine_counted.
  destruct (counted line) eqn:Hc; simpl.
  - destruct (decide (typeOf line = c)) as [->|Hne].
    + rewrite lookup_insert_eq, IH, bool_decide_eq_true_2 by reflexivity.
      destruct (countIf _ lines) as [|n]; simpl; f_equal; lia.
    + rewrite lookup_insert_ne, IH, bool_decide_eq_false_2 by assumption.
      rewrite Nat.add_0_r. reflexivity.
  - rewrite IH, Nat.add_0_r. reflexivity.
Qed.

Lemma sumCounts_insert (m : gmap jsstring Z) (k : jsstring) (v : Z) :
  sumCounts (<[k := v]> m) = sumCounts m - default 0 (m !! k) + v.
Proof.
  unfold sumCounts. destruct (m !! k) as [x|] eqn:Hk; simpl.
  - rewrite <- insert_delete_eq.
    rewrite map_fold_insert_L; [|intros; lia|apply lookup_delete_eq].
    rewrite (map_fold_delete_L _ _ k x m); [lia|intros; lia|exact Hk].
  - rewrite map_fold_insert_L; [lia|intros; lia|exact Hk].
Qed.

Lemma countLines_sum (lines : list jsstring) :
  sumCounts (typeCounts (countLines lines)) = total (countLines lines).
Proof.
  induction lines as [|line lines IH] using rev_ind; [reflexivity|].
  rewrite countLines_snoc, countLine_counted.
  destruct (counted line); simpl; [|exact IH].
  rewrite sumCounts_insert, IH. lia.
Qed.

(** Two summaries with the same entries and the same total are equal. *)
Lemma summary_eq (r r' : CountSummary) :
  (∀ c, typeCounts r !! c = typeCounts r' !! c) → total r = total r' → r = r'.
Proof.
  destruct r as [m t], r' as [m' t']; simpl. intros Hm ->.
  f_equal. apply map_eq. exact Hm.
Qed.

End CounterFacts.

Module CounterClaims.
Import JS Counter JSFacts CounterFacts.
Local Open Scope Z_scope.

(** C1, as the code has it: for every text, [total] is the number of lines
    that are neither blank nor comments and whose category token (the
    trimmed text in front of the first comma) is not empty. *)
Theorem total_counts_entries_with_category (content : jsstring) :
  total (parseCountsFromList content)
  = Z.of_nat (countIf (λ l, ruleEntry l && negb (bool_decide (typeOf l = [])))
                      (split_lines content)).
Proof. unfold parseCountsFromList. apply countLines_total. Qed.

(** C1, as stated, fails: the one line [,example.com] is neither blank nor
    a comment, and the total is 0. *)
Lemma total_misses_entry_without_category :
  total (parseCountsFromList (lit ",example.com"))
  ≠ Z.of_nat (countIf ruleEntry (split_lines (lit ",example.com"))).
Proof. vm_compute. discriminate. Qed.

(** C5: for every text, the per-category counts add up to [total]. *)
Theorem counts_sum_to_total (content : jsstring) :
  sumCounts (typeCounts (parseCountsFromList content))
  = total (parseCountsFromList content).
Proof. unfold parseCountsFromList. apply countLines_sum. Qed.

Lemma getOr0_countLines (lines : list jsstring) (c : jsstring) :
  getOr0 (typeCounts (countLines lines)) c = Z.of_nat (occurrences c lines).
Proof.
  rewrite getOr0_default, countLines_lookup.
  destruct (occurrences c lines); reflexivity.
Qed.

Lemma occurrences_insert (c line : jsstring) (before after : list jsstring) :
  occurrences c (before ++ line :: after)
  = (occurrences c (before ++ after)
     + (if counted line && bool_decide (typeOf line = c) then 1 else 0))%nat.
Proof.
  unfold occurrences. rewrite !countIf_app, countIf_cons. lia.
Qed.

Lemma counted_rule (line : jsstring) :
  ruleEntry line = true → typeOf line ≠ [] → counted line = true.
Proof.
  intros Hrule Hne. unfold counted.
  rewrite Hrule, bool_decide_eq_false_2 by exact Hne. reflexivity.
Qed.

(** C7: for a rule entry, the category token is the trimmed text in front
    of the first comma, or the whole trimmed line when there is no comma;
    a rule entry with an empty token changes nothing wherever it stands in
    the list, any other adds one to [total] and one to its category and
    leaves the other categories alone; the text [DOMAIN] alone gives
    category DOMAIN the count 1. *)
Theorem category_token_of_rule_entry (line : jsstring) :
  ruleEntry line = true →
  (∀ pre post, line = pre ++ COMMA :: post → COMMA ∉ pre → typeOf line = trim pre)
  ∧ (COMMA ∉ line → typeOf line = trim line)
  ∧ (∀ before after, typeOf line = [] →
       countLines (before ++ line :: after) = countLines (before ++ after))
  ∧ (∀ before after, typeOf line ≠ [] →
       let r := countLines (before ++ line :: after) in
       let r0 := countLines (before ++ after) in
       total r = total r0 + 1
       ∧ getOr0 (typeCounts r) (typeOf line) = getOr0 (typeCounts r0) (typeOf line) + 1
       ∧ ∀ c, c ≠ typeOf line → typeCounts r !! c = typeCounts r0 !! c)
  ∧ parseCountsFromList (lit "DOMAIN")
    = {| typeCounts := {[ lit "DOMAIN" := 1 ]}; total := 1 |}.
Proof.
  intros Hrule.
  split; [|split; [|split; [|split; [|vm_compute; reflexivity]]]];
    [| | |intros before after Hne; cbv zeta; split; [|split]].
  - intros pre post -> Hpre. unfold typeOf.
    rewrite (indexOf_first pre post COMMA Hpre).
    destruct (Z.eqb_spec (Z.of_nat (length pre)) (-1)); [lia|].
    rewrite slice0_first. reflexivity.
  - intros Hno. unfold typeOf. rewrite (indexOf_absent line COMMA Hno). reflexivity.
  - intros before after Hempty.
    assert (Hc : counted line = false).
    { unfold counted. rewrite Hrule, bool_decide_eq_true_2 by exact Hempty. reflexivity. }
    apply summary_eq.
    + intros c. rewrite !countLines_lookup, occurrences_insert, Hc. simpl.
      rewrite Nat.add_0_r. reflexivity.
    + rewrite !countLines_total, countIf_app, countIf_cons, Hc, countIf_app. lia.
  - rewrite !countLines_total, !countIf_app, countIf_cons, (counted_rule line) by assumption.
    lia.
  - rewrite !getOr0_countLines, occurrences_insert, (counted_rule line) by assumption.
    rewrite bool_decide_eq_true_2 by reflexivity. simpl. lia.
  - intros c Hc. rewrite !countLines_lookup, occurrences_insert.
    rewrite (bool_decide_eq_false_2 (typeOf line = c)) by congruence.
    rewrite andb_false_r, Nat.add_0_r. reflexivity.
Qed.

(** The theorem at the rule entry [DOMAIN,example.com]. *)
Lemma category_token_of_rule_entry_witness :
  ruleEntry (lit "DOMAIN,example.com") = true
  ∧ typeOf (lit "DOMAIN,example.com") = trim (lit "DOMAIN").
Proof.
  split; [reflexivity|].
  destruct (category_token_of_rule_entry (lit "DOMAIN,example.com") eq_refl) as [H _].
  apply (H (lit "DOMAIN") (lit "example.com")); [reflexivity|].
  vm_compute. intros Hin. repeat (apply elem_of_cons in Hin as [Hin|Hin]; [discriminate Hin|]).
  apply elem_of_nil in Hin. exact Hin.
Defined.

End CounterClaims.

(** ** The list header *)

(** Literals are unfolded to their code units before a case analysis. *)
Ltac unfold_lits :=
  repeat match goal with
         | |- context [lit ?s] =>
             let v := eval vm_compute in (lit s) in change (lit s) with v
         | H : context [lit ?s] |- _ =>
             let v := eval vm_compute in (lit s) in change (lit s) with v in H
         end.

Module ListHeaderFacts.
Import JS ListHeader JSFacts.

Lemma startsWith_app (p r : jsstring) : startsWith (p ++ r) p = true.
Proof.
  induction p as [|a p IH]; simpl; [reflexivity|].
  rewrite N.eqb_refl. exact IH.
Qed.

Lemma startsWith_inv (s p : jsstring) :
  startsWith s p = true → s = p ++ drop (length p) s.
Proof.
  revert s. induction p as [|a p IH]; intros s; simpl; [reflexivity|].
  destruct s as [|b s]; [discriminate|].
  destruct (N.eqb_spec b a) as [->|_]; simpl; [|discriminate].
  intros H. f_equal. apply IH. exact H.
Qed.

(** Two literals that differ somewhere in their common length cannot both
    be in front of the same line. *)
Ltac prefix_clash H1 H2 :=
  apply startsWith_inv in H1; apply startsWith_inv in H2;
  rewrite H1 in H2; unfold_lits; simpl in H2; discriminate H2.

Lemma updated_not_domain (l : jsstring) :
  startsWith l (lit "# UPDATED:") = true → startsWith l (lit "# DOMAIN:") = false.
Proof.
  intros H1. destruct (startsWith l (lit "# DOMAIN:")) eqn:H2; [|reflexivity].
  prefix_clash H1 H2.
Qed.

Lemma updated_not_suffix (l : jsstring) :
  startsWith l (lit "# UPDATED:") = true → startsWith l (lit "# DOMAIN-SUFFIX:") = false.
Proof.
  intros H1. destruct (startsWith l (lit "# DOMAIN-SUFFIX:")) eqn:H2; [|reflexivity].
  prefix_clash H1 H2.
Qed.

Lemma updated_not_total (l : jsstring) :
  startsWith l (lit "# UPDATED:") = true → startsWith l (lit "# TOTAL:") = false.
Proof.
  intros H1. destruct (startsWith l (lit "# TOTAL:")) eqn:H2; [|reflexivity].
  prefix_clash H1 H2.
Qed.

Lemma domain_not_suffix (l : jsstring) :
  startsWith l (lit "# DOMAIN:") = true → startsWith l (lit "# DOMAIN-SUFFIX:") = false.
Proof.
  intros H1. destruct (startsWith l (lit "# DOMAIN-SUFFIX:")) eqn:H2; [|reflexivity].
  prefix_clash H1 H2.
Qed.

Lemma domain_not_total (l : jsstring) :
  startsWith l (lit "# DOMAIN:") = true → startsWith l (lit "# TOTAL:") = false.
Proof.
  intros H1. destruct (startsWith l (lit "# TOTAL:")) eqn:H2; [|reflexivity].
  prefix_clash H1 H2.
Qed.

Lemma suffix_not_total (l : jsstring) :
  startsWith l (lit "# DOMAIN-SUFFIX:") = true → startsWith l (lit "# TOTAL:") = false.
Proof.
  intros H1. destruct (startsWith l (lit "# TOTAL:")) eqn:H2; [|reflexivity].
  prefix_clash H1 H2.
Qed.

Section Rewrite.
Variables (updatedAt : jsstring) (domainCount domainSuffixCount total : Z).

Local Abbreviation scan := (scan updatedAt domainCount domainSuffixCount total).
Local Abbreviation scanLine := (scanLine updatedAt domainCount domainSuffixCount total).
Local Abbreviation canonical := (canonical updatedAt domainCount domainSuffixCount total).
Local Abbreviation updatedLine := (updatedLine updatedAt).
Local Abbreviation domainLine := (domainLine domainCount).
Local Abbreviation domainSuffixLine := (domainSuffixLine domainSuffixCount).
Local Abbreviation totalLine := (totalLine total).

Lemma scan_snoc (lines : list jsstring) (line : jsstring) :
  scan (lines ++ [line]) = scanLine (scan lines) line.
Proof. unfold ListHeader.scan. rewrite fold_left_app. reflexivity. Qed.

(** The loop maps [canonical] over the lines, and each flag tells whether
    some line begins with its prefix. *)
Lemma scan_spec (lines : list jsstring) :
  scan lines =
    mkScan (map canonical lines)
           (existsb (λ l, startsWith l (lit "# UPDATED:")) lines)
           (existsb (λ l, startsWith l (lit "# DOMAIN:")) lines)
           (existsb (λ l, startsWith l (lit "# DOMAIN-SUFFIX:")) lines)
           (existsb (λ l, startsWith l (lit "# TOTAL:")) lines).
Proof.
  induction lines as [|line lines IH] using rev_ind; [reflexivity|].
  rewrite scan_snoc, IH, map_app, !existsb_app.
  unfold ListHeader.scanLine, ListHeader.canonical.
  cbn [map existsb out hasUpdated hasDomain hasDomainSuffix hasTotal].
  destruct (startsWith line (lit "# UPDATED:")) eqn:HU.
  { rewrite (updated_not_domain _ HU), (updated_not_suffix _ HU), (updated_not_total _ HU).
    rewrite !orb_false_r, orb_true_r. reflexivity. }
  destruct (startsWith line (lit "# DOMAIN:")) eqn:HD.
  { rewrite (domain_not_suffix _ HD), (domain_not_total _ HD).
    rewrite !orb_false_r, orb_true_r. reflexivity. }
  destruct (startsWith line (lit "# DOMAIN-SUFFIX:")) eqn:HS.
  { rewrite (suffix_not_total _ HS).
    rewrite !orb_false_r, orb_true_r. reflexivity. }
  destruct (startsWith line (lit "# TOTAL:")) eqn:HT;
    rewrite ?orb_false_r, ?orb_true_r; reflexivity.
Qed.

Lemma isHeader_updatedLine : isHeader updatedLine = true.
Proof. unfold isHeader, ListHeader.updatedLine. unfold_lits. reflexivity. Qed.

Lemma isHeader_domainLine : isHeader domainLine = true.
Proof. unfold isHeader, ListHeader.domainLine. unfold_lits. reflexivity. Qed.

Lemma isHeader_domainSuffixLine : isHeader domainSuffixLine = true.
Proof. unfold isHeader, ListHeader.domainSuffixLine. unfold_lits. reflexivity. Qed.

Lemma isHeader_totalLine : isHeader totalLine = true.
Proof. unfold isHeader, ListHeader.totalLine. unfold_lits. reflexivity. Qed.

(** A header line is rewritten to a header line; any other line is kept. *)
Lemma canonical_header (line : jsstring) :
  isHeader line = true → isHeader (canonical line) = true.
Proof.
  intros H. unfold ListHeader.canonical.
  destruct (startsWith line (lit "# UPDATED:")); [apply isHeader_updatedLine|].
  destruct (startsWith line (lit "# DOMAIN:")); [apply isHeader_domainLine|].
  destruct (startsWith line (lit "# DOMAIN-SUFFIX:")); [apply isHeader_domainSuffixLine|].
  destruct (startsWith line (lit "# TOTAL:")) eqn:HT; [apply isHeader_totalLine|].
  assumption.
Qed.

Lemma canonical_other (line : jsstring) :
  isHeader line = false → canonical line = line.
Proof.
  unfold isHeader, ListHeader.canonical. intros H.
  apply orb_false_elim in H as [H HT]. apply orb_false_elim in H as [H HS].
  apply orb_false_elim in H as [HU HD]. rewrite HU, HD, HS, HT. reflexivity.
Qed.

Lemma filter_canonical (lines : list jsstring) :
  List.filter (λ l, negb (isHeader l)) (map canonical lines)
  = List.filter (λ l, negb (isHeader l)) lines.
Proof.
  induction lines as [|line lines IH]; [reflexivity|]. simpl.
  destruct (isHeader line) eqn:H.
  - rewrite (canonical_header line H). simpl. exact IH.
  - rewrite (canonical_other line H), H. simpl. f_equal. exact IH.
Qed.

(** The canonical header lines are rewritten to themselves. *)
Lemma canonical_updatedLine : canonical updatedLine = updatedLine.
Proof. unfold ListHeader.canonical, ListHeader.updatedLine. unfold_lits. reflexivity. Qed.

Lemma canonical_domainLine : canonical domainLine = domainLine.
Proof. unfold ListHeader.canonical, ListHeader.domainLine. unfold_lits. reflexivity. Qed.

Lemma canonical_domainSuffixLine : canonical domainSuffixLine = domainSuffixLine.
Proof.
  unfold ListHeader.canonical, ListHeader.domainSuffixLine. unfold_lits. reflexivity.
Qed.

Lemma canonical_totalLine : canonical totalLine = totalLine.
Proof. unfold ListHeader.canonical, ListHeader.totalLine. unfold_lits. reflexivity. Qed.

Lemma canonical_cases (line : jsstring) :
  canonical line = updatedLine ∨ canonical line = domainLine
  ∨ canonical line = domainSuffixLine ∨ canonical line = totalLine
  ∨ canonical line = line.
Proof.
  unfold ListHeader.canonical.
  destruct (startsWith line (lit "# UPDATED:")); [tauto|].
  destruct (startsWith line (lit "# DOMAIN:")); [tauto|].
  destruct (startsWith line (lit "# DOMAIN-SUFFIX:")); [tauto|].
  destruct (startsWith line (lit "# TOTAL:")); tauto.
Qed.

Lemma canonical_idem (line : jsstring) : canonical (canonical line) = canonical line.
Proof.
  destruct (canonical_cases line) as [H|[H|[H|[H|H]]]]; rewrite H;
    [apply canonical_updatedLine|apply canonical_domainLine
    |apply canonical_domainSuffixLine|apply canonical_totalLine|exact H].
Qed.

(** A property of the four canonical lines that holds for every line of
    the array after the loop holds for every line of the final array. *)
Lemma afterTotal_Forall (P : jsstring → Prop) (st : Scan) :
  P updatedLine → P domainLine → P domainSuffixLine → P totalLine →
  Forall P (out st) →
  Forall P (afterTotal updatedAt domainCount domainSuffixCount total st).
Proof.
  intros HU HD HS HT Hout.
  assert (Hsp : ∀ n x arr, P x → Forall P arr → Forall P (splice0 n x arr)).
  { intros n x arr Hx Harr. unfold splice0. apply Forall_app. split.
    - apply Forall_take. exact Harr.
    - constructor; [exact Hx|]. apply Forall_drop. exact Harr. }
  unfold afterTotal, afterDomainSuffix, afterDomain, afterUpdated, insertHeaderIfMissing.
  cbn [fst].
  destruct (negb (hasTotal st)), (negb (hasDomainSuffix st)),
    (negb (hasDomain st)), (negb (hasUpdated st)); auto.
Qed.

(** Each header line whose flag is set or that was missing is in the
    final array. *)
Lemma afterTotal_elem (st : Scan) :
  (hasUpdated st = true → updatedLine ∈ out st) →
  (hasDomain st = true → domainLine ∈ out st) →
  (hasDomainSuffix st = true → domainSuffixLine ∈ out st) →
  (hasTotal st = true → totalLine ∈ out st) →
  let arr := afterTotal updatedAt domainCount domainSuffixCount total st in
  updatedLine ∈ arr ∧ domainLine ∈ arr ∧ domainSuffixLine ∈ arr ∧ totalLine ∈ arr.
Proof.
  assert (Hsp : ∀ n (x y : jsstring) arr, y ∈ splice0 n x arr ↔ y = x ∨ y ∈ arr).
  { intros n x y arr.
    assert (Hperm : splice0 n x arr ≡ₚ x :: arr).
    { unfold splice0. rewrite <- Permutation_middle, take_drop. reflexivity. }
    rewrite Hperm, elem_of_cons. tauto. }
  intros HU HD HS HT. cbv zeta.
  unfold afterTotal, afterDomainSuffix, afterDomain, afterUpdated, insertHeaderIfMissing.
  cbn [fst].
  destruct (hasTotal st), (hasDomainSuffix st), (hasDomain st), (hasUpdated st);
    cbn [negb]; rewrite ?Hsp; tauto.
Qed.

Lemma scan_out_elem (prefix x : jsstring) (lines : list jsstring) :
  (∀ l, startsWith l prefix = true → canonical l = x) →
  existsb (λ l, startsWith l prefix) lines = true →
  x ∈ map canonical lines.
Proof.
  intros Hx Hex. apply existsb_exists in Hex as (l & Hin & Hl).
  apply list_elem_of_fmap. exists l. split; [symmetry; apply Hx; exact Hl|].
  apply list_elem_of_In. exact Hin.
Qed.

Lemma canonical_of_updated (l : jsstring) :
  startsWith l (lit "# UPDATED:") = true → canonical l = updatedLine.
Proof. intros H. unfold ListHeader.canonical. rewrite H. reflexivity. Qed.

Lemma canonical_of_domain (l : jsstring) :
  startsWith l (lit "# DOMAIN:") = true → canonical l = domainLine.
Proof.
  intros H. unfold ListHeader.canonical. rewrite H.
  destruct (startsWith l (lit "# UPDATED:")) eqn:HU; [|reflexivity].
  rewrite (updated_not_domain _ HU) in H. discriminate H.
Qed.

Lemma canonical_of_suffix (l : jsstring) :
  startsWith l (lit "# DOMAIN-SUFFIX:") = true → canonical l = domainSuffixLine.
Proof.
  intros H. unfold ListHeader.canonical. rewrite H.
  destruct (startsWith l (lit "# UPDATED:")) eqn:HU;
    [rewrite (updated_not_suffix _ HU) in H; discriminate H|].
  destruct (startsWith l (lit "# DOMAIN:")) eqn:HD; [|reflexivity].
  rewrite (domain_not_suffix _ HD) in H. discriminate H.
Qed.

Lemma canonical_of_total (l : jsstring) :
  startsWith l (lit "# TOTAL:") = true → canonical l = totalLine.
Proof.
  intros H. unfold ListHeader.canonical. rewrite H.
  destruct (startsWith l (lit "# UPDATED:")) eqn:HU;
    [rewrite (updated_not_total _ HU) in H; discriminate H|].
  destruct (startsWith l (lit "# DOMAIN:")) eqn:HD;
    [rewrite (domain_not_total _ HD) in H; discriminate H|].
  destruct (startsWith l (lit "# DOMAIN-SUFFIX:")) eqn:HS; [|reflexivity].
  rewrite (suffix_not_total _ HS) in H. discriminate H.
Qed.

(** After one pass the four header lines are there. *)
Lemma headers_present (lines : list jsstring) :
  let arr := afterTotal updatedAt domainCount domainSuffixCount total (scan lines) in
  updatedLine ∈ arr ∧ domainLine ∈ arr ∧ domainSuffixLine ∈ arr ∧ totalLine ∈ arr.
Proof.
  apply afterTotal_elem; rewrite scan_spec; cbn [out hasUpdated hasDomain hasDomainSuffix hasTotal].
  - apply scan_out_elem, canonical_of_updated.
  - apply scan_out_elem, canonical_of_domain.
  - apply scan_out_elem, canonical_of_suffix.
  - apply scan_out_elem, canonical_of_total.
Qed.

(** After one pass every line is rewritten to itself. *)
Lemma lines_settled (lines : list jsstring) :
  Forall (λ l, canonical l = l)
    (afterTotal updatedAt domainCount domainSuffixCount total (scan lines)).
Proof.
  apply afterTotal_Forall;
    [apply canonical_updatedLine|apply canonical_domainLine
    |apply canonical_domainSuffixLine|apply canonical_totalLine|].
  rewrite scan_spec. cbn [out]. apply Forall_fmap, Forall_forall.
  intros l _. apply canonical_idem.
Qed.

Lemma header_one_line (p v : jsstring) :
  LF ∉ p → endsWith p CR = false → LF ∉ v → endsWith v CR = false →
  (LF ∉ p ++ v) ∧ endsWith (p ++ v) CR = false.
Proof.
  intros Hp Hpe Hv Hve. split.
  - apply not_elem_of_app. split; assumption.
  - rewrite endsWith_app. destruct v; assumption.
Qed.

Lemma literal_no_LF (p : jsstring) : forallb (λ c, negb (c =? LF)%N) p = true → LF ∉ p.
Proof.
  induction p as [|c p IH]; simpl; intros H; [apply not_elem_of_nil|].
  apply andb_true_iff in H as [Hc Hp]. apply not_elem_of_cons.
  split; [|apply IH; exact Hp].
  apply negb_true_iff, N.eqb_neq in Hc. congruence.
Qed.

(** After one pass over lines that hold no LF and do not end in CR, with
    a timestamp of that kind, every line of the array is of that kind. *)
Lemma lines_one_line (lines : list jsstring) :
  LF ∉ updatedAt → endsWith updatedAt CR = false →
  Forall (λ l, (LF ∉ l) ∧ endsWith l CR = false) lines →
  Forall (λ l, (LF ∉ l) ∧ endsWith l CR = false)
    (afterTotal updatedAt domainCount domainSuffixCount total (scan lines)).
Proof.
  intros Hlf Hcr Hlines.
  assert (HU : (LF ∉ updatedLine) ∧ endsWith updatedLine CR = false).
  { apply header_one_line; [apply literal_no_LF; reflexivity|reflexivity| |]; assumption. }
  assert (HN : ∀ p n, forallb (λ c, negb (c =? LF)%N) p = true → endsWith p CR = false →
             (LF ∉ p ++ Number_toString n) ∧ endsWith (p ++ Number_toString n) CR = false).
  { intros p n Hp Hpe. apply header_one_line;
      [apply literal_no_LF; exact Hp|exact Hpe
      |apply plain_no_LF, Number_toString_plain
      |apply plain_endsWith, Number_toString_plain]. }
  assert (HD := HN (lit "# DOMAIN: ") domainCount eq_refl eq_refl).
  assert (HS := HN (lit "# DOMAIN-SUFFIX: ") domainSuffixCount eq_refl eq_refl).
  assert (HT := HN (lit "# TOTAL: ") total eq_refl eq_refl).
  apply afterTotal_Forall; try assumption.
  rewrite scan_spec. cbn [out]. apply Forall_fmap.
  eapply Forall_impl; [exact Hlines|]. intros l Hl. cbn.
  destruct (canonical_cases l) as [H|[H|[H|[H|H]]]]; rewrite H; assumption.
Qed.

Lemma afterTotal_nonempty (st : Scan) :
  out st ≠ [] → afterTotal updatedAt domainCount domainSuffixCount total st ≠ [].
Proof.
  assert (Hsp : ∀ n (x : jsstring) arr, splice0 n x arr ≠ []).
  { intros n x arr H. apply (f_equal length) in H. unfold splice0 in H.
    rewrite length_app in H. simpl in H. lia. }
  intros Hout.
  unfold afterTotal, afterDomainSuffix, afterDomain, afterUpdated, insertHeaderIfMissing.
  cbn [fst].
  destruct (negb (hasTotal st)), (negb (hasDomainSuffix st)),
    (negb (hasDomain st)), (negb (hasUpdated st)); auto.
Qed.

(** A pass over an array that has the four header lines and only settled
    lines returns that array. *)
Lemma pass_fixed (arr : list jsstring) :
  Forall (λ l, canonical l = l) arr →
  updatedLine ∈ arr → domainLine ∈ arr → domainSuffixLine ∈ arr → totalLine ∈ arr →
  afterTotal updatedAt domainCount domainSuffixCount total (scan arr) = arr.
Proof.
  intros Hset HU HD HS HT.
  assert (Hex : ∀ prefix (x : jsstring),
             x ∈ arr → startsWith x prefix = true →
             existsb (λ l, startsWith l prefix) arr = true).
  { intros prefix x Hx Hp. apply existsb_exists. exists x.
    split; [apply list_elem_of_In; exact Hx|exact Hp]. }
  rewrite scan_spec.
  unfold afterTotal, afterDomainSuffix, afterDomain, afterUpdated.
  cbn [out hasUpdated hasDomain hasDomainSuffix hasTotal].
  rewrite (Hex (lit "# UPDATED:") _ HU)
    by (unfold ListHeader.updatedLine; unfold_lits; reflexivity).
  rewrite (Hex (lit "# DOMAIN:") _ HD)
    by (unfold ListHeader.domainLine; unfold_lits; reflexivity).
  rewrite (Hex (lit "# DOMAIN-SUFFIX:") _ HS)
    by (unfold ListHeader.domainSuffixLine; unfold_lits; reflexivity).
  rewrite (Hex (lit "# TOTAL:") _ HT)
    by (unfold ListHeader.totalLine; unfold_lits; reflexivity).
  cbn [negb]. clear - Hset.
  induction Hset as [|l arr Hl _ IH]; [reflexivity|].
  cbn [map]. rewrite Hl, IH. reflexivity.
Qed.

End Rewrite.

Lemma filter_splice0 (n : nat) (x : jsstring) (arr : list jsstring) :
  isHeader x = true →
  List.filter (λ l, negb (isHeader l)) (splice0 n x arr)
  = List.filter (λ l, negb (isHeader l)) arr.
Proof.
  intros H. unfold splice0. rewrite List.filter_app. simpl. rewrite H. simpl.
  rewrite <- List.filter_app, take_drop. reflexivity.
Qed.

Lemma splice0_inserted_at {A} (n : nat) (x : A) (arr : list A) :
  inserted_at (Nat.min n (length arr)) x arr (splice0 n x arr).
Proof.
  exists (take (Nat.min n (length arr)) arr), (drop (Nat.min n (length arr)) arr).
  split; [symmetry; apply take_drop|]. split; [reflexivity|].
  rewrite length_take. lia.
Qed.

Lemma findIndex_spec {A} (f : A → bool) (arr : list A) :
  (findIndex f arr = (-1)%Z ∧ Forall (λ x, f x = false) arr)
  ∨ (∃ i x, findIndex f arr = Z.of_nat i ∧ arr !! i = Some x ∧ f x = true
            ∧ ∀ j y, (j < i)%nat → arr !! j = Some y → f y = false).
Proof.
  induction arr as [|a arr IH]; simpl.
  - left. split; [reflexivity|constructor].
  - destruct (f a) eqn:Ha.
    + right. exists 0%nat, a. repeat split; [assumption|]. intros j y Hj. lia.
    + destruct IH as [[-> Hall]|(i & x & -> & Hx & Hfx & Hlt)].
      * left. split; [reflexivity|constructor; assumption].
      * right. exists (S i), x.
        destruct (Z.eqb_spec (Z.of_nat i) (-1)); [lia|].
        repeat split; [lia|exact Hx|exact Hfx|].
        intros [|j] y Hj Hy; simpl in Hy; [congruence|].
        apply (Hlt j y); [lia|exact Hy].
Qed.

Lemma absent_existsb (prefix : jsstring) (lines : list jsstring) :
  absent prefix lines = negb (existsb (λ l, startsWith l prefix) lines).
Proof.
  unfold absent. induction lines as [|l lines IH]; simpl; [reflexivity|].
  rewrite IH, negb_orb. reflexivity.
Qed.

Lemma nonblank_test (l : jsstring) :
  (0 <? length (trim l))%nat = false ↔ trim l = [].
Proof.
  destruct (trim l); simpl; split; intros H; try reflexivity; discriminate H.
Qed.

(** Where [insertHeaderIfMissing] puts its line on its first call. *)
Lemma insertHeaderIfMissing_spot (arr : list jsstring) (line : jsstring) :
  ∃ p, after_first_nonblank arr p
       ∧ inserted_at p line arr (fst (insertHeaderIfMissing (arr, false) line)).
Proof.
  unfold insertHeaderIfMissing.
  destruct (findIndex_spec (λ l, (0 <? length (trim l))%nat) arr)
    as [[-> Hall]|(i & x & -> & Hx & Hfx & Hlt)]; simpl fst.
  - exists 0%nat. split.
    + left. split; [|reflexivity].
      eapply Forall_impl; [exact Hall|]. intros l Hl. apply nonblank_test. exact Hl.
    + change (Z.to_nat 0) with (Nat.min 0 (length arr)). apply splice0_inserted_at.
  - pose proof (lookup_lt_Some _ _ _ Hx) as Hi.
    destruct (Z.eqb_spec (Z.of_nat i) (-1)); [lia|].
    exists (S i). split.
    + right. exists i, x. repeat split; [exact Hx| |].
      * intros Ht. apply nonblank_test in Ht. congruence.
      * intros j l' Hj Hl'. apply nonblank_test. apply (Hlt j l' Hj Hl').
    + replace (Z.to_nat (Z.min (Z.of_nat i + 1) (Z.of_nat (length arr))))
        with (S i) by lia.
      replace (S i) with (Nat.min (S i) (length arr)) at 1 by lia.
      apply splice0_inserted_at.
Qed.

End ListHeaderFacts.

Module ListHeaderClaims.
Import JS ListHeader JSFacts ListHeaderFacts.

Section Rewrite.
Variables (updatedAt : jsstring) (domainCount domainSuffixCount total : Z).

Local Abbreviation updateListHeader :=
  (updateListHeader updatedAt domainCount domainSuffixCount total).
Local Abbreviation updateListHeader_lines :=
  (updateListHeader_lines updatedAt domainCount domainSuffixCount total).
Local Abbreviation scan := (scan updatedAt domainCount domainSuffixCount total).

(** C2, as the code has it: a missing UPDATED line goes directly after
    the first line whose trimmed content is not empty (to index 0 when
    every line is blank); then a missing DOMAIN line goes to index 2, a
    missing DOMAIN-SUFFIX line to index 3 and a missing TOTAL line to
    index 4 of the array as it is by then, each index clamped to the
    length of that array, so that on a shorter array the line is
    appended. *)
Theorem missing_headers_inserted_at_clamped_indices (content : jsstring) :
  insertion_policy updatedAt domainCount domainSuffixCount total
    (λ k arr, Nat.min k (length arr)) content (updateListHeader content).
Proof.
  unfold insertion_policy. cbv zeta.
  set (st := scan (split_lines content)).
  exists (afterUpdated updatedAt st), (afterDomain updatedAt domainCount st),
    (afterDomainSuffix updatedAt domainCount domainSuffixCount st),
    (afterTotal updatedAt domainCount domainSuffixCount total st).
  rewrite !absent_existsb.
  pose proof (scan_spec updatedAt domainCount domainSuffixCount total
                (split_lines content)) as Hst.
  fold st in Hst.
  pose proof (f_equal out Hst) as Ho. pose proof (f_equal hasUpdated Hst) as Hu.
  pose proof (f_equal hasDomain Hst) as Hd. pose proof (f_equal hasDomainSuffix Hst) as Hs.
  pose proof (f_equal hasTotal Hst) as Ht.
  cbn [out hasUpdated hasDomain hasDomainSuffix hasTotal] in Ho, Hu, Hd, Hs, Ht.
  rewrite <- Ho, <- Hu, <- Hd, <- Hs, <- Ht.
  change (updateListHeader content)
    with (join_lines (afterTotal updatedAt domainCount domainSuffixCount total st)).
  clearbody st. clear Hst Ho Hu Hd Hs Ht.
  split; [|split; [|split; [|split; [|reflexivity]]]].
  - unfold afterUpdated.
    destruct (negb (hasUpdated st)); [apply insertHeaderIfMissing_spot|reflexivity].
  - unfold afterDomain.
    destruct (negb (hasDomain st)); [|reflexivity].
    eexists. split; [reflexivity|]. apply splice0_inserted_at.
  - unfold afterDomainSuffix.
    destruct (negb (hasDomainSuffix st)); [|reflexivity].
    eexists. split; [reflexivity|]. apply splice0_inserted_at.
  - unfold afterTotal.
    destruct (negb (hasTotal st)); [|reflexivity].
    eexists. split; [reflexivity|]. apply splice0_inserted_at.
Qed.

(** C4: the lines that begin with none of the four prefixes are, in the
    array that [updateListHeader] joins with LF, the same lines in the
    same order as in the input. *)
Theorem non_header_lines_preserved (content : jsstring) :
  updateListHeader content = join_lines (updateListHeader_lines content)
  ∧ List.filter (λ l, negb (isHeader l)) (updateListHeader_lines content)
    = List.filter (λ l, negb (isHeader l)) (split_lines content).
Proof.
  split; [reflexivity|].
  unfold ListHeader.updateListHeader_lines, afterTotal, afterDomainSuffix,
    afterDomain, afterUpdated.
  rewrite scan_spec. cbn [hasUpdated hasDomain hasDomainSuffix hasTotal out].
  repeat match goal with
         | |- context [if negb ?b then _ else _] => destruct (negb b)
         end;
    rewrite ?filter_splice0
      by (first [apply isHeader_totalLine | apply isHeader_domainSuffixLine
                | apply isHeader_domainLine]);
    try apply filter_canonical.
  all: unfold insertHeaderIfMissing; cbn [fst];
    rewrite filter_splice0 by apply isHeader_updatedLine; apply filter_canonical.
Qed.

End Rewrite.

(** C2, as stated, fails: in the one-line text [# UPDATED: x] the DOMAIN
    line is missing and the array has one line, so index 2 does not exist;
    the line is appended at index 1. *)
Lemma domain_not_at_index_2 :
  ¬ insertion_policy (lit "2026-01-01 00:00:00") 2 1 3 (λ k _, k)
      (lit "# UPDATED: x")
      (updateListHeader (lit "2026-01-01 00:00:00") 2 1 3 (lit "# UPDATED: x")).
Proof.
  intros (o1 & o2 & o3 & o4 & H1 & H2 & _).
  vm_compute in H1. subst o1.
  change (absent (lit "# DOMAIN:") (split_lines (lit "# UPDATED: x"))) with true in H2.
  destruct H2 as (p & -> & pre & post & Harr & _ & Hlen).
  apply (f_equal (@length jsstring)) in Harr. rewrite length_app, Hlen in Harr.
  simpl in Harr. lia.
Qed.

End ListHeaderClaims.

Module IdempotenceClaim.
Import JS ListHeader JSFacts ListHeaderFacts.

(** For a text none of whose lines ends in CR and a timestamp that holds
    no LF and does not end in CR, the lines of the output text are the lines
    of the array that was joined. *)
Lemma output_lines
    (updatedAt : jsstring) (domainCount domainSuffixCount total : Z)
    (content : jsstring) :
  forallb (λ l, negb (endsWith l CR)) (split_lines content) = true →
  includes updatedAt [LF] = false →
  endsWith updatedAt CR = false →
  split_lines (updateListHeader updatedAt domainCount domainSuffixCount total content)
  = updateListHeader_lines updatedAt domainCount domainSuffixCount total content.
Proof.
  intros Hlines Hlf Hcr. apply includes_unit in Hlf.
  assert (Hone : Forall (λ l, (LF ∉ l) ∧ endsWith l CR = false) (split_lines content)).
  { apply Forall_forall. intros l Hl. split.
    - pose proof (split_lines_no_LF content) as Hno. rewrite Forall_forall in Hno.
      apply Hno. exact Hl.
    - rewrite forallb_forall in Hlines. apply negb_true_iff, Hlines, list_elem_of_In, Hl. }
  unfold updateListHeader, updateListHeader_lines.
  apply split_join_lines.
  - apply afterTotal_nonempty. rewrite scan_spec. cbn [out].
    intros H. apply fmap_nil_inv in H. exact (split_lines_nonempty content H).
  - apply lines_one_line; assumption.
Qed.

(** A condition on the input that is enough: for every text none of whose
    lines (as cut by the split) ends in CR, every timestamp that holds no LF
    and does not end in CR, and all counts, the output of
    [updateListHeader] is a fixed point of [updateListHeader] with the same
    timestamp and counts. *)
Theorem header_rewrite_idempotent
    (updatedAt : jsstring) (domainCount domainSuffixCount total : Z)
    (content : jsstring) :
  forallb (λ l, negb (endsWith l CR)) (split_lines content) = true →
  includes updatedAt [LF] = false →
  endsWith updatedAt CR = false →
  updateListHeader updatedAt domainCount domainSuffixCount total
    (updateListHeader updatedAt domainCount domainSuffixCount total content)
  = updateListHeader updatedAt domainCount domainSuffixCount total content.
Proof.
  intros Hlines Hlf Hcr.
  unfold updateListHeader at 1. unfold updateListHeader_lines at 1.
  rewrite (output_lines updatedAt domainCount domainSuffixCount total content Hlines Hlf Hcr).
  unfold updateListHeader, updateListHeader_lines. f_equal.
  pose proof (headers_present updatedAt domainCount domainSuffixCount total
                (split_lines content)) as (HU & HD & HS & HT).
  apply pass_fixed; [apply lines_settled|assumption..].
Qed.

(** The theorem at a two-line list and a timestamp of the usual format. *)
Lemma header_rewrite_idempotent_witness :
  updateListHeader (lit "2026-01-01 00:00:00") 1 1 2
    (updateListHeader (lit "2026-01-01 00:00:00") 1 1 2
       (lit "DOMAIN,a.com" ++ [LF] ++ lit "DOMAIN-SUFFIX,b.org"))
  = updateListHeader (lit "2026-01-01 00:00:00") 1 1 2
      (lit "DOMAIN,a.com" ++ [LF] ++ lit "DOMAIN-SUFFIX,b.org").
Proof.
  apply header_rewrite_idempotent; reflexivity.
Defined.

(** C3, as stated, fails: the one line [DOMAIN,a.com] with a CR behind it
    gets the header lines appended; the first output then has CR LF behind
    that line, and the second pass drops the CR. *)
Lemma header_rewrite_drops_cr_on_second_pass :
  updateListHeader (lit "2026-01-01 00:00:00") 1 0 1
    (updateListHeader (lit "2026-01-01 00:00:00") 1 0 1 (lit "DOMAIN,a.com" ++ [CR]))
  ≠ updateListHeader (lit "2026-01-01 00:00:00") 1 0 1 (lit "DOMAIN,a.com" ++ [CR]).
Proof. vm_compute. discriminate. Qed.

End IdempotenceClaim.

(** ** Regular expressions: [test] decides [Matches] *)

Module RegexFacts.
Import JS Regex.

Lemma Matches_Cat (r1 r2 : regex) (s : jsstring) :
  Matches (Cat r1 r2) s ↔ ∃ s1 s2, s = s1 ++ s2 ∧ Matches r1 s1 ∧ Matches r2 s2.
Proof.
  split.
  - intros H. inversion H; subst. eauto.
  - intros (s1 & s2 & -> & H1 & H2). constructor; assumption.
Qed.

Lemma Matches_Alt (r1 r2 : regex) (s : jsstring) :
  Matches (Alt r1 r2) s ↔ Matches r1 s ∨ Matches r2 s.
Proof.
  split.
  - intros H. inversion H; subst; tauto.
  - intros [H|H]; [apply MAltL|apply MAltR]; exact H.
Qed.

Lemma Matches_Class (f : N → bool) (s : jsstring) :
  Matches (Class f) s ↔ ∃ c, s = [c] ∧ f c = true.
Proof.
  split.
  - intros H. inversion H; subst. eauto.
  - intros (c & -> & Hc). constructor. exact Hc.
Qed.

Lemma Matches_Eps (s : jsstring) : Matches Eps s ↔ s = [].
Proof.
  split; [intros H; inversion H; reflexivity|intros ->; constructor].
Qed.

Lemma nullable_correct (r : regex) : nullable r = true ↔ Matches r [].
Proof.
  induction r as [| |f|r1 IH1 r2 IH2|r1 IH1 r2 IH2|r IH]; simpl.
  - split; [discriminate|intros H; inversion H].
  - split; [constructor|reflexivity].
  - split; [discriminate|intros H; inversion H].
  - rewrite andb_true_iff, IH1, IH2, Matches_Cat. split.
    + intros [H1 H2]. exists [], []. auto.
    + intros (s1 & s2 & Hs & H1 & H2). symmetry in Hs.
      apply app_nil in Hs as [-> ->]. auto.
  - rewrite orb_true_iff, IH1, IH2, Matches_Alt. reflexivity.
  - split; [constructor|reflexivity].
Qed.

(** A non-empty word of [r*] begins with a non-empty word of [r]. *)
Lemma Matches_Star_cons (r : regex) (c : N) (s : jsstring) :
  Matches (Star r) (c :: s) →
  ∃ s1 s2, s = s1 ++ s2 ∧ Matches r (c :: s1) ∧ Matches (Star r) s2.
Proof.
  intros H. remember (Star r) as r' eqn:Hr. remember (c :: s) as w eqn:Hw.
  revert s Hw.
  induction H as [|f0 c0 Hc0|ra rb sa sb Ha IHa Hb IHb|ra rb sa Ha IHa|ra rb sa Ha IHa|ra
                  |r0 s1 s2 H1 _ H2 IH2];
    intros s' Hw; try discriminate.
  injection Hr as ->.
  destruct s1 as [|c1 s1]; simpl in Hw.
  - apply (IH2 eq_refl s' Hw).
  - injection Hw as -> <-. eauto.
Qed.

Lemma deriv_correct (r : regex) (c : N) (s : jsstring) :
  Matches (deriv c r) s ↔ Matches r (c :: s).
Proof.
  revert s.
  induction r as [| |f|r1 IH1 r2 IH2|r1 IH1 r2 IH2|r IH]; intros s; simpl.
  - split; intros H; inversion H.
  - split; intros H; inversion H.
  - rewrite Matches_Class. destruct (f c) eqn:Hf.
    + rewrite Matches_Eps. split.
      * intros ->. exists c. auto.
      * intros (c' & [= _ ->] & _). reflexivity.
    + split; [intros H; inversion H|].
      intros (c' & [= -> _] & Hc). congruence.
  - assert (Hleft : Matches (Cat (deriv c r1) r2) s
                    ↔ ∃ s1 s2, s = s1 ++ s2 ∧ Matches r1 (c :: s1) ∧ Matches r2 s2).
    { rewrite Matches_Cat. setoid_rewrite IH1. reflexivity. }
    rewrite (Matches_Cat r1 r2 (c :: s)).
    destruct (nullable r1) eqn:Hn.
    + rewrite Matches_Alt, Hleft, IH2. apply nullable_correct in Hn. split.
      * intros [(s1 & s2 & -> & H1 & H2)|H2].
        -- exists (c :: s1), s2. auto.
        -- exists [], (c :: s). auto.
      * intros (s1 & s2 & Hs & H1 & H2). destruct s1 as [|c1 s1]; simpl in Hs.
        -- subst s2. right. exact H2.
        -- injection Hs as <- ->. left. eauto.
    + rewrite Hleft. split.
      * intros (s1 & s2 & -> & H1 & H2). exists (c :: s1), s2. auto.
      * intros (s1 & s2 & Hs & H1 & H2). destruct s1 as [|c1 s1]; simpl in Hs.
        -- apply nullable_correct in H1. congruence.
        -- injection Hs as <- ->. eauto.
  - rewrite !Matches_Alt, IH1, IH2. reflexivity.
  - rewrite Matches_Cat. setoid_rewrite IH. split.
    + intros (s1 & s2 & -> & H1 & H2). apply (MStarS r (c :: s1) s2 H1 H2).
    + apply Matches_Star_cons.
Qed.

(** [test] decides the language. *)
Theorem test_correct (r : regex) (s : jsstring) : test r s = true ↔ Matches r s.
Proof.
  revert r. induction s as [|c s IH]; intros r; simpl.
  - apply nullable_correct.
  - rewrite IH. apply deriv_correct.
Qed.

Lemma Matches_Chr (c : N) (s : jsstring) : Matches (Chr c) s ↔ s = [c].
Proof.
  unfold Chr. rewrite Matches_Class. split.
  - intros (c' & -> & Hc). apply N.eqb_eq in Hc. congruence.
  - intros ->. exists c. split; [reflexivity|apply N.eqb_refl].
Qed.

Lemma Matches_Str (k s : jsstring) : Matches (Str k) s ↔ s = k.
Proof.
  revert s. induction k as [|c k IH]; intros s; simpl.
  - apply Matches_Eps.
  - rewrite Matches_Cat. setoid_rewrite Matches_Chr. setoid_rewrite IH. split.
    + intros (s1 & s2 & -> & -> & ->). reflexivity.
    + intros ->. exists [c], k. auto.
Qed.

Lemma Matches_Star_Class (f : N → bool) (s : jsstring) :
  Matches (Star (Class f)) s ↔ forallb f s = true.
Proof.
  split.
  - intros H. remember (Star (Class f)) as r eqn:Hr.
    induction H as [|f0 c0 Hc0|ra rb sa sb Ha IHa Hb IHb|ra rb sa Ha IHa|ra rb sa Ha IHa|ra
                  |r0 s1 s2 H1 _ H2 IH2];
      try discriminate; [reflexivity|].
    injection Hr as ->. apply Matches_Class in H1 as (c & -> & Hc).
    simpl. rewrite Hc. apply IH2. reflexivity.
  - induction s as [|c s IH]; simpl; [intros _; constructor|].
    intros H. apply andb_true_iff in H as [Hc Hs].
    apply (MStarS (Class f) [c] s); [constructor; exact Hc|apply IH; exact Hs].
Qed.

Lemma Matches_Plus_Class (f : N → bool) (s : jsstring) :
  Matches (Plus (Class f)) s ↔ s ≠ [] ∧ forallb f s = true.
Proof.
  unfold Plus. rewrite Matches_Cat.
  setoid_rewrite Matches_Class. setoid_rewrite Matches_Star_Class. split.
  - intros (s1 & s2 & -> & (c & -> & Hc) & Hs). split; [discriminate|].
    simpl. rewrite Hc. exact Hs.
  - intros [Hne H]. destruct s as [|c s]; [congruence|].
    simpl in H. apply andb_true_iff in H as [Hc Hs].
    exists [c], s. eauto.
Qed.

End RegexFacts.

(** ** The README *)

Module ReadmeFacts.
Import JS Regex Readme JSFacts RegexFacts.

(** The pattern of a key accepts exactly the rows of that key. *)
Lemma rowRegex_shape (key line : jsstring) :
  test (rowRegex key) line = true ↔ row_shape key line.
Proof.
  rewrite test_correct. unfold rowRegex, row_shape. split.
  - intros H.
    apply Matches_Cat in H as (p1 & r1 & -> & Hp1 & H). apply Matches_Chr in Hp1 as ->.
    apply Matches_Cat in H as (w1 & r2 & -> & Hw1 & H). apply Matches_Star_Class in Hw1.
    apply Matches_Cat in H as (k & r3 & -> & Hk & H). apply Matches_Str in Hk as ->.
    apply Matches_Cat in H as (w2 & r4 & -> & Hw2 & H). apply Matches_Star_Class in Hw2.
    apply Matches_Cat in H as (p2 & r5 & -> & Hp2 & H). apply Matches_Chr in Hp2 as ->.
    apply Matches_Cat in H as (w3 & r6 & -> & Hw3 & H). apply Matches_Star_Class in Hw3.
    apply Matches_Cat in H as (ds & r7 & -> & Hds & H).
    apply Matches_Plus_Class in Hds as [Hne Hds].
    apply Matches_Cat in H as (w4 & p3 & -> & Hw4 & Hp3). apply Matches_Star_Class in Hw4.
    apply Matches_Chr in Hp3 as ->.
    exists w1, w2, w3, ds, w4. repeat split; assumption.
  - intros (w1 & w2 & w3 & ds & w4 & -> & Hw1 & Hw2 & Hw3 & Hw4 & Hne & Hds).
    apply (MCat _ _ [PIPE]); [apply Matches_Chr; reflexivity|].
    apply MCat; [apply Matches_Star_Class; exact Hw1|].
    apply MCat; [apply Matches_Str; reflexivity|].
    apply MCat; [apply Matches_Star_Class; exact Hw2|].
    apply (MCat _ _ [PIPE]); [apply Matches_Chr; reflexivity|].
    apply MCat; [apply Matches_Star_Class; exact Hw3|].
    apply MCat; [apply Matches_Plus_Class; split; assumption|].
    apply MCat; [apply Matches_Star_Class; exact Hw4|].
    apply Matches_Chr. reflexivity.
Qed.

Lemma dropSpaces_app (w s : jsstring) :
  forallb isSpace w = true → dropSpaces (w ++ s) = dropSpaces s.
Proof.
  induction w as [|c w IH]; simpl; [reflexivity|].
  intros H. apply andb_true_iff in H as [Hc Hw]. rewrite Hc. apply IH. exact Hw.
Qed.

(** Behind the first pipe and the white space, a row has its key, white
    space and a pipe. *)
Lemma row_shape_key (c : N) (k line : jsstring) :
  isSpace c = false → row_shape (c :: k) line →
  ∃ w2 rest, forallb isSpace w2 = true
             ∧ dropSpaces (tail line) = (c :: k) ++ w2 ++ PIPE :: rest.
Proof.
  intros Hc (w1 & w2 & w3 & ds & w4 & -> & Hw1 & Hw2 & _).
  exists w2, (w3 ++ ds ++ w4 ++ [PIPE]). split; [exact Hw2|].
  cbn [tail]. rewrite (dropSpaces_app _ _ Hw1). cbn [app dropSpaces]. rewrite Hc.
  reflexivity.
Qed.

Lemma not_domain_and_suffix (line : jsstring) :
  row_shape (lit "DOMAIN") line → row_shape (lit "DOMAIN-SUFFIX") line → False.
Proof.
  intros H1 H2.
  apply (row_shape_key 68 (lit "OMAIN")) in H1 as (w & r & Hw & H1); [|reflexivity].
  apply (row_shape_key 68 (lit "OMAIN-SUFFIX")) in H2 as (w' & r' & _ & H2); [|reflexivity].
  rewrite H1 in H2. unfold_lits. cbn [app] in H2.
  destruct w as [|c w]; cbn [app] in H2; [discriminate H2|].
  injection H2 as -> _. discriminate Hw.
Qed.

Lemma not_domain_and_total (line : jsstring) :
  row_shape (lit "DOMAIN") line → row_shape (lit "TOTAL") line → False.
Proof.
  intros H1 H2.
  apply (row_shape_key 68 (lit "OMAIN")) in H1 as (w & r & Hw & H1); [|reflexivity].
  apply (row_shape_key 84 (lit "OTAL")) in H2 as (w' & r' & _ & H2); [|reflexivity].
  rewrite H1 in H2. discriminate H2.
Qed.

Lemma not_suffix_and_total (line : jsstring) :
  row_shape (lit "DOMAIN-SUFFIX") line → row_shape (lit "TOTAL") line → False.
Proof.
  intros H1 H2.
  apply (row_shape_key 68 (lit "OMAIN-SUFFIX")) in H1 as (w & r & Hw & H1); [|reflexivity].
  apply (row_shape_key 84 (lit "OTAL")) in H2 as (w' & r' & _ & H2); [|reflexivity].
  rewrite H1 in H2. discriminate H2.
Qed.

Lemma test_false (key line : jsstring) :
  ¬ row_shape key line → test (rowRegex key) line = false.
Proof.
  intros H. destruct (test (rowRegex key) line) eqn:Ht; [|reflexivity].
  apply rowRegex_shape in Ht. contradiction.
Qed.

(** *** Replacement by a text without dollar signs *)

Lemma GetSubstitution_plain (matched before after template : jsstring) :
  DOLLAR ∉ template → GetSubstitution matched before after template = template.
Proof.
  induction template as [|c t IH]; intros Hno; [reflexivity|].
  apply not_elem_of_cons in Hno as [Hc Ht]. cbn [GetSubstitution].
  destruct (N.eqb_spec c DOLLAR) as [->|_]; [congruence|].
  f_equal. apply IH. exact Ht.
Qed.

Lemma startsWith_prefix (p r : jsstring) : startsWith (p ++ r) p = true.
Proof.
  induction p as [|a p IH]; simpl; [reflexivity|].
  rewrite N.eqb_refl. exact IH.
Qed.

(** A prefix of [s ++ y] is a prefix of [s], or [s] and then a prefix of
    [y]. *)
Lemma startsWith_app_split (s y t : jsstring) :
  startsWith (s ++ y) t = true →
  startsWith s t = true ∨ ∃ rem, t = s ++ rem ∧ startsWith y rem = true.
Proof.
  revert s. induction t as [|a t IH]; intros s H; [left; reflexivity|].
  destruct s as [|b s].
  - right. exists (a :: t). split; [reflexivity|exact H].
  - cbn [app startsWith] in H |- *. apply andb_true_iff in H as [Hb H].
    rewrite Hb. cbn [andb].
    destruct (IH s H) as [Hs|(rem & -> & Hrem)]; [left; exact Hs|].
    right. exists rem. apply N.eqb_eq in Hb as ->. split; [reflexivity|exact Hrem].
Qed.

(** A token whose first unit occurs nowhere else in it does not begin inside
    a text that does not begin with it and is followed by the token. *)
Lemma no_straddle (d : N) (tok' : jsstring) (c : N) (s rest : jsstring) :
  d ∉ tok' →
  startsWith (c :: s) (d :: tok') = false →
  startsWith ((c :: s) ++ (d :: tok') ++ rest) (d :: tok') = false.
Proof.
  intros Hd Hs.
  destruct (startsWith ((c :: s) ++ (d :: tok') ++ rest) (d :: tok')) eqn:H; [|reflexivity].
  apply startsWith_app_split in H as [H|(rem & Htok & Hrem)]; [congruence|].
  destruct rem as [|r rem].
  - rewrite app_nil_r in Htok. rewrite Htok, <- (app_nil_r (c :: s)) in Hs at 1.
    rewrite startsWith_prefix in Hs. discriminate Hs.
  - cbn [app startsWith] in Hrem. apply andb_true_iff in Hrem as [Hr _].
    apply N.eqb_eq in Hr as ->. injection Htok as _ Htok.
    exfalso. apply Hd. rewrite Htok. apply elem_of_app. right. apply list_elem_of_here.
Qed.

Lemma includes_cons (c : N) (s t : jsstring) :
  includes (c :: s) t = startsWith (c :: s) t || includes s t.
Proof. reflexivity. Qed.

Lemma includes_app (pre tok post : jsstring) : includes (pre ++ tok ++ post) tok = true.
Proof.
  induction pre as [|c pre IH].
  - cbn [app]. destruct (tok ++ post) as [|c r] eqn:E.
    + destruct tok; [reflexivity|discriminate E].
    + rewrite includes_cons, <- E, startsWith_prefix. reflexivity.
  - cbn [app]. rewrite includes_cons, IH. apply orb_true_r.
Qed.

Lemma replace_from_eq (before s t template : jsstring) :
  replace_from before s t template =
    if startsWith s t then
      before ++ GetSubstitution t before (drop (length t) s) template ++ drop (length t) s
    else match s with
         | [] => before
         | c :: s' => replace_from (before ++ [c]) s' t template
         end.
Proof. destruct s; reflexivity. Qed.

(** [replace] on a text whose first occurrence of the token is behind
    [pre]. *)
Lemma replace_from_first (d : N) (tok' before pre post template : jsstring) :
  d ∉ tok' → includes pre (d :: tok') = false →
  replace_from before (pre ++ (d :: tok') ++ post) (d :: tok') template
  = before ++ pre
    ++ GetSubstitution (d :: tok') (before ++ pre) post template ++ post.
Proof.
  intros Hd. revert before. induction pre as [|c pre IH]; intros before Hpre.
  - cbn [app]. rewrite replace_from_eq.
    change (d :: tok' ++ post) with ((d :: tok') ++ post).
    rewrite startsWith_prefix, drop_app_length, app_nil_r. reflexivity.
  - rewrite includes_cons in Hpre. apply orb_false_elim in Hpre as [Hc Hpre].
    rewrite replace_from_eq, (no_straddle d tok' c pre post Hd Hc).
    cbn [app]. change (d :: tok' ++ post) with ((d :: tok') ++ post).
    rewrite (IH (before ++ [c]) Hpre), <- !app_assoc. reflexivity.
Qed.

Lemma replaceAll_skip (before w rest t template : jsstring) :
  replaceAll_from before (length w) (w ++ rest) t template
  = replaceAll_from (before ++ w) 0 rest t template.
Proof.
  revert before. induction w as [|c w IH]; intros before.
  - rewrite app_nil_r. reflexivity.
  - cbn [app length replaceAll_from]. rewrite IH, <- app_assoc. reflexivity.
Qed.

Lemma replaceAll_at_token (d : N) (tok' before rest template : jsstring) :
  replaceAll_from before 0 ((d :: tok') ++ rest) (d :: tok') template
  = GetSubstitution (d :: tok') before rest template
    ++ replaceAll_from (before ++ d :: tok') 0 rest (d :: tok') template.
Proof.
  cbn [app replaceAll_from].
  change (d :: tok' ++ rest) with ((d :: tok') ++ rest).
  rewrite startsWith_prefix, drop_app_length. f_equal.
  change (length (d :: tok') - 1)%nat with (length tok' - 0)%nat.
  rewrite Nat.sub_0_r, replaceAll_skip, <- app_assoc. reflexivity.
Qed.

Lemma replaceAll_piece (d : N) (tok' before piece rest template : jsstring) :
  d ∉ tok' → includes piece (d :: tok') = false →
  replaceAll_from before 0 (piece ++ (d :: tok') ++ rest) (d :: tok') template
  = piece ++ replaceAll_from (before ++ piece) 0 ((d :: tok') ++ rest) (d :: tok') template.
Proof.
  intros Hd. revert before. induction piece as [|c piece IH]; intros before Hp.
  - rewrite app_nil_r. reflexivity.
  - rewrite includes_cons in Hp. apply orb_false_elim in Hp as [Hc Hp].
    pose proof (no_straddle d tok' c piece rest Hd Hc) as Hno.
    cbn [app] in Hno |- *. cbn [replaceAll_from].
    change (d :: tok' ++ rest) with ((d :: tok') ++ rest) in Hno |- *.
    rewrite Hno. f_equal.
    rewrite (IH (before ++ [c]) Hp), <- app_assoc. reflexivity.
Qed.

Lemma replaceAll_last_piece (t before piece template : jsstring) :
  includes piece t = false → replaceAll_from before 0 piece t template = piece.
Proof.
  revert before. induction piece as [|c piece IH]; intros before Hp; [reflexivity|].
  rewrite includes_cons in Hp. apply orb_false_elim in Hp as [Hc Hp].
  cbn [replaceAll_from]. rewrite Hc. f_equal. apply IH. exact Hp.
Qed.

(** [replaceAll] with a replacement text without dollar signs, on pieces
    joined by a token whose first unit occurs nowhere else in it: the pieces
    joined by the replacement text. *)
Lemma replaceAll_join (d : N) (tok' template : jsstring) (pieces : list jsstring) :
  d ∉ tok' → DOLLAR ∉ template → pieces ≠ [] →
  Forall (λ p, includes p (d :: tok') = false) pieces →
  replaceAll (join (d :: tok') pieces) (d :: tok') template = join template pieces.
Proof.
  intros Hd Hplain Hne Hall. unfold replaceAll. generalize (@nil N) as before.
  induction Hall as [|p ps Hp Hps IH]; intros before; [congruence|].
  destruct ps as [|p' ps].
  - apply replaceAll_last_piece. exact Hp.
  - change (join (d :: tok') (p :: p' :: ps))
      with (p ++ (d :: tok') ++ join (d :: tok') (p' :: ps)).
    change (join template (p :: p' :: ps)) with (p ++ template ++ join template (p' :: ps)).
    rewrite (replaceAll_piece d tok' before p _ template Hd Hp), replaceAll_at_token.
    rewrite (GetSubstitution_plain _ _ _ _ Hplain), IH by discriminate. reflexivity.
Qed.

Section Rewrite.
Variables (updatedAt : jsstring) (domainCount domainSuffixCount total : Z).
Variable tempName : option jsstring.

Local Abbreviation tableMatchers := (tableMatchers domainCount domainSuffixCount total).
Local Abbreviation rewriteLine :=
  (rewriteLine updatedAt domainCount domainSuffixCount total tempName).

(** The loop over the matchers returns the row of the key whose shape the
    line has. *)
Lemma matchRow_shape (key : jsstring) (value : Z) (line : jsstring) :
  (key, value) ∈ tableMatchers → row_shape key line →
  matchRow tableMatchers line = Some (row key value).
Proof.
  intros Hin Hshape. unfold Readme.tableMatchers in *. cbn [matchRow].
  repeat (apply elem_of_cons in Hin as [Hin|Hin]);
    [injection Hin as -> ->..|apply elem_of_nil in Hin; contradiction].
  - apply rowRegex_shape in Hshape. rewrite Hshape. reflexivity.
  - rewrite (test_false (lit "DOMAIN"))
      by (intros H; exact (not_domain_and_suffix line H Hshape)).
    apply rowRegex_shape in Hshape. rewrite Hshape. reflexivity.
  - rewrite (test_false (lit "DOMAIN"))
      by (intros H; exact (not_domain_and_total line H Hshape)).
    rewrite (test_false (lit "DOMAIN-SUFFIX"))
      by (intros H; exact (not_suffix_and_total line H Hshape)).
    apply rowRegex_shape in Hshape. rewrite Hshape. reflexivity.
Qed.

Lemma matchRow_none (line : jsstring) :
  (∀ key value, (key, value) ∈ tableMatchers → ¬ row_shape key line) →
  matchRow tableMatchers line = None.
Proof.
  intros H. unfold Readme.tableMatchers in *. cbn [matchRow].
  rewrite !test_false; [reflexivity|..].
  - apply (H _ total). do 2 apply list_elem_of_further. apply list_elem_of_here.
  - apply (H _ domainSuffixCount). apply list_elem_of_further, list_elem_of_here.
  - apply (H _ domainCount). apply list_elem_of_here.
Qed.

Lemma row_not_label (key line : jsstring) :
  row_shape key line → startsWith line updatedAtPrefix = false.
Proof. intros (w1 & w2 & w3 & ds & w4 & -> & _). reflexivity. Qed.

End Rewrite.

End ReadmeFacts.

Module ReadmeClaims.
Import JS Regex Readme JSFacts RegexFacts ReadmeFacts.

(** C6: for each of the keys DOMAIN, DOMAIN-SUFFIX and TOTAL with its
    count, a line of the text that has the shape [| key | digits |] is
    replaced, at its place, by [| ], the key padded with spaces to 14 units,
    [ | ], the count in decimal padded with spaces to 5 units and [ |]; a
    DOMAIN row with count 3 becomes exactly [| DOMAIN         | 3     |]. *)
Theorem table_row_rewritten
    (updatedAt : jsstring) (domainCount domainSuffixCount total : Z)
    (tempName : option jsstring)
    (key : jsstring) (value : Z) (content : jsstring) (i : nat) (line : jsstring) :
  (key, value) ∈ [(lit "DOMAIN", domainCount);
                  (lit "DOMAIN-SUFFIX", domainSuffixCount);
                  (lit "TOTAL", total)] →
  split_lines content !! i = Some line →
  row_shape key line →
  updateReadme updatedAt domainCount domainSuffixCount total tempName content
  = join_lines
      (updateReadme_lines updatedAt domainCount domainSuffixCount total tempName content)
  ∧ updateReadme_lines updatedAt domainCount domainSuffixCount total tempName content !! i
    = Some (lit "| " ++ padEnd key 14 ++ lit " | "
            ++ padEnd (Number_toString value) 5 ++ lit " |")
  ∧ (key = lit "DOMAIN" → value = 3%Z →
     updateReadme_lines updatedAt domainCount domainSuffixCount total tempName content !! i
     = Some (lit "| DOMAIN         | 3     |")).
Proof.
  intros Hin Hline Hshape.
  assert (Hrow : updateReadme_lines updatedAt domainCount domainSuffixCount total tempName
                   content !! i
                 = Some (row key value)).
  { unfold updateReadme_lines. rewrite list_lookup_fmap, Hline. cbn [fmap option_fmap option_map].
    f_equal. unfold rewriteLine.
    rewrite (row_not_label key line Hshape).
    rewrite (matchRow_shape domainCount domainSuffixCount total key value line Hin Hshape).
    reflexivity. }
  split; [reflexivity|]. split; [exact Hrow|].
  intros -> ->. exact Hrow.
Qed.

(** The theorem at a README of two lines whose second is a DOMAIN row. *)
Lemma table_row_rewritten_witness :
  updateReadme_lines (lit "2026-01-01 00:00:00") 3 1 4 (Some (lit "Foo"))
    (lit "# Foo" ++ [LF] ++ lit "| DOMAIN | 12 |") !! 1%nat
  = Some (lit "| DOMAIN         | 3     |").
Proof.
  apply (table_row_rewritten (lit "2026-01-01 00:00:00") 3 1 4 (Some (lit "Foo"))
           (lit "DOMAIN") 3 (lit "# Foo" ++ [LF] ++ lit "| DOMAIN | 12 |") 1
           (lit "| DOMAIN | 12 |")).
  - apply list_elem_of_here.
  - reflexivity.
  - exists [SPACE], [SPACE], [SPACE], (lit "12"), [SPACE].
    repeat split; try reflexivity. discriminate.
  - reflexivity.
  - reflexivity.
Defined.

(** C8, where the code departs from it: a template name with [$$] in it
    is not put in as it is; the replacement text goes through the dollar
    patterns of [replaceAll], and [a$$b] arrives as [a$b]. *)
Theorem template_name_dollar_pattern_expanded :
  updateReadme (lit "2026-01-01 00:00:00") 1 0 1 (Some (lit "a$$b"))
    (lit "# ${{ TempName }}")
  = lit "# a$b"
  ∧ updateReadme (lit "2026-01-01 00:00:00") 1 0 1 (Some (lit "a$&b"))
      (lit "# ${{ TempName }}")
    = lit "# a${{ TempName }}b".
Proof. split; vm_compute; reflexivity. Qed.

Lemma not_in_literal (c : N) (p : jsstring) :
  forallb (λ b, negb (b =? c)%N) p = true → c ∉ p.
Proof.
  induction p as [|b p IH]; simpl; intros H; [apply not_elem_of_nil|].
  apply andb_true_iff in H as [Hb Hp]. apply not_elem_of_cons.
  split; [|apply IH; exact Hp].
  apply negb_true_iff, N.eqb_neq in Hb. congruence.
Qed.

(** C8 for values without a dollar sign: on a line that does not begin with
    the label and is no table row, the first occurrence of the datetime
    placeholder is replaced by [updatedAt]; a line without that placeholder,
    with a truthy template name, has every occurrence of the template-name
    placeholder replaced by the name; any other line is returned as it is. *)
Theorem placeholder_rules_for_plain_values
    (updatedAt : jsstring) (domainCount domainSuffixCount total : Z)
    (tempName : option jsstring) (line : jsstring) :
  DOLLAR ∉ updatedAt →
  DOLLAR ∉ toString tempName →
  startsWith line updatedAtPrefix = false →
  (∀ key value,
      (key, value) ∈ [(lit "DOMAIN", domainCount);
                      (lit "DOMAIN-SUFFIX", domainSuffixCount);
                      (lit "TOTAL", total)] →
      ¬ row_shape key line) →
  (∀ pre post,
      line = pre ++ lit "${{ datetime }}" ++ post →
      includes pre (lit "${{ datetime }}") = false →
      rewriteLine updatedAt domainCount domainSuffixCount total tempName line
      = pre ++ updatedAt ++ post)
  ∧ (∀ pieces,
      includes line (lit "${{ datetime }}") = false →
      truthy tempName = true →
      pieces ≠ [] →
      Forall (λ p, includes p (lit "${{ TempName }}") = false) pieces →
      line = join (lit "${{ TempName }}") pieces →
      rewriteLine updatedAt domainCount domainSuffixCount total tempName line
      = join (toString tempName) pieces)
  ∧ (includes line (lit "${{ datetime }}") = false →
     includes line (lit "${{ TempName }}") = false ∨ truthy tempName = false →
     rewriteLine updatedAt domainCount domainSuffixCount total tempName line = line).
Proof.
  intros Hu Hn Hlabel Hrows.
  assert (Hrule : ∀ l, l = line →
            rewriteLine updatedAt domainCount domainSuffixCount total tempName l
            = if includes l DATETIME then replace l DATETIME updatedAt
              else if includes l TEMPNAME && truthy tempName
                   then replaceAll l TEMPNAME (toString tempName) else l).
  { intros l ->. unfold rewriteLine.
    rewrite Hlabel, (matchRow_none domainCount domainSuffixCount total line Hrows).
    reflexivity. }
  assert (Hd : DOLLAR ∉ lit "{{ datetime }}") by (apply not_in_literal; reflexivity).
  assert (Ht : DOLLAR ∉ lit "{{ TempName }}") by (apply not_in_literal; reflexivity).
  split; [|split].
  - intros pre post Hline Hpre. rewrite (Hrule line eq_refl), Hline.
    unfold DATETIME. rewrite includes_app. unfold replace.
    change (lit "${{ datetime }}") with (DOLLAR :: lit "{{ datetime }}") in Hpre |- *.
    rewrite (replace_from_first DOLLAR _ [] pre post updatedAt Hd Hpre).
    rewrite (GetSubstitution_plain _ _ _ _ Hu). reflexivity.
  - intros pieces Hdate Htruthy Hne Hall Hline. rewrite (Hrule line eq_refl).
    unfold DATETIME. rewrite Hdate, Htruthy, andb_true_r.
    destruct (includes line TEMPNAME) eqn:Hinc.
    + rewrite Hline. unfold TEMPNAME.
      change (lit "${{ TempName }}") with (DOLLAR :: lit "{{ TempName }}") in Hall |- *.
      apply replaceAll_join; assumption.
    + destruct pieces as [|p [|p' ps]]; [congruence|exact Hline|].
      exfalso. unfold TEMPNAME in Hinc. rewrite Hline in Hinc.
      change (join (lit "${{ TempName }}") (p :: p' :: ps))
        with (p ++ lit "${{ TempName }}" ++ join (lit "${{ TempName }}") (p' :: ps)) in Hinc.
      rewrite includes_app in Hinc. discriminate Hinc.
  - intros Hdate Hor. rewrite (Hrule line eq_refl). unfold DATETIME, TEMPNAME.
    rewrite Hdate. destruct Hor as [-> | ->]; [reflexivity|].
    rewrite andb_false_r. reflexivity.
Qed.

(** C10: with the empty string as the template name, a line that holds
    the template-name placeholder and falls under no earlier rule (it does
    not begin with the label, is no table row and holds no datetime
    placeholder) is returned as it is. *)
Theorem empty_template_name_keeps_placeholder
    (updatedAt : jsstring) (domainCount domainSuffixCount total : Z)
    (line : jsstring) :
  startsWith line updatedAtPrefix = false →
  (∀ key value,
      (key, value) ∈ [(lit "DOMAIN", domainCount);
                      (lit "DOMAIN-SUFFIX", domainSuffixCount);
                      (lit "TOTAL", total)] →
      ¬ row_shape key line) →
  includes line (lit "${{ datetime }}") = false →
  includes line (lit "${{ TempName }}") = true →
  rewriteLine updatedAt domainCount domainSuffixCount total (Some []) line = line.
Proof.
  intros Hlabel Hrows Hdate Hname. unfold rewriteLine.
  rewrite Hlabel, (matchRow_none domainCount domainSuffixCount total line Hrows).
  unfold DATETIME, TEMPNAME. rewrite Hdate, Hname. reflexivity.
Qed.

Lemma not_row_without_pipe (key line : jsstring) :
  startsWith line [PIPE] = false → ¬ row_shape key line.
Proof.
  intros H (w1 & w2 & w3 & ds & w4 & -> & _). simpl in H. discriminate H.
Qed.

(** The theorem at the line [# ${{ TempName }}]. *)
Lemma empty_template_name_keeps_placeholder_witness :
  rewriteLine (lit "2026-01-01 00:00:00") 1 0 1 (Some []) (lit "# ${{ TempName }}")
  = lit "# ${{ TempName }}".
Proof.
  apply empty_template_name_keeps_placeholder.
  - reflexivity.
  - intros key value _. apply not_row_without_pipe. reflexivity.
  - reflexivity.
  - reflexivity.
Defined.

End ReadmeClaims.

(** ** Calls with an arbitrary value as the text *)

Module CallFacts.
Import JS Call JSFacts ListHeaderFacts.

(** A line is no longer than the text it is joined into. *)
Lemma length_join_elem (x : jsstring) (ls : list jsstring) :
  x ∈ ls → (length x ≤ length (join_lines ls))%nat.
Proof.
  induction ls as [|l ls IH]; intros H; [apply elem_of_nil in H; contradiction|].
  destruct ls as [|l' ls].
  - apply list_elem_of_singleton in H as ->. cbn. lia.
  - rewrite join_lines_cons, length_app. cbn [length].
    apply elem_of_cons in H as [->|H]; [lia|]. specialize (IH H). lia.
Qed.

Lemma mapM_normal {A B} (f : A → completion B) (g : A → B) (l : list A) :
  Forall (λ x, f x = Normal (g x)) l → mapM f l = Normal (map g l).
Proof.
  induction 1 as [|x l Hx _ IH]; [reflexivity|].
  cbn [mapM map]. rewrite Hx. cbn. rewrite IH. reflexivity.
Qed.

Lemma mapM_refines {A B} (f : A → completion B) (g : A → B) (l : list A) :
  (∀ x, f x = Throw RangeError ∨ f x = Normal (g x)) →
  mapM f l = Throw RangeError ∨ mapM f l = Normal (map g l).
Proof.
  intros Hf. induction l as [|x l IH]; [right; reflexivity|].
  cbn [mapM map]. destruct (Hf x) as [-> | ->]; [left; reflexivity|]. cbn.
  destruct IH as [-> | ->]; [left|right]; reflexivity.
Qed.

Section Limit.
Variable maxLength : N.

Local Abbreviation build := (build maxLength).

(** A string within the limit of the engine. *)
Definition fits (s : jsstring) : Prop := (N.of_nat (length s) ≤ maxLength)%N.

Lemma build_fits (s : jsstring) : fits s → build s = Normal s.
Proof.
  unfold fits, Call.build. intros H.
  destruct (N.leb_spec (N.of_nat (length s)) maxLength); [reflexivity|lia].
Qed.

Lemma build_over (s : jsstring) : ¬ fits s → build s = Throw RangeError.
Proof.
  unfold fits, Call.build. intros H.
  destruct (N.leb_spec (N.of_nat (length s)) maxLength); [contradiction|reflexivity].
Qed.

Lemma build_refines (s : jsstring) : build s = Throw RangeError ∨ build s = Normal s.
Proof. unfold Call.build. destruct (_ <=? _)%N; [right|left]; reflexivity. Qed.

Lemma fits_shorter (s t : jsstring) : (length s ≤ length t)%nat → fits t → fits s.
Proof. unfold fits. lia. Qed.

Lemma fits_join (ls : list jsstring) : fits (join_lines ls) → Forall fits ls.
Proof.
  intros H. apply Forall_forall. intros x Hx.
  exact (fits_shorter _ _ (length_join_elem x ls Hx) H).
Qed.

Section Values.
Variables (updatedAt : jsstring) (domainCount domainSuffixCount total : Z).
Variable tempName : option jsstring.

Local Abbreviation canonical :=
  (ListHeader.canonical updatedAt domainCount domainSuffixCount total).
Local Abbreviation pureScanLine :=
  (ListHeader.scanLine updatedAt domainCount domainSuffixCount total).

Lemma scanLine_fits (st : ListHeader.Scan) (line : jsstring) :
  fits (canonical line) →
  scanLine maxLength updatedAt domainCount domainSuffixCount total st line
  = Normal (pureScanLine st line).
Proof.
  destruct st as [out hU hD hS hT].
  unfold Call.scanLine, ListHeader.scanLine, ListHeader.canonical,
    ListHeader.updatedLine, ListHeader.domainLine, ListHeader.domainSuffixLine,
    ListHeader.totalLine.
  cbn [ListHeader.out ListHeader.hasUpdated ListHeader.hasDomain
       ListHeader.hasDomainSuffix ListHeader.hasTotal].
  intros H.
  repeat match goal with
         | |- context [if startsWith line ?p then _ else _] =>
             destruct (startsWith line p);
             [rewrite (build_fits _ H); reflexivity|]
         end.
  reflexivity.
Qed.

Lemma scanLine_refines (st : ListHeader.Scan) (line : jsstring) :
  scanLine maxLength updatedAt domainCount domainSuffixCount total st line
  = Throw RangeError
  ∨ scanLine maxLength updatedAt domainCount domainSuffixCount total st line
    = Normal (pureScanLine st line).
Proof.
  destruct st as [out hU hD hS hT].
  unfold Call.scanLine, ListHeader.scanLine,
    ListHeader.updatedLine, ListHeader.domainLine, ListHeader.domainSuffixLine,
    ListHeader.totalLine.
  cbn [ListHeader.out ListHeader.hasUpdated ListHeader.hasDomain
       ListHeader.hasDomainSuffix ListHeader.hasTotal].
  repeat match goal with
         | |- context [if startsWith line ?p then _ else _] =>
             destruct (startsWith line p);
             [match goal with
              | |- context [Call.build maxLength ?x] =>
                  destruct (build_refines x) as [-> | ->]; [left|right]; reflexivity
              end|]
         end.
  right. reflexivity.
Qed.

Lemma scan_fits (lines : list jsstring) (st : ListHeader.Scan) :
  Forall (λ l, fits (canonical l)) lines →
  scan maxLength updatedAt domainCount domainSuffixCount total lines st
  = Normal (fold_left pureScanLine lines st).
Proof.
  intros H. revert st. induction H as [|line lines Hl _ IH]; intros st; [reflexivity|].
  cbn [Call.scan fold_left]. rewrite (scanLine_fits st line Hl). cbn. apply IH.
Qed.

Lemma scan_refines (lines : list jsstring) (st : ListHeader.Scan) :
  scan maxLength updatedAt domainCount domainSuffixCount total lines st = Throw RangeError
  ∨ scan maxLength updatedAt domainCount domainSuffixCount total lines st
    = Normal (fold_left pureScanLine lines st).
Proof.
  revert st. induction lines as [|line lines IH]; intros st; [right; reflexivity|].
  cbn [Call.scan fold_left].
  destruct (scanLine_refines st line) as [-> | ->]; [left; reflexivity|]. cbn. apply IH.
Qed.

Lemma ifMissing_fits (has : bool) (line : jsstring)
    (insert : jsstring → list jsstring → list jsstring) (arr : list jsstring) :
  fits line →
  ifMissing maxLength has line insert arr
  = Normal (if negb has then insert line arr else arr).
Proof.
  intros H. unfold ifMissing. destruct (negb has); [|reflexivity].
  rewrite (build_fits _ H). reflexivity.
Qed.

Lemma ifMissing_refines (has : bool) (line : jsstring)
    (insert : jsstring → list jsstring → list jsstring) (arr : list jsstring) :
  ifMissing maxLength has line insert arr = Throw RangeError
  ∨ ifMissing maxLength has line insert arr
    = Normal (if negb has then insert line arr else arr).
Proof.
  unfold ifMissing. destruct (negb has); [|right; reflexivity].
  destruct (build_refines line) as [-> | ->]; [left|right]; reflexivity.
Qed.

(** The loop keeps its lines through the insertions. *)
Lemma afterTotal_keeps (st : ListHeader.Scan) (x : jsstring) :
  x ∈ ListHeader.out st →
  x ∈ ListHeader.afterTotal updatedAt domainCount domainSuffixCount total st.
Proof.
  assert (Hsp : ∀ n (y : jsstring) arr, x ∈ arr → x ∈ ListHeader.splice0 n y arr).
  { intros n y arr H.
    assert (Hperm : ListHeader.splice0 n y arr ≡ₚ y :: arr).
    { unfold ListHeader.splice0. rewrite <- Permutation_middle, take_drop. reflexivity. }
    rewrite Hperm. apply list_elem_of_further, H. }
  intros H.
  unfold ListHeader.afterTotal, ListHeader.afterDomainSuffix, ListHeader.afterDomain,
    ListHeader.afterUpdated, ListHeader.insertHeaderIfMissing.
  cbn [fst].
  destruct (negb (ListHeader.hasTotal st)), (negb (ListHeader.hasDomainSuffix st)),
    (negb (ListHeader.hasDomain st)), (negb (ListHeader.hasUpdated st)); auto.
Qed.

Lemma lines_refines (content : jsstring) :
  Call.updateListHeader_lines maxLength updatedAt domainCount domainSuffixCount total
    (VString content) = Throw RangeError
  ∨ Call.updateListHeader_lines maxLength updatedAt domainCount domainSuffixCount total
      (VString content)
    = Normal (ListHeader.updateListHeader_lines updatedAt domainCount domainSuffixCount
                total content).
Proof.
  unfold Call.updateListHeader_lines. cbn [split mbind completion_bind].
  destruct (scan_refines (split_lines content) (ListHeader.mkScan [] false false false false))
    as [-> | ->]; [left; reflexivity|].
  cbn [mbind completion_bind].
  repeat match goal with
         | |- context [ifMissing maxLength ?h ?l ?i ?a ≫= _] =>
             destruct (ifMissing_refines h l i a) as [-> | ->];
             [left; reflexivity|cbn [mbind completion_bind]]
         end.
  apply ifMissing_refines.
Qed.

Lemma lines_fits (content : jsstring) :
  Forall fits (ListHeader.updateListHeader_lines updatedAt domainCount domainSuffixCount
                 total content) →
  Call.updateListHeader_lines maxLength updatedAt domainCount domainSuffixCount total
    (VString content)
  = Normal (ListHeader.updateListHeader_lines updatedAt domainCount domainSuffixCount
              total content).
Proof.
  intros Hall. rewrite Forall_forall in Hall.
  destruct (headers_present updatedAt domainCount domainSuffixCount total
              (split_lines content)) as (HU & HD & HS & HT).
  apply Hall in HU, HD, HS, HT.
  unfold Call.updateListHeader_lines. cbn [split mbind completion_bind].
  rewrite scan_fits.
  - cbn [mbind completion_bind].
    repeat (rewrite ifMissing_fits by assumption; cbn [mbind completion_bind]).
    reflexivity.
  - apply Forall_forall. intros l Hl. apply Hall.
    unfold ListHeader.updateListHeader_lines. apply afterTotal_keeps.
    rewrite scan_spec. cbn [ListHeader.out].
    apply list_elem_of_fmap. exists l. split; [reflexivity|exact Hl].
Qed.

(** [updateListHeader] on a string returns its text when the text is within
    the limit, and throws a [RangeError] when it is not. *)
Lemma updateListHeader_spec (content : jsstring) :
  Call.updateListHeader maxLength updatedAt domainCount domainSuffixCount total
    (VString content)
  = build (ListHeader.updateListHeader updatedAt domainCount domainSuffixCount total
             content).
Proof.
  unfold Call.updateListHeader.
  destruct (N.le_gt_cases
              (N.of_nat (length (ListHeader.updateListHeader updatedAt domainCount
                                   domainSuffixCount total content))) maxLength) as [Hfit|Hover].
  - rewrite lines_fits; [reflexivity|]. apply fits_join. exact Hfit.
  - rewrite (build_over (ListHeader.updateListHeader _ _ _ _ _)) by (unfold fits; lia).
    destruct (lines_refines content) as [-> | ->]; [reflexivity|].
    cbn [mbind completion_bind]. apply build_over. unfold fits.
    unfold ListHeader.updateListHeader in Hover. lia.
Qed.

(** The rows of the README. *)
Lemma row_fits (key : jsstring) (value : Z) :
  fits (Readme.row key value) → Call.row maxLength key value = Normal (Readme.row key value).
Proof.
  unfold Call.row, Readme.row. intros H.
  assert (Hk : fits (padEnd key 14)).
  { apply (fits_shorter _ _) with (2 := H). rewrite !length_app. lia. }
  assert (Hv : fits (padEnd (Number_toString value) 5)).
  { apply (fits_shorter _ _) with (2 := H). rewrite !length_app. lia. }
  rewrite (build_fits _ Hk). cbn [mbind completion_bind].
  rewrite (build_fits _ Hv). cbn [mbind completion_bind].
  apply build_fits, H.
Qed.

Lemma row_refines (key : jsstring) (value : Z) :
  Call.row maxLength key value = Throw RangeError
  ∨ Call.row maxLength key value = Normal (Readme.row key value).
Proof.
  unfold Call.row, Readme.row.
  destruct (build_refines (padEnd key 14)) as [-> | ->]; [left; reflexivity|].
  cbn [mbind completion_bind].
  destruct (build_refines (padEnd (Number_toString value) 5)) as [-> | ->];
    [left; reflexivity|].
  cbn [mbind completion_bind]. apply build_refines.
Qed.

Lemma rowPattern_refines (key : jsstring) :
  rowPattern maxLength key = Throw RangeError
  ∨ rowPattern maxLength key = Normal (Readme.rowRegex key).
Proof.
  unfold rowPattern.
  destruct (build_refines (Readme.replace key (lit "-") (lit "\-"))) as [-> | ->];
    [left; reflexivity|].
  cbn [mbind completion_bind].
  match goal with
  | |- context [Call.build maxLength ?x] => destruct (build_refines x) as [-> | ->]
  end; [left|right]; reflexivity.
Qed.

(** The patterns of the three keys have at most 38 units. *)
Lemma rowPattern_table (key : jsstring) (value : Z) :
  (38 ≤ maxLength)%N →
  (key, value) ∈ Readme.tableMatchers domainCount domainSuffixCount total →
  rowPattern maxLength key = Normal (Readme.rowRegex key).
Proof.
  intros Hmax Hin. unfold Readme.tableMatchers in Hin.
  assert (Hsmall : ∀ x : jsstring, (N.of_nat (length x) ≤ 38)%N → build x = Normal x).
  { intros x Hx. apply build_fits. unfold fits. lia. }
  repeat (apply elem_of_cons in Hin as [Hin|Hin]);
    [injection Hin as -> _..|apply elem_of_nil in Hin; contradiction];
    unfold rowPattern;
    (rewrite Hsmall by (vm_compute; discriminate)); cbn [mbind completion_bind];
    (rewrite Hsmall by (vm_compute; discriminate)); reflexivity.
Qed.

Lemma matchRow_refines (matchers : list (jsstring * Z)) (line : jsstring) :
  Call.matchRow maxLength matchers line = Throw RangeError
  ∨ Call.matchRow maxLength matchers line = Normal (Readme.matchRow matchers line).
Proof.
  induction matchers as [|[key value] rest IH]; [right; reflexivity|].
  cbn [Call.matchRow Readme.matchRow].
  destruct (rowPattern_refines key) as [-> | ->]; [left; reflexivity|].
  cbn [mbind completion_bind].
  destruct (Regex.test (Readme.rowRegex key) line); [|exact IH].
  destruct (row_refines key value) as [-> | ->]; [left|right]; reflexivity.
Qed.

Lemma matchRow_fits (matchers : list (jsstring * Z)) (line : jsstring) :
  Forall (λ kv, rowPattern maxLength kv.1 = Normal (Readme.rowRegex kv.1)) matchers →
  (∀ r, Readme.matchRow matchers line = Some r → fits r) →
  Call.matchRow maxLength matchers line = Normal (Readme.matchRow matchers line).
Proof.
  induction 1 as [|[key value] rest Hkey _ IH]; intros Hfit; [reflexivity|].
  cbn [Call.matchRow Readme.matchRow fst] in *. rewrite Hkey.
  cbn [mbind completion_bind].
  destruct (Regex.test (Readme.rowRegex key) line); [|exact (IH Hfit)].
  rewrite (row_fits key value) by (apply Hfit; reflexivity). reflexivity.
Qed.

Local Abbreviation pureRewriteLine :=
  (Readme.rewriteLine updatedAt domainCount domainSuffixCount total tempName).

Lemma rewriteLine_refines (line : jsstring) :
  Call.rewriteLine maxLength updatedAt domainCount domainSuffixCount total tempName line
  = Throw RangeError
  ∨ Call.rewriteLine maxLength updatedAt domainCount domainSuffixCount total tempName line
    = Normal (pureRewriteLine line).
Proof.
  unfold Call.rewriteLine, Readme.rewriteLine.
  destruct (startsWith line Readme.updatedAtPrefix); [apply build_refines|].
  destruct (matchRow_refines (Readme.tableMatchers domainCount domainSuffixCount total) line)
    as [-> | ->]; [left; reflexivity|].
  cbn [mbind completion_bind].
  destruct (Readme.matchRow _ line); [right; reflexivity|].
  destruct (includes line Readme.DATETIME); [apply build_refines|].
  destruct (includes line Readme.TEMPNAME && Readme.truthy tempName);
    [apply build_refines|right; reflexivity].
Qed.

Lemma rewriteLine_fits (line : jsstring) :
  (38 ≤ maxLength)%N →
  fits (pureRewriteLine line) →
  Call.rewriteLine maxLength updatedAt domainCount domainSuffixCount total tempName line
  = Normal (pureRewriteLine line).
Proof.
  intros Hmax. unfold Call.rewriteLine, Readme.rewriteLine.
  destruct (startsWith line Readme.updatedAtPrefix); [apply build_fits|].
  intros Hfit. rewrite matchRow_fits.
  - cbn [mbind completion_bind].
    destruct (Readme.matchRow _ line); [reflexivity|].
    destruct (includes line Readme.DATETIME); [apply build_fits, Hfit|].
    destruct (includes line Readme.TEMPNAME && Readme.truthy tempName);
      [apply build_fits, Hfit|reflexivity].
  - apply Forall_forall. intros [key value] Hin. cbn [fst].
    exact (rowPattern_table key value Hmax Hin).
  - intros r Hr. rewrite Hr in Hfit. exact Hfit.
Qed.

(** [updateReadme] on a string returns its text when the text is within
    the limit, and throws a [RangeError] when it is not. *)
Lemma updateReadme_spec (content : jsstring) :
  (38 ≤ maxLength)%N →
  Call.updateReadme maxLength updatedAt domainCount domainSuffixCount total tempName
    (VString content)
  = build (Readme.updateReadme updatedAt domainCount domainSuffixCount total tempName
             content).
Proof.
  intros Hmax. unfold Call.updateReadme. cbn [split mbind completion_bind].
  destruct (N.le_gt_cases
              (N.of_nat (length (Readme.updateReadme updatedAt domainCount
                                   domainSuffixCount total tempName content))) maxLength)
    as [Hfit|Hover].
  - rewrite (mapM_normal _ pureRewriteLine); [reflexivity|].
    apply fits_join in Hfit. unfold Readme.updateReadme_lines in Hfit.
    rewrite Forall_forall in Hfit. apply Forall_forall. intros line Hline.
    apply rewriteLine_fits; [exact Hmax|]. apply Hfit.
    apply list_elem_of_fmap. exists line. split; [reflexivity|exact Hline].
  - rewrite (build_over (Readme.updateReadme _ _ _ _ _ _)) by (unfold fits; lia).
    destruct (mapM_refines _ pureRewriteLine (split_lines content) rewriteLine_refines)
      as [-> | ->]; [reflexivity|].
    cbn [mbind completion_bind]. apply build_over. unfold fits.
    unfold Readme.updateReadme, Readme.updateReadme_lines in Hover. lia.
Qed.

End Values.
End Limit.

End CallFacts.

Module CallOverflow.
Import JS Call CallFacts JSFacts ReadmeFacts.

Lemma mjoin_no_LF (ls : list jsstring) : Forall (λ l, LF ∉ l) ls → LF ∉ mjoin ls.
Proof.
  induction 1 as [|l ls Hl _ IH]; [apply not_elem_of_nil|].
  change (mjoin (l :: ls)) with (l ++ mjoin ls). apply not_elem_of_app. split; assumption.
Qed.

Lemma length_mjoin_replicate (k : nat) (s : jsstring) :
  length (mjoin (replicate k s)) = (k * length s)%nat.
Proof.
  induction k as [|k IH]; [reflexivity|].
  change (mjoin (replicate (S k) s)) with (s ++ mjoin (replicate k s)).
  rewrite length_app, IH. lia.
Qed.

Lemma unit_absent (c : N) (s : jsstring) :
  forallb (λ b, negb (b =? c)%N) s = true → c ∉ s.
Proof.
  intros H Hin. rewrite forallb_forall in H. apply list_elem_of_In, H in Hin.
  rewrite N.eqb_refl in Hin. discriminate Hin.
Qed.

(** Empty pieces joined by a separator: the separator, over and over. *)
Lemma join_empty_pieces (sep : jsstring) (k : nat) :
  join sep (replicate (S k) []) = mjoin (replicate k sep).
Proof.
  induction k as [|k IH]; [reflexivity|].
  change (join sep (replicate (S (S k)) []))
    with ([] ++ sep ++ join sep (replicate (S k) [])).
  rewrite IH. reflexivity.
Qed.

(** A line that does not begin with a pipe is no table row. *)
Lemma no_row (c : N) (line : jsstring) (matchers : list (jsstring * Z)) :
  c ≠ PIPE → Readme.matchRow matchers (c :: line) = None.
Proof.
  intros Hc. induction matchers as [|[key value] rest IH]; [reflexivity|].
  cbn [Readme.matchRow]. rewrite test_false; [exact IH|].
  intros (w1 & w2 & w3 & ds & w4 & H & _). injection H as H _. congruence.
Qed.

Lemma includes_DATETIME_token (rest : jsstring) :
  includes (Readme.TEMPNAME ++ rest) Readme.DATETIME = includes rest Readme.DATETIME.
Proof.
  unfold Readme.TEMPNAME, Readme.DATETIME. unfold_lits.
  cbn [app]. rewrite !includes_cons. cbn [startsWith N.eqb Pos.eqb andb orb].
  reflexivity.
Qed.

Lemma tokens_no_DATETIME (k : nat) :
  includes (mjoin (replicate k Readme.TEMPNAME)) Readme.DATETIME = false.
Proof.
  induction k as [|k IH]; [reflexivity|].
  change (mjoin (replicate (S k) Readme.TEMPNAME))
    with (Readme.TEMPNAME ++ mjoin (replicate k Readme.TEMPNAME)).
  rewrite includes_DATETIME_token. exact IH.
Qed.

Section Values.
Variables (updatedAt : jsstring) (domainCount domainSuffixCount total : Z).

(** A line of [k] tokens and a template name of [m] letters: every token
    is replaced by the name, and the line gets [k * m] units long. *)
Lemma tokens_replaced (k m : nat) :
  (0 < k)%nat → (0 < m)%nat →
  Readme.updateReadme updatedAt domainCount domainSuffixCount total
    (Some (replicate m 97%N)) (mjoin (replicate k Readme.TEMPNAME))
  = mjoin (replicate k (replicate m 97%N)).
Proof.
  intros Hk Hm.
  assert (Hlf : LF ∉ mjoin (replicate k Readme.TEMPNAME)).
  { apply mjoin_no_LF, Forall_replicate. apply unit_absent. reflexivity. }
  unfold Readme.updateReadme, Readme.updateReadme_lines.
  rewrite (split_lines_last _ Hlf). cbn [map join_lines join].
  unfold Readme.rewriteLine. rewrite tokens_no_DATETIME.
  destruct k as [|k]; [lia|]. destruct m as [|m]; [lia|].
  change (mjoin (replicate (S k) Readme.TEMPNAME))
    with (36%N :: lit "{{ TempName }}" ++ mjoin (replicate k Readme.TEMPNAME)) at 1 2.
  cbn [startsWith Readme.updatedAtPrefix N.eqb Pos.eqb andb].
  rewrite no_row by discriminate.
  rewrite (includes_app [] Readme.TEMPNAME (mjoin (replicate k Readme.TEMPNAME))
           : includes (mjoin (replicate (S k) Readme.TEMPNAME)) Readme.TEMPNAME = true).
  change (Readme.truthy (Some (replicate (S m) 97%N))) with true.
  cbn [andb Readme.toString].
  rewrite <- !join_empty_pieces.
  change Readme.TEMPNAME with (36%N :: lit "{{ TempName }}").
  apply replaceAll_join.
  - apply unit_absent. reflexivity.
  - intros H. apply elem_of_replicate in H as [H _]. discriminate H.
  - discriminate.
  - apply Forall_replicate. reflexivity.
Qed.

(** [$`] in the replacement text stands for the text in front of the
    match. *)
Lemma GetSubstitution_backticks (matched before after : jsstring) (m : nat) :
  Readme.GetSubstitution matched before after (mjoin (replicate m (lit "$`")))
  = mjoin (replicate m before).
Proof.
  induction m as [|m IH]; [reflexivity|].
  change (mjoin (replicate (S m) (lit "$`")))
    with (36%N :: 96%N :: mjoin (replicate m (lit "$`"))).
  change (mjoin (replicate (S m) before)) with (before ++ mjoin (replicate m before)).
  cbn [Readme.GetSubstitution]. change (36 =? DOLLAR)%N with true.
  change (96 =? DOLLAR)%N with false. change (96 =? 38)%N with false.
  change (96 =? 96)%N with true. cbv iota. rewrite IH. reflexivity.
Qed.

Lemma letters_no_token (n : nat) (tok' : jsstring) :
  includes (replicate n 97%N) (36%N :: tok') = false.
Proof.
  induction n as [|n IH]; [reflexivity|].
  change (replicate (S n) 97%N) with (97%N :: replicate n 97%N).
  rewrite includes_cons, IH. reflexivity.
Qed.

Lemma letters_token_no_DATETIME (n : nat) :
  includes (replicate n 97%N ++ Readme.TEMPNAME) Readme.DATETIME = false.
Proof.
  induction n as [|n IH]; [reflexivity|].
  change (replicate (S n) 97%N ++ Readme.TEMPNAME)
    with (97%N :: (replicate n 97%N ++ Readme.TEMPNAME)).
  rewrite includes_cons, IH. reflexivity.
Qed.

(** A line of [n] letters and the token, and a template name of [m] times
    [$`]: the token is replaced by [m] copies of the letters in front of
    it. *)
Lemma backticks_expanded (n m : nat) :
  (0 < m)%nat →
  Readme.updateReadme updatedAt domainCount domainSuffixCount total
    (Some (mjoin (replicate m (lit "$`")))) (replicate n 97%N ++ Readme.TEMPNAME)
  = replicate n 97%N ++ mjoin (replicate m (replicate n 97%N)).
Proof.
  intros Hm.
  assert (Hlf : LF ∉ replicate n 97%N ++ Readme.TEMPNAME).
  { apply not_elem_of_app. split; [|apply unit_absent; reflexivity].
    intros H. apply elem_of_replicate in H as [H _]. discriminate H. }
  unfold Readme.updateReadme, Readme.updateReadme_lines.
  rewrite (split_lines_last _ Hlf). cbn [map join_lines join].
  unfold Readme.rewriteLine. rewrite letters_token_no_DATETIME.
  assert (Hhead : ∃ c rest, c ≠ PIPE ∧ c ≠ 26368%N
                            ∧ replicate n 97%N ++ Readme.TEMPNAME = c :: rest).
  { destruct n as [|n]; eexists _, _; (split; [|split; [|reflexivity]]); discriminate. }
  destruct Hhead as (c & rest & Hpipe & Hlabel & Hline).
  assert (Hs : startsWith (replicate n 97%N ++ Readme.TEMPNAME) Readme.updatedAtPrefix
               = false).
  { rewrite Hline. cbn [startsWith Readme.updatedAtPrefix].
    destruct (N.eqb_spec c 26368) as [|_]; [congruence|reflexivity]. }
  assert (Hr : Readme.matchRow (Readme.tableMatchers domainCount domainSuffixCount total)
                 (replicate n 97%N ++ Readme.TEMPNAME) = None).
  { rewrite Hline. apply no_row. exact Hpipe. }
  assert (Hi : includes (replicate n 97%N ++ Readme.TEMPNAME) Readme.TEMPNAME = true).
  { rewrite <- (app_nil_r Readme.TEMPNAME) at 1. apply includes_app. }
  rewrite Hs, Hr, Hi. clear c rest Hpipe Hlabel Hline Hs Hr Hi.
  destruct m as [|m]; [lia|].
  change (Readme.truthy (Some (mjoin (replicate (S m) (lit "$`"))))) with true.
  cbn [andb Readme.toString]. unfold Readme.replaceAll.
  change Readme.TEMPNAME with (36%N :: lit "{{ TempName }}").
  rewrite <- (app_nil_r (36%N :: lit "{{ TempName }}")).
  rewrite replaceAll_piece
    by (first [apply unit_absent; reflexivity|apply letters_no_token]).
  rewrite replaceAll_at_token, GetSubstitution_backticks.
  cbn [app Readme.replaceAll_from]. rewrite app_nil_r. reflexivity.
Qed.

(** Beyond the limit the call throws. *)
Lemma updateReadme_throws_on_tokens (maxLength : N) (k m : nat) :
  (38 ≤ maxLength)%N → (0 < k)%nat → (0 < m)%nat →
  (maxLength < N.of_nat k * N.of_nat m)%N →
  Call.updateReadme maxLength updatedAt domainCount domainSuffixCount total
    (Some (replicate m 97%N)) (VString (mjoin (replicate k Readme.TEMPNAME)))
  = Throw RangeError.
Proof.
  intros Hmax Hk Hm Hover.
  rewrite updateReadme_spec by exact Hmax. rewrite (tokens_replaced k m Hk Hm).
  apply build_over. unfold fits.
  rewrite length_mjoin_replicate, length_replicate. lia.
Qed.

Lemma updateReadme_throws_on_backticks (maxLength : N) (n m : nat) :
  (38 ≤ maxLength)%N → (0 < m)%nat →
  (maxLength < N.of_nat n * N.of_nat m)%N →
  Call.updateReadme maxLength updatedAt domainCount domainSuffixCount total
    (Some (mjoin (replicate m (lit "$`")))) (VString (replicate n 97%N ++ Readme.TEMPNAME))
  = Throw RangeError.
Proof.
  intros Hmax Hm Hover.
  rewrite updateReadme_spec by exact Hmax. rewrite (backticks_expanded n m Hm).
  apply build_over. unfold fits.
  rewrite length_app, length_mjoin_replicate, !length_replicate. lia.
Qed.

End Values.

End CallOverflow.

Module CallClaims.
Import JS Call CallFacts CallOverflow.

(** C9, as the code has it: on every string, with any timestamp, counts
    and template name, [parseCountsFromList] returns its summary;
    [updateListHeader] and [updateReadme] return their text when that text
    is no longer than the longest string of the engine, and throw a
    [RangeError] when it is longer; nothing else is thrown.  The limit of
    the engine is taken to be 38 code units or more, the length of the
    longest pattern that [updateReadme] makes. *)
Theorem core_functions_throw_only_beyond_string_limit
    (maxLength : N) (content updatedAt : jsstring)
    (domainCount domainSuffixCount total : Z) (tempName : option jsstring) :
  (38 ≤ maxLength)%N →
  Call.parseCountsFromList (VString content)
  = Normal (Counter.parseCountsFromList content)
  ∧ Call.updateListHeader maxLength updatedAt domainCount domainSuffixCount total
      (VString content)
    = (let text := ListHeader.updateListHeader updatedAt domainCount domainSuffixCount
                     total content in
       if (N.of_nat (length text) <=? maxLength)%N then Normal text else Throw RangeError)
  ∧ Call.updateReadme maxLength updatedAt domainCount domainSuffixCount total tempName
      (VString content)
    = (let text := Readme.updateReadme updatedAt domainCount domainSuffixCount total
                     tempName content in
       if (N.of_nat (length text) <=? maxLength)%N then Normal text else Throw RangeError).
Proof.
  intros Hmax. split; [reflexivity|]. split.
  - apply updateListHeader_spec.
  - apply updateReadme_spec. exact Hmax.
Qed.

(** The theorem with a limit of 64 code units, at a README row: the
    rewritten row has 26 units and is returned, the list with its four
    header lines has more than 64 and is not. *)
Lemma core_functions_throw_only_beyond_string_limit_witness :
  (38 ≤ 64)%N
  ∧ Call.updateListHeader 64 (lit "2026-01-01 00:00:00") 1 0 1 (VString (lit "| TOTAL | 9 |"))
    = Throw RangeError
  ∧ Call.updateReadme 64 (lit "2026-01-01 00:00:00") 1 0 1 None
      (VString (lit "| TOTAL | 9 |"))
    = Normal (lit "| TOTAL          | 1     |").
Proof.
  assert (Hmax : (38 ≤ 64)%N) by discriminate.
  split; [exact Hmax|].
  destruct (core_functions_throw_only_beyond_string_limit 64 (lit "| TOTAL | 9 |")
              (lit "2026-01-01 00:00:00") 1 0 1 None Hmax) as (_ & Hheader & Hreadme).
  split.
  - rewrite Hheader. reflexivity.
  - rewrite Hreadme. reflexivity.
Defined.

(** C9, as stated, fails: a line of 32768 placeholders and a template
    name of 32768 letters are strings of 491520 and 32768 code units, and
    the line with every placeholder replaced would have 2^30 code units,
    more than the engine allows: [replaceAll] throws a [RangeError]. *)
Lemma updateReadme_throws_on_long_result :
  N.of_nat (length (mjoin (replicate (N.to_nat 32768) Readme.TEMPNAME))) = 491520%N
  ∧ N.of_nat (length (replicate (N.to_nat 32768) 97%N)) = 32768%N
  ∧ Call.updateReadme MAX_STRING_LENGTH (lit "2026-01-01 00:00:00") 1 0 1
      (Some (replicate (N.to_nat 32768) 97%N))
      (VString (mjoin (replicate (N.to_nat 32768) Readme.TEMPNAME)))
    = Throw RangeError.
Proof.
  split; [|split].
  - rewrite length_mjoin_replicate, Nat2N.inj_mul, N2Nat.id. reflexivity.
  - rewrite length_replicate, N2Nat.id. reflexivity.
  - apply updateReadme_throws_on_tokens; [discriminate|lia|lia|].
    rewrite !N2Nat.id. reflexivity.
Qed.

(** A value that is not a string makes each of them throw a [TypeError]. *)
Lemma core_functions_throw_on_other_values
    (maxLength : N) (v : value) (updatedAt : jsstring)
    (domainCount domainSuffixCount total : Z) (tempName : option jsstring) :
  (∀ s, v ≠ VString s) →
  Call.parseCountsFromList v = Throw TypeError
  ∧ Call.updateListHeader maxLength updatedAt domainCount domainSuffixCount total v
    = Throw TypeError
  ∧ Call.updateReadme maxLength updatedAt domainCount domainSuffixCount total tempName v
    = Throw TypeError.
Proof.
  intros Hv. destruct v as [| | | |s]; try (repeat split; fail).
  destruct (Hv s eq_refl).
Qed.

(** The dollar patterns of a template name make the text longer than the
    name and the line together: with [$`] 32768 times behind 32768 letters
    the engine is asked for more than 2^30 code units. *)
Lemma updateReadme_throws_on_expanded_name :
  Call.updateReadme MAX_STRING_LENGTH (lit "2026-01-01 00:00:00") 1 0 1
    (Some (mjoin (replicate (N.to_nat 32768) (lit "$`"))))
    (VString (replicate (N.to_nat 32768) 97%N ++ Readme.TEMPNAME))
  = Throw RangeError.
Proof.
  apply updateReadme_throws_on_backticks; [discriminate|lia|].
  rewrite !N2Nat.id. reflexivity.
Qed.

End CallClaims.

(** ** Scenarios of the specification, run on the model *)

Module Scenarios.
Import JS.

Example split_mixed_line_endings :
  split_lines (lit "a" ++ [CR; LF] ++ lit "b" ++ [LF; CR; CR; LF] ++ lit "c" ++ [CR])
  = [lit "a"; lit "b"; [CR]; lit "c" ++ [CR]].
Proof. reflexivity. Qed.

Example count_scenario :
  Counter.parseCountsFromList
    (lit "DOMAIN,example.com" ++ [LF] ++ lit "DOMAIN-SUFFIX,example.org" ++ [LF]
     ++ lit "# comment" ++ [LF] ++ lit "DOMAIN,foo.com" ++ [LF])
  = Counter.mkSummary {[ lit "DOMAIN" := 2%Z; lit "DOMAIN-SUFFIX" := 1%Z ]} 3.
Proof. vm_compute. reflexivity. Qed.

Example count_blank_lines :
  Counter.parseCountsFromList ([LF] ++ lit "   " ++ [LF]) = Counter.mkSummary ∅ 0.
Proof. vm_compute. reflexivity. Qed.

Example header_inserted_into_bare_list :
  ListHeader.updateListHeader_lines (lit "2026-01-01 00:00:00") 2 0 2
    (lit "DOMAIN,a.com" ++ [LF] ++ lit "DOMAIN,b.com")
  = [lit "DOMAIN,a.com"; lit "# UPDATED: 2026-01-01 00:00:00"; lit "# DOMAIN: 2";
     lit "# DOMAIN-SUFFIX: 0"; lit "# TOTAL: 2"; lit "DOMAIN,b.com"].
Proof. vm_compute. reflexivity. Qed.

Example header_inserted_behind_blank_lines :
  ListHeader.updateListHeader_lines (lit "2026-01-01 00:00:00") 2 1 3
    ([LF; LF] ++ lit "x" ++ [LF] ++ lit "# TOTAL: 9")
  = [[]; []; lit "# DOMAIN: 2"; lit "# DOMAIN-SUFFIX: 1"; lit "x";
     lit "# UPDATED: 2026-01-01 00:00:00"; lit "# TOTAL: 3"].
Proof. vm_compute. reflexivity. Qed.

Example header_of_empty_text :
  ListHeader.updateListHeader (lit "2026-01-01 00:00:00") 0 0 0 []
  = lit "# UPDATED: 2026-01-01 00:00:00" ++ [LF; LF] ++ lit "# DOMAIN: 0" ++ [LF]
    ++ lit "# DOMAIN-SUFFIX: 0" ++ [LF] ++ lit "# TOTAL: 0".
Proof. vm_compute. reflexivity. Qed.

Example readme_scenario :
  Readme.updateReadme (lit "2026-01-01 00:00:00") 3 1 4 (Some (lit "Foo"))
    (Readme.updatedAtPrefix ++ lit "never" ++ [CR; LF]
     ++ lit "|DOMAIN|12|" ++ [LF]
     ++ lit "| TOTAL | 9 | " ++ [LF]
     ++ lit "at ${{ datetime }}, ${{ datetime }}" ++ [LF]
     ++ lit "${{ TempName }}/${{ TempName }}.list")
  = Readme.updatedAtPrefix ++ lit "2026-01-01 00:00:00" ++ [LF]
    ++ lit "| DOMAIN         | 3     |" ++ [LF]
    ++ lit "| TOTAL | 9 | " ++ [LF]
    ++ lit "at 2026-01-01 00:00:00, ${{ datetime }}" ++ [LF]
    ++ lit "Foo/Foo.list".
Proof. vm_compute. reflexivity. Qed.

End Scenarios.

(** * Further properties of the code *)

From Stdlib Require DecimalPos.

(** ** More facts about trimming and splitting *)

Module TrimFacts.
Import JS JSFacts.

Lemma dropSpaces_suffix (s : jsstring) : ∃ p, s = p ++ dropSpaces s.
Proof.
  induction s as [|c s [p IH]]; [exists []; reflexivity|].
  cbn [dropSpaces]. destruct (isSpace c).
  - exists (c :: p). cbn [app]. f_equal. exact IH.
  - exists []. reflexivity.
Qed.

Lemma dropSpaces_elem (s : jsstring) (x : N) : x ∈ dropSpaces s → x ∈ s.
Proof.
  destruct (dropSpaces_suffix s) as [p Hp]. intros Hx. rewrite Hp.
  apply elem_of_app. right. exact Hx.
Qed.

(** A string that does not begin with white space loses nothing in front. *)
Lemma dropSpaces_fixed (c : N) (s : jsstring) :
  isSpace c = false → dropSpaces (c :: s) = c :: s.
Proof. intros H. cbn [dropSpaces]. rewrite H. reflexivity. Qed.

Lemma dropSpaces_snoc (s : jsstring) (c : N) :
  isSpace c = false → dropSpaces (s ++ [c]) = dropSpaces s ++ [c].
Proof.
  intros Hc. induction s as [|b s IH]; cbn [app dropSpaces]; [rewrite Hc; reflexivity|].
  destruct (isSpace b); [exact IH|reflexivity].
Qed.

Lemma dropSpaces_snoc_space (s : jsstring) (c : N) :
  isSpace c = true → dropSpaces (rev (s ++ [c])) = dropSpaces (rev s).
Proof. intros Hc. rewrite rev_app_distr. cbn [rev app dropSpaces]. rewrite Hc. reflexivity. Qed.

(** Trimming keeps a first unit that is not white space. *)
Lemma trim_keeps_head (c : N) (s : jsstring) :
  isSpace c = false → ∃ r, trim (c :: s) = c :: r.
Proof.
  intros Hc. unfold trim, trimEnd, trimStart. rewrite (dropSpaces_fixed c s Hc).
  cbn [rev]. rewrite (dropSpaces_snoc _ _ Hc), rev_app_distr. cbn [rev app].
  eexists. reflexivity.
Qed.

Lemma trim_elem (s : jsstring) (x : N) : x ∈ trim s → x ∈ s.
Proof.
  unfold trim, trimEnd, trimStart. intros Hx.
  apply list_elem_of_In, in_rev, list_elem_of_In, dropSpaces_elem in Hx.
  apply list_elem_of_In, in_rev, list_elem_of_In in Hx.
  apply dropSpaces_elem. exact Hx.
Qed.

(** What trimming returns begins with no white space. *)
Lemma trim_head (s : jsstring) (c : N) (r : jsstring) :
  trim s = c :: r → isSpace c = false.
Proof.
  unfold trim, trimEnd, trimStart. intros H.
  destruct (dropSpaces s) as [|h d] eqn:Hd; [discriminate H|].
  pose proof (dropSpaces_head s h d Hd) as Hh.
  cbn [rev] in H. rewrite (dropSpaces_snoc _ _ Hh), rev_app_distr in H.
  cbn [rev app] in H. injection H as <- _. exact Hh.
Qed.

(** What trimming returns ends with no white space. *)
Lemma trim_last (s : jsstring) (c : N) : last (trim s) = Some c → isSpace c = false.
Proof.
  unfold trim, trimEnd. intros H.
  destruct (dropSpaces (rev (trimStart s))) as [|h d] eqn:Hd; [discriminate H|].
  cbn [rev] in H. rewrite last_snoc in H. injection H as <-.
  exact (dropSpaces_head _ _ _ Hd).
Qed.

Lemma dropSpaces_idem (s : jsstring) : dropSpaces (dropSpaces s) = dropSpaces s.
Proof.
  destruct (dropSpaces s) as [|c d] eqn:Hd; [reflexivity|].
  apply dropSpaces_fixed. exact (dropSpaces_head s c d Hd).
Qed.

(** Trimming twice is trimming once. *)
Lemma trim_idem (s : jsstring) : trim (trim s) = trim s.
Proof.
  assert (Hfix : dropSpaces (trim s) = trim s).
  { destruct (trim s) as [|c r] eqn:Ht; [reflexivity|].
    apply dropSpaces_fixed. exact (trim_head s c r Ht). }
  unfold trim at 1. unfold trimStart, trimEnd at 1. rewrite Hfix.
  unfold trim, trimEnd. rewrite rev_involutive, dropSpaces_idem. reflexivity.
Qed.

(** A CR behind a string does not change what trimming returns. *)
Lemma trim_snoc_CR (s : jsstring) : trim (s ++ [CR]) = trim s.
Proof.
  unfold trim, trimEnd, trimStart.
  destruct (dropSpaces s) as [|c d] eqn:Hd.
  - apply dropSpaces_nil in Hd.
    assert (H : dropSpaces (s ++ [CR]) = []).
    { apply dropSpaces_nil. rewrite forallb_app, Hd. reflexivity. }
    rewrite H. reflexivity.
  - assert (H : dropSpaces (s ++ [CR]) = (c :: d) ++ [CR]).
    { destruct (dropSpaces_suffix s) as [p Hp]. rewrite Hd in Hp.
      pose proof (dropSpaces_head s c d Hd) as Hc.
      assert (Hall : forallb isSpace p = true).
      { clear - Hp Hd. revert p Hp. induction s as [|b s IH]; intros p Hp.
        - discriminate Hd.
        - cbn [dropSpaces] in Hd. destruct (isSpace b) eqn:Hb.
          + destruct p as [|b' p]; cbn [app] in Hp.
            * injection Hp as -> _. apply dropSpaces_head in Hd. congruence.
            * injection Hp as <- Hp. cbn [forallb]. rewrite Hb. apply (IH Hd p Hp).
          + injection Hd as <- <-. destruct p as [|b' p]; [reflexivity|].
            apply (f_equal (@length N)) in Hp. cbn [length] in Hp.
            rewrite length_app in Hp. cbn [length] in Hp. lia. }
      rewrite Hp at 1. rewrite <- app_assoc.
      clear - Hall Hc. induction p as [|b p IH]; cbn [app dropSpaces].
      - rewrite Hc. reflexivity.
      - cbn [forallb] in Hall. apply andb_true_iff in Hall as [Hb Hall].
        rewrite Hb. apply IH. exact Hall. }
    rewrite H, (dropSpaces_snoc_space (c :: d) CR eq_refl). reflexivity.
Qed.

(** [indexOf] finds the unit exactly when it is there. *)
Lemma indexOf_found (s : jsstring) (c : N) :
  indexOf s c ≠ (-1)%Z →
  ∃ pre post, s = pre ++ c :: post ∧ (c ∉ pre) ∧ indexOf s c = Z.of_nat (length pre).
Proof.
  induction s as [|b s IH]; cbn [indexOf]; [congruence|].
  destruct (N.eqb_spec b c) as [->|Hne].
  - intros _. exists [], s. split; [reflexivity|]. split; [apply not_elem_of_nil|reflexivity].
  - destruct (Z.eqb_spec (indexOf s c) (-1)) as [|Hi]; [congruence|]. intros _.
    destruct (IH Hi) as (pre & post & -> & Hpre & Hlen).
    exists (b :: pre), post. split; [reflexivity|]. split.
    + apply not_elem_of_cons. split; [congruence|exact Hpre].
    + rewrite Hlen. cbn [length]. lia.
Qed.

Lemma indexOf_snoc (s : jsstring) (c b : N) :
  b ≠ c → indexOf (s ++ [b]) c = indexOf s c.
Proof.
  intros Hne. induction s as [|a s IH]; cbn [app indexOf].
  - destruct (N.eqb_spec b c); [congruence|reflexivity].
  - rewrite IH. reflexivity.
Qed.

(** The text in front of an LF, when it holds no LF itself, is cut off as a
    line, without the CR that may stand at its end. *)
Definition chomp (l : jsstring) : jsstring :=
  match rev l with
  | c :: r => if (c =? CR)%N then rev r else l
  | [] => l
  end.

Lemma chomp_snoc_CR (l : jsstring) : chomp (l ++ [CR]) = l.
Proof. unfold chomp. rewrite rev_app_distr. cbn. apply rev_involutive. Qed.

Lemma chomp_cases (l : jsstring) : chomp l = l ∨ ∃ l', l = l' ++ [CR] ∧ chomp l = l'.
Proof.
  unfold chomp. destruct (rev l) as [|c r] eqn:Hr; [left; reflexivity|].
  destruct (N.eqb_spec c CR) as [->|_]; [|left; reflexivity].
  right. exists (rev r). split; [|reflexivity].
  apply (f_equal (@rev N)) in Hr. rewrite rev_involutive in Hr. exact Hr.
Qed.

Lemma chomp_cons (c c' : N) (l : jsstring) : chomp (c :: c' :: l) = c :: chomp (c' :: l).
Proof.
  destruct (chomp_cases (c' :: l)) as [H|(l' & Hl & H)].
  - rewrite H. unfold chomp in H |- *. cbn [rev] in H |- *.
    destruct (rev l ++ [c']) as [|x r] eqn:Hr; [destruct (rev l); discriminate Hr|].
    cbn [app]. destruct (x =? CR)%N; [|reflexivity].
    rewrite rev_app_distr. cbn [rev app]. f_equal. exact H.
  - rewrite H, Hl. change (c :: l' ++ [CR]) with ((c :: l') ++ [CR]).
    apply chomp_snoc_CR.
Qed.

Lemma split_lines_chomp (l rest : jsstring) :
  LF ∉ l → split_lines (l ++ LF :: rest) = chomp l :: split_lines rest.
Proof.
  induction l as [|c l IH]; intros Hlf; [reflexivity|].
  apply not_elem_of_cons in Hlf as [Hc Hl].
  cbn [app split_lines].
  destruct (N.eqb_spec c LF) as [->|_]; [congruence|].
  destruct l as [|c' l].
  - cbn [app]. rewrite N.eqb_refl.
    destruct (N.eqb_spec c CR) as [->|Hcr]; [reflexivity|].
    cbn [split_lines]. rewrite N.eqb_refl. unfold chomp. cbn.
    destruct (N.eqb_spec c CR); [congruence|reflexivity].
  - rewrite (IH Hl). apply not_elem_of_cons in Hl as [Hc' _].
    cbn [app]. destruct (N.eqb_spec c' LF) as [->|_]; [congruence|].
    rewrite chomp_cons. destruct (c =? CR)%N; reflexivity.
Qed.

(** Lines without LF that were joined by CR LF come back as they were. *)
Lemma split_lines_crlf (l rest : jsstring) :
  LF ∉ l → split_lines (l ++ CR :: LF :: rest) = l :: split_lines rest.
Proof.
  induction l as [|c l IH]; intros Hlf; [reflexivity|].
  apply not_elem_of_cons in Hlf as [Hc Hl].
  cbn [app split_lines].
  destruct (N.eqb_spec c LF) as [->|_]; [congruence|].
  destruct l as [|c' l].
  - cbn [app]. change (CR =? LF)%N with false. cbv iota.
    change (split_lines (CR :: LF :: rest)) with ([] :: split_lines rest).
    destruct (c =? CR)%N; reflexivity.
  - rewrite (IH Hl). apply not_elem_of_cons in Hl as [Hc' _].
    cbn [app]. destruct (N.eqb_spec c' LF) as [->|_]; [congruence|].
    destruct (c =? CR)%N; reflexivity.
Qed.

End TrimFacts.

(** ** The counter: what the summary holds and what it does not depend on *)

Module CounterMore.
Import JS Counter JSFacts CounterFacts TrimFacts.
Local Open Scope Z_scope.

Lemma countIf_le (f g : jsstring → bool) (lines : list jsstring) :
  (∀ l, f l = true → g l = true) → (countIf f lines ≤ countIf g lines)%nat.
Proof.
  intros Hfg. induction lines as [|l lines IH]; [reflexivity|].
  rewrite !countIf_cons. destruct (f l) eqn:Hf; [rewrite (Hfg l Hf)|destruct (g l)]; lia.
Qed.

Lemma countIf_pos (f : jsstring → bool) (lines : list jsstring) :
  (0 < countIf f lines)%nat → ∃ l, l ∈ lines ∧ f l = true.
Proof.
  induction lines as [|l lines IH]; [cbn; lia|].
  rewrite countIf_cons. destruct (f l) eqn:Hf.
  - intros _. exists l. split; [apply list_elem_of_here|exact Hf].
  - intros H. destruct (IH H) as (l' & Hin & Hl').
    exists l'. split; [apply list_elem_of_further; exact Hin|exact Hl'].
Qed.

Lemma countIf_Permutation (f : jsstring → bool) (l1 l2 : list jsstring) :
  l1 ≡ₚ l2 → countIf f l1 = countIf f l2.
Proof.
  induction 1 as [|x l l' _ IH|x y l|l l' l'' _ IH1 _ IH2].
  - reflexivity.
  - rewrite !countIf_cons, IH. reflexivity.
  - rewrite !countIf_cons. lia.
  - congruence.
Qed.

(** The summary is determined by how many counted lines there are of each
    kind. *)
Lemma countLines_ext (l1 l2 : list jsstring) :
  (∀ f, (∀ l, f l = true → counted l = true) → countIf f l1 = countIf f l2) →
  countLines l1 = countLines l2.
Proof.
  intros H. apply summary_eq.
  - intros c. rewrite !countLines_lookup. unfold occurrences.
    rewrite (H (λ l, counted l && bool_decide (typeOf l = c))); [reflexivity|].
    intros l Hl. apply andb_true_iff in Hl as [Hl _]. exact Hl.
  - rewrite !countLines_total, (H counted); [reflexivity|auto].
Qed.

Lemma typeOf_no_comma (line : jsstring) : COMMA ∉ typeOf line.
Proof.
  unfold typeOf. intros Hin. apply trim_elem in Hin.
  destruct (Z.eqb_spec (indexOf line COMMA) (-1)) as [Hi|Hi].
  - destruct (decide (COMMA ∈ line)) as [Hc|Hc]; [|contradiction].
    apply list_elem_of_split in Hc as (a & b & ->).
    clear Hin. revert Hi. induction a as [|x a IH]; cbn [app indexOf].
    + rewrite N.eqb_refl. discriminate.
    + destruct (x =? COMMA)%N; [discriminate|].
      destruct (Z.eqb_spec (indexOf (a ++ COMMA :: b) COMMA) (-1)); [auto|].
      pose proof (indexOf_ge (a ++ COMMA :: b) COMMA). lia.
  - destruct (indexOf_found line COMMA Hi) as (pre & post & Hl & Hpre & Hlen).
    rewrite Hlen, Hl, slice0_first in Hin. contradiction.
Qed.

(** X1: every category recorded in the summary is a non-empty, trimmed text
    without a comma, its count is at least 1 and at most [total]. *)
Theorem recorded_categories_well_formed (content c : jsstring) (v : Z) :
  typeCounts (parseCountsFromList content) !! c = Some v →
  c ≠ [] ∧ trim c = c ∧ (COMMA ∉ c)
  ∧ 1 ≤ v ≤ total (parseCountsFromList content).
Proof.
  unfold parseCountsFromList. set (lines := split_lines content).
  rewrite countLines_lookup, countLines_total. intros H.
  destruct (occurrences c lines) as [|n] eqn:Hocc; [discriminate H|].
  injection H as <-.
  assert (Hpos : (0 < occurrences c lines)%nat) by lia.
  apply countIf_pos in Hpos as (l & _ & Hl).
  apply andb_true_iff in Hl as [Hcounted Htype].
  apply bool_decide_eq_true in Htype. subst c.
  unfold counted in Hcounted. apply andb_true_iff in Hcounted as [_ Hne].
  apply negb_true_iff, bool_decide_eq_false in Hne.
  split; [exact Hne|]. split; [unfold typeOf; apply trim_idem|].
  split; [apply typeOf_no_comma|].
  assert (Hle : (occurrences (typeOf l) lines ≤ countIf counted lines)%nat).
  { apply countIf_le. intros l' Hl'. apply andb_true_iff in Hl' as [Hl' _]. exact Hl'. }
  lia.
Qed.

(** The theorem at a two-line list. *)
Lemma recorded_categories_well_formed_witness :
  lit "DOMAIN" ≠ [] ∧ trim (lit "DOMAIN") = lit "DOMAIN" ∧ (COMMA ∉ lit "DOMAIN")
  ∧ 1 ≤ 2 ≤ total (parseCountsFromList
                     (lit " DOMAIN ,a.com" ++ [LF] ++ lit "DOMAIN,b.com")).
Proof.
  apply (recorded_categories_well_formed
           (lit " DOMAIN ,a.com" ++ [LF] ++ lit "DOMAIN,b.com") (lit "DOMAIN") 2).
  vm_compute. reflexivity.
Defined.

(** X2: the counts of two different categories together never exceed
    [total]; so the DOMAIN and DOMAIN-SUFFIX counts that [processRuleDir]
    reads off the summary add up to at most the total it writes. *)
Theorem two_categories_within_total (content c1 c2 : jsstring) :
  c1 ≠ c2 →
  getOr0 (typeCounts (parseCountsFromList content)) c1
  + getOr0 (typeCounts (parseCountsFromList content)) c2
  ≤ total (parseCountsFromList content).
Proof.
  intros Hne. unfold parseCountsFromList. set (lines := split_lines content).
  rewrite !getOr0_default, !countLines_lookup, countLines_total.
  assert (H : (occurrences c1 lines + occurrences c2 lines ≤ countIf counted lines)%nat).
  { unfold occurrences. induction lines as [|l lines IH]; [reflexivity|].
    rewrite !countIf_cons.
    destruct (counted l); cbn [andb]; [|lia].
    destruct (decide (typeOf l = c1)) as [H1|H1].
    - rewrite (bool_decide_eq_true_2 _ H1), (bool_decide_eq_false_2 (typeOf l = c2)) by congruence.
      lia.
    - rewrite (bool_decide_eq_false_2 _ H1). destruct (bool_decide (typeOf l = c2)); lia. }
  destruct (occurrences c1 lines) as [|n1], (occurrences c2 lines) as [|n2];
    unfold default, id; lia.
Qed.

(** The theorem at the two categories of the header. *)
Lemma two_categories_within_total_witness :
  getOr0 (typeCounts (parseCountsFromList (lit "DOMAIN,a.com"))) (lit "DOMAIN")
  + getOr0 (typeCounts (parseCountsFromList (lit "DOMAIN,a.com"))) (lit "DOMAIN-SUFFIX")
  ≤ total (parseCountsFromList (lit "DOMAIN,a.com")).
Proof.
  apply two_categories_within_total. vm_compute. discriminate.
Defined.

(** X3: the summary does not depend on the order of the lines. *)
Theorem summary_independent_of_line_order (l1 l2 : list jsstring) :
  l1 ≡ₚ l2 → countLines l1 = countLines l2.
Proof.
  intros Hperm. apply countLines_ext. intros f _. apply countIf_Permutation. exact Hperm.
Qed.

(** The theorem at two lines swapped. *)
Lemma summary_independent_of_line_order_witness :
  countLines [lit "DOMAIN,a.com"; lit "IP-CIDR,10.0.0.0/8"]
  = countLines [lit "IP-CIDR,10.0.0.0/8"; lit "DOMAIN,a.com"].
Proof.
  apply summary_independent_of_line_order. apply Permutation_swap.
Defined.

(** One iteration sees a line and the line without the CR at its end
    alike. *)
Lemma countLine_chomp (st : CountSummary) (l : jsstring) :
  countLine st (chomp l) = countLine st l.
Proof.
  destruct (chomp_cases l) as [->|(l' & -> & ->)]; [reflexivity|].
  assert (Htype : typeOf (l' ++ [CR]) = typeOf l').
  { unfold typeOf. rewrite indexOf_snoc by discriminate.
    destruct (Z.eqb_spec (indexOf l' COMMA) (-1)) as [|Hi]; [apply trim_snoc_CR|].
    destruct (indexOf_found l' COMMA Hi) as (pre & post & -> & _ & ->).
    rewrite slice0_first, <- app_assoc, slice0_first. reflexivity. }
  assert (Hrule : ruleEntry (l' ++ [CR]) = ruleEntry l').
  { unfold ruleEntry, blank, comment. rewrite trim_snoc_CR, forallb_app.
    cbn [forallb]. change (isSpace CR) with true. rewrite !andb_true_r. reflexivity. }
  rewrite !countLine_counted. unfold counted. rewrite Htype, Hrule. reflexivity.
Qed.

Lemma countFrom_split_lf (ls : list jsstring) (st : CountSummary) :
  ls ≠ [] → Forall (λ l, LF ∉ l) ls →
  fold_left countLine (split_lines (join_lines ls)) st = fold_left countLine ls st.
Proof.
  intros Hne Hall. revert st.
  induction Hall as [|l ls Hl Hls IH]; intros st; [congruence|].
  destruct ls as [|l' ls].
  - cbn [join_lines join]. rewrite (split_lines_last l Hl). reflexivity.
  - rewrite join_lines_cons, (split_lines_chomp _ _ Hl).
    cbn [fold_left]. rewrite countLine_chomp. apply IH. discriminate.
Qed.

Lemma countFrom_split_crlf (ls : list jsstring) (st : CountSummary) :
  ls ≠ [] → Forall (λ l, LF ∉ l) ls →
  fold_left countLine (split_lines (join [CR; LF] ls)) st = fold_left countLine ls st.
Proof.
  intros Hne Hall. revert st.
  induction Hall as [|l ls Hl Hls IH]; intros st; [congruence|].
  destruct ls as [|l' ls].
  - cbn [join]. rewrite (split_lines_last l Hl). reflexivity.
  - change (join [CR; LF] (l :: l' :: ls)) with (l ++ CR :: LF :: join [CR; LF] (l' :: ls)).
    rewrite (split_lines_crlf _ _ Hl). cbn [fold_left]. apply IH. discriminate.
Qed.

Lemma no_LF_lines (ls : list jsstring) :
  forallb (λ l, negb (includes l [LF])) ls = true → Forall (λ l, LF ∉ l) ls.
Proof.
  intros H. apply Forall_forall. intros l Hl. rewrite forallb_forall in H.
  apply includes_unit, negb_true_iff, H, list_elem_of_In, Hl.
Qed.

(** X4: the summary of a text does not depend on its line endings: lines
    without LF give the same summary whether they are joined by LF or by
    CR LF, namely that of the loop over those lines. *)
Theorem summary_independent_of_line_endings (ls : list jsstring) :
  ls ≠ [] → forallb (λ l, negb (includes l [LF])) ls = true →
  parseCountsFromList (join [LF] ls) = countLines ls
  ∧ parseCountsFromList (join [CR; LF] ls) = countLines ls.
Proof.
  intros Hne Hall. apply no_LF_lines in Hall.
  unfold parseCountsFromList, countLines. split.
  - apply (countFrom_split_lf ls _ Hne Hall).
  - apply (countFrom_split_crlf ls _ Hne Hall).
Qed.

(** The theorem at three lines, one of them with a CR of its own. *)
Lemma summary_independent_of_line_endings_witness :
  parseCountsFromList
    (join [LF] [lit "DOMAIN,a.com" ++ [CR]; lit "# note"; lit "DOMAIN-SUFFIX,b.org"])
  = parseCountsFromList
      (join [CR; LF] [lit "DOMAIN,a.com" ++ [CR]; lit "# note"; lit "DOMAIN-SUFFIX,b.org"]).
Proof.
  destruct (summary_independent_of_line_endings
              [lit "DOMAIN,a.com" ++ [CR]; lit "# note"; lit "DOMAIN-SUFFIX,b.org"])
    as [H1 H2].
  - discriminate.
  - reflexivity.
  - rewrite H1, H2. reflexivity.
Defined.

End CounterMore.

(** ** The list header: what the rewritten text holds *)

Module HeaderMore.
Import JS ListHeader Counter JSFacts ListHeaderFacts CounterFacts TrimFacts CounterMore.

(** A header line is a comment, so the counter passes it over. *)
Lemma header_not_counted (l : jsstring) : isHeader l = true → counted l = false.
Proof.
  intros H. unfold counted, ruleEntry.
  assert (Hhash : ∃ r, l = HASH :: r).
  { unfold isHeader in H.
    repeat (apply orb_true_iff in H as [H|H]);
      apply startsWith_inv in H; rewrite H; unfold_lits; cbn [app]; eexists; reflexivity. }
  destruct Hhash as [r ->].
  destruct (trim_keeps_head HASH r eq_refl) as [r' Ht].
  unfold comment. rewrite Ht.
  change (startsWith (HASH :: r') (lit "#")) with true.
  destruct (blank (HASH :: r)); reflexivity.
Qed.

Lemma countIf_splice0 (f : jsstring → bool) (n : nat) (x : jsstring) (arr : list jsstring) :
  f x = false → countIf f (splice0 n x arr) = countIf f arr.
Proof.
  intros Hx. unfold splice0. rewrite countIf_app, countIf_cons, Hx. cbn [Nat.add].
  rewrite <- countIf_app, take_drop. reflexivity.
Qed.

Lemma length_splice0 {A} (n : nat) (x : A) (arr : list A) :
  length (splice0 n x arr) = S (length arr).
Proof.
  unfold splice0. rewrite length_app. cbn [length].
  rewrite length_take, length_drop. lia.
Qed.

Section Rewrite.
Variables (updatedAt : jsstring) (domainCount domainSuffixCount total : Z).

Local Abbreviation scan := (scan updatedAt domainCount domainSuffixCount total).
Local Abbreviation canonical := (canonical updatedAt domainCount domainSuffixCount total).
Local Abbreviation afterTotal := (afterTotal updatedAt domainCount domainSuffixCount total).
Local Abbreviation updateListHeader :=
  (updateListHeader updatedAt domainCount domainSuffixCount total).
Local Abbreviation updateListHeader_lines :=
  (updateListHeader_lines updatedAt domainCount domainSuffixCount total).

(** Lines that the counter passes over can be put in without changing what
    a test on counted lines finds. *)
Lemma afterTotal_countIf (f : jsstring → bool) (st : Scan) :
  (∀ l, f l = true → counted l = true) →
  countIf f (afterTotal st) = countIf f (out st).
Proof.
  intros Hf.
  assert (Hh : ∀ x, isHeader x = true → f x = false).
  { intros x Hx. destruct (f x) eqn:Hfx; [|reflexivity].
    specialize (Hf x Hfx). rewrite (header_not_counted x Hx) in Hf. discriminate Hf. }
  unfold ListHeader.afterTotal, afterDomainSuffix, afterDomain, afterUpdated,
    insertHeaderIfMissing.
  cbn [fst].
  destruct (negb (hasTotal st)), (negb (hasDomainSuffix st)),
    (negb (hasDomain st)), (negb (hasUpdated st));
    rewrite ?countIf_splice0; try reflexivity;
    first [apply Hh, isHeader_totalLine|apply Hh, isHeader_domainSuffixLine
          |apply Hh, isHeader_domainLine|apply Hh, isHeader_updatedLine].
Qed.

Lemma canonical_countIf (f : jsstring → bool) (lines : list jsstring) :
  (∀ l, f l = true → counted l = true) →
  countIf f (map canonical lines) = countIf f lines.
Proof.
  intros Hf.
  assert (Hh : ∀ x, isHeader x = true → f x = false).
  { intros x Hx. destruct (f x) eqn:Hfx; [|reflexivity].
    specialize (Hf x Hfx). rewrite (header_not_counted x Hx) in Hf. discriminate Hf. }
  induction lines as [|l lines IH]; [reflexivity|].
  cbn [map]. rewrite !countIf_cons, IH.
  destruct (isHeader l) eqn:Hl.
  - rewrite (Hh _ (canonical_header _ _ _ _ l Hl)), (Hh l Hl). reflexivity.
  - rewrite (canonical_other _ _ _ _ l Hl). reflexivity.
Qed.

Lemma canonical_no_LF (l : jsstring) :
  LF ∉ updatedAt → LF ∉ l → LF ∉ canonical l.
Proof.
  intros Hu Hl.
  assert (HN : ∀ p n, forallb (λ c, negb (c =? LF)%N) p = true → LF ∉ p ++ Number_toString n).
  { intros p n Hp. apply not_elem_of_app. split.
    - apply literal_no_LF. exact Hp.
    - apply plain_no_LF, Number_toString_plain. }
  destruct (canonical_cases updatedAt domainCount domainSuffixCount total l)
    as [H|[H|[H|[H|H]]]]; rewrite H; [|apply HN; reflexivity..|exact Hl].
  apply not_elem_of_app. split; [apply literal_no_LF; reflexivity|exact Hu].
Qed.

(** The summary of the rewritten text is the summary of the text. *)
Lemma rewrite_keeps_summary (content : jsstring) :
  LF ∉ updatedAt →
  parseCountsFromList (updateListHeader content) = parseCountsFromList content.
Proof.
  intros Hu.
  unfold parseCountsFromList at 1, ListHeader.updateListHeader, countLines.
  rewrite countFrom_split_lf.
  - apply countLines_ext. intros f Hf.
    unfold ListHeader.updateListHeader_lines.
    rewrite (afterTotal_countIf f _ Hf), scan_spec. cbn [out].
    apply canonical_countIf. exact Hf.
  - apply afterTotal_nonempty. rewrite scan_spec. cbn [out].
    intros H. apply fmap_nil_inv in H. exact (split_lines_nonempty content H).
  - unfold ListHeader.updateListHeader_lines.
    assert (HN : ∀ p n, forallb (λ c, negb (c =? LF)%N) p = true →
                 LF ∉ p ++ Number_toString n).
    { intros p n Hp. apply not_elem_of_app. split.
      - apply literal_no_LF. exact Hp.
      - apply plain_no_LF, Number_toString_plain. }
    apply afterTotal_Forall; [|apply HN; reflexivity..|].
    + apply not_elem_of_app. split; [apply literal_no_LF; reflexivity|exact Hu].
    + rewrite scan_spec. cbn [out]. apply Forall_fmap.
      eapply Forall_impl; [apply split_lines_no_LF|].
      intros l Hl. apply canonical_no_LF; assumption.
Qed.

(** X5: the rewrite of the header does not change what the counter finds:
    for every text and every timestamp without LF, the summary of the
    rewritten text is the summary of the text. *)
Theorem header_rewrite_keeps_summary (content : jsstring) :
  includes updatedAt [LF] = false →
  parseCountsFromList (updateListHeader content) = parseCountsFromList content.
Proof.
  intros Hu. apply rewrite_keeps_summary, includes_unit, Hu.
Qed.

(** X6: in the rewritten array each of the four header lines is there, and
    every line that begins with one of the four prefixes is that prefix, a
    space and the value passed in: no header line with another value is
    left. *)
Theorem header_lines_show_the_values (content l : jsstring) :
  let arr := updateListHeader_lines content in
  (lit "# UPDATED: " ++ updatedAt ∈ arr
   ∧ lit "# DOMAIN: " ++ Number_toString domainCount ∈ arr
   ∧ lit "# DOMAIN-SUFFIX: " ++ Number_toString domainSuffixCount ∈ arr
   ∧ lit "# TOTAL: " ++ Number_toString total ∈ arr)
  ∧ (l ∈ arr →
     (startsWith l (lit "# UPDATED:") = true → l = lit "# UPDATED: " ++ updatedAt)
     ∧ (startsWith l (lit "# DOMAIN:") = true →
        l = lit "# DOMAIN: " ++ Number_toString domainCount)
     ∧ (startsWith l (lit "# DOMAIN-SUFFIX:") = true →
        l = lit "# DOMAIN-SUFFIX: " ++ Number_toString domainSuffixCount)
     ∧ (startsWith l (lit "# TOTAL:") = true →
        l = lit "# TOTAL: " ++ Number_toString total)).
Proof.
  cbv zeta. split.
  - apply (headers_present updatedAt domainCount domainSuffixCount total
             (split_lines content)).
  - intros Hl.
    pose proof (lines_settled updatedAt domainCount domainSuffixCount total
                  (split_lines content)) as Hset.
    rewrite Forall_forall in Hset. specialize (Hset l Hl). cbn beta in Hset.
    repeat split; intros H; rewrite <- Hset at 1.
    + apply canonical_of_updated. exact H.
    + apply canonical_of_domain. exact H.
    + apply canonical_of_suffix. exact H.
    + apply canonical_of_total. exact H.
Qed.

(** X7: the rewritten array has one line more than the text for each of
    the four tags that no line of the text begins with. *)
Theorem one_more_line_per_missing_tag (content : jsstring) :
  let lines := split_lines content in
  let missing (prefix : jsstring) := if absent prefix lines then 1%nat else 0%nat in
  length (updateListHeader_lines content)
  = (length lines + missing (lit "# UPDATED:") + missing (lit "# DOMAIN:")
     + missing (lit "# DOMAIN-SUFFIX:") + missing (lit "# TOTAL:"))%nat.
Proof.
  cbv beta zeta. rewrite !absent_existsb.
  unfold ListHeader.updateListHeader_lines, ListHeader.afterTotal, afterDomainSuffix,
    afterDomain, afterUpdated, insertHeaderIfMissing.
  rewrite scan_spec. cbn [fst out hasUpdated hasDomain hasDomainSuffix hasTotal].
  destruct (negb (existsb _ _)), (negb (existsb _ _)), (negb (existsb _ _)),
    (negb (existsb _ _));
    rewrite ?length_splice0, length_map; lia.
Qed.

(** X8: when each of the four tags begins some line of the text, nothing
    is inserted: the rewritten array has, line for line, the canonical form
    of a header line and every other line as it was. *)
Theorem headers_rewritten_in_place (content : jsstring) (i : nat) :
  absent (lit "# UPDATED:") (split_lines content) = false →
  absent (lit "# DOMAIN:") (split_lines content) = false →
  absent (lit "# DOMAIN-SUFFIX:") (split_lines content) = false →
  absent (lit "# TOTAL:") (split_lines content) = false →
  length (updateListHeader_lines content) = length (split_lines content)
  ∧ updateListHeader_lines content !! i = canonical <$> split_lines content !! i.
Proof.
  rewrite !absent_existsb. intros HU HD HS HT.
  apply negb_false_iff in HU, HD, HS, HT.
  assert (H : updateListHeader_lines content = map canonical (split_lines content)).
  { unfold ListHeader.updateListHeader_lines, ListHeader.afterTotal, afterDomainSuffix,
      afterDomain, afterUpdated.
    rewrite scan_spec. cbn [out hasUpdated hasDomain hasDomainSuffix hasTotal].
    rewrite HU, HD, HS, HT. reflexivity. }
  rewrite H. split; [apply length_map|apply list_lookup_fmap].
Qed.

End Rewrite.

(** The theorem at a list without a header. *)
Lemma header_rewrite_keeps_summary_witness :
  parseCountsFromList
    (updateListHeader (lit "2026-01-01 00:00:00") 1 1 2
       (lit "DOMAIN,a.com" ++ [CR; LF] ++ lit "DOMAIN-SUFFIX,b.org" ++ [CR]))
  = parseCountsFromList (lit "DOMAIN,a.com" ++ [CR; LF] ++ lit "DOMAIN-SUFFIX,b.org" ++ [CR]).
Proof.
  apply header_rewrite_keeps_summary. reflexivity.
Defined.

(** The theorem at a list with an old header. *)
Lemma header_lines_show_the_values_witness :
  lit "# TOTAL: 2"
  ∈ updateListHeader_lines (lit "2026-01-01 00:00:00") 1 1 2
      (lit "# TOTAL: 7" ++ [LF] ++ lit "DOMAIN,a.com").
Proof.
  destruct (header_lines_show_the_values (lit "2026-01-01 00:00:00") 1 1 2
              (lit "# TOTAL: 7" ++ [LF] ++ lit "DOMAIN,a.com") []) as [(_ & _ & _ & H) _].
  exact H.
Defined.

(** The theorem at a list with a full header. *)
Lemma headers_rewritten_in_place_witness :
  updateListHeader_lines (lit "2026-01-01 00:00:00") 1 0 1
    (lit "# UPDATED: old" ++ [LF] ++ lit "# DOMAIN: 0" ++ [LF]
     ++ lit "# DOMAIN-SUFFIX: 0" ++ [LF] ++ lit "# TOTAL: 0" ++ [LF]
     ++ lit "DOMAIN,a.com") !! 3%nat
  = Some (lit "# TOTAL: 1").
Proof.
  destruct (headers_rewritten_in_place (lit "2026-01-01 00:00:00") 1 0 1
              (lit "# UPDATED: old" ++ [LF] ++ lit "# DOMAIN: 0" ++ [LF]
               ++ lit "# DOMAIN-SUFFIX: 0" ++ [LF] ++ lit "# TOTAL: 0" ++ [LF]
               ++ lit "DOMAIN,a.com") 3) as [_ H]; [reflexivity..|].
  rewrite H. reflexivity.
Defined.

End HeaderMore.

(** ** The timestamp *)

Module TimestampFacts.
Import JS Timestamp JSFacts.
Local Open Scope Z_scope.

(** The value of a decimal digit. *)
Definition digit (c : N) : Z := Z.of_N c - 48.

(** [s] is [n] written with two digits. *)
Definition two_digits (n : Z) (s : jsstring) : Prop :=
  ∃ a b, s = [a; b] ∧ isDigit a = true ∧ isDigit b = true
         ∧ n = 10 * digit a + digit b.

(** [s] is [n] written with four digits. *)
Definition four_digits (n : Z) (s : jsstring) : Prop :=
  ∃ a b c d, s = [a; b; c; d]
             ∧ isDigit a = true ∧ isDigit b = true ∧ isDigit c = true ∧ isDigit d = true
             ∧ n = 1000 * digit a + 100 * digit b + 10 * digit c + digit d.

Definition two_digits_check (s : jsstring) (n : Z) : bool :=
  match s with
  | [a; b] => isDigit a && isDigit b && (n =? 10 * digit a + digit b)
  | _ => false
  end.

Definition four_digits_check (s : jsstring) (n : Z) : bool :=
  match s with
  | [a; b; c; d] =>
      isDigit a && isDigit b && isDigit c && isDigit d
      && (n =? 1000 * digit a + 100 * digit b + 10 * digit c + digit d)
  | _ => false
  end.

Lemma range_check (f : Z → bool) (lo len n : Z) :
  forallb (λ k, f (lo + Z.of_nat k)) (seq 0 (Z.to_nat len)) = true →
  lo ≤ n < lo + len → f n = true.
Proof.
  intros Hall Hn. rewrite forallb_forall in Hall.
  replace n with (lo + Z.of_nat (Z.to_nat (n - lo))) by lia.
  apply Hall, in_seq. lia.
Qed.

(** [pad] writes a number from 0 to 99 with two digits. *)
Lemma pad_two_digits (n : Z) : 0 ≤ n ≤ 99 → two_digits n (pad n).
Proof.
  intros Hn.
  assert (H : two_digits_check (pad n) n = true).
  { apply (range_check (λ n, two_digits_check (pad n) n) 0 100); [|lia].
    vm_compute. reflexivity. }
  unfold two_digits_check in H.
  destruct (pad n) as [|a [|b [|c s]]]; try discriminate H.
  apply andb_true_iff in H as [H Hv]. apply andb_true_iff in H as [Ha Hb].
  apply Z.eqb_eq in Hv. exists a, b. auto.
Qed.

(** A year from 1000 to 9999 is written with four digits. *)
Lemma year_four_digits (n : Z) : 1000 ≤ n ≤ 9999 → four_digits n (Number_toString n).
Proof.
  intros Hn.
  assert (H : four_digits_check (Number_toString n) n = true).
  { apply (range_check (λ n, four_digits_check (Number_toString n) n) 1000 9000); [|lia].
    vm_compute. reflexivity. }
  unfold four_digits_check in H.
  destruct (Number_toString n) as [|a [|b [|c [|d [|e s]]]]]; try discriminate H.
  apply andb_true_iff in H as [H Hv]. apply andb_true_iff in H as [H Hd].
  apply andb_true_iff in H as [H Hc]. apply andb_true_iff in H as [Ha Hb].
  apply Z.eqb_eq in Hv. exists a, b, c, d. auto 10.
Qed.

(** The timestamp of a valid date, field by field. *)
Lemma formatDate_fields (date : Date) :
  valid date →
  ∃ y m d h mi s,
    formatDate date = y ++ lit "-" ++ m ++ lit "-" ++ d ++ lit " "
                      ++ h ++ lit ":" ++ mi ++ lit ":" ++ s
    ∧ four_digits (getFullYear date) y ∧ two_digits (getMonth date + 1) m
    ∧ two_digits (getDate date) d ∧ two_digits (getHours date) h
    ∧ two_digits (getMinutes date) mi ∧ two_digits (getSeconds date) s.
Proof.
  intros (Hy & Hm & Hd & Hh & Hmi & Hs).
  exists (Number_toString (getFullYear date)), (pad (getMonth date + 1)),
    (pad (getDate date)), (pad (getHours date)), (pad (getMinutes date)),
    (pad (getSeconds date)).
  split; [reflexivity|].
  split; [apply year_four_digits; lia|].
  repeat split; apply pad_two_digits; lia.
Qed.

Lemma digit_range (c : N) : isDigit c = true → 0 ≤ digit c ≤ 9.
Proof.
  unfold isDigit, digit. intros H. apply andb_true_iff in H as [H1 H2].
  apply N.leb_le in H1, H2. lia.
Qed.

Lemma digits_of_uint_digits (d : uint) : forallb isDigit (digits_of_uint d) = true.
Proof. induction d; cbn [digits_of_uint forallb]; try rewrite IHd; reflexivity. Qed.

(** The units of a timestamp: digits, the hyphen, the space and the colon. *)
Definition stampUnit (c : N) : bool :=
  isDigit c || (c =? 45)%N || (c =? 32)%N || (c =? 58)%N.

Lemma Number_toString_stampUnits (n : Z) : forallb stampUnit (Number_toString n) = true.
Proof.
  assert (H : ∀ d, forallb stampUnit (digits_of_uint d) = true).
  { intros d. induction d; cbn [digits_of_uint forallb]; try rewrite IHd; reflexivity. }
  destruct n; cbn [Number_toString forallb]; rewrite ?H; reflexivity.
Qed.

Lemma pad_stampUnits (n : Z) : forallb stampUnit (pad n) = true.
Proof.
  unfold pad, padStart. rewrite forallb_app, Number_toString_stampUnits, andb_true_r.
  induction (2 - length (Number_toString n))%nat as [|k IH]; [reflexivity|exact IH].
Qed.

(** Whatever the six getters return, the timestamp has no other units. *)
Lemma formatDate_stampUnits (date : Date) : forallb stampUnit (formatDate date) = true.
Proof.
  unfold formatDate. cbv zeta.
  rewrite !forallb_app, Number_toString_stampUnits, !pad_stampUnits. reflexivity.
Qed.

Lemma stampUnits_without (c : N) (s : jsstring) :
  stampUnit c = false → forallb stampUnit s = true → c ∉ s.
Proof.
  intros Hc Hs Hin. rewrite forallb_forall in Hs.
  apply list_elem_of_In, Hs in Hin. congruence.
Qed.

Lemma formatDate_no_LF (date : Date) : includes (formatDate date) [LF] = false.
Proof.
  apply includes_unit, (stampUnits_without LF); [reflexivity|apply formatDate_stampUnits].
Qed.

Lemma formatDate_no_CR_end (date : Date) : endsWith (formatDate date) CR = false.
Proof.
  unfold endsWith. destruct (last (formatDate date)) as [b|] eqn:Hl; [|reflexivity].
  apply last_Some_elem_of in Hl. apply N.eqb_neq. intros ->.
  revert Hl. apply (stampUnits_without CR); [reflexivity|apply formatDate_stampUnits].
Qed.

End TimestampFacts.

Module TimestampMore.
Import JS Timestamp JSFacts TimestampFacts.
Local Open Scope Z_scope.

(** X9: the timestamp of a valid date of the years 1000 to 9999 has 19
    units: hyphens at the indices 4 and 7, a space at 10, colons at 13 and
    16 and decimal digits everywhere else. *)
Theorem timestamp_format (date : Date) (i : nat) (c : N) :
  valid date →
  length (formatDate date) = 19%nat
  ∧ (formatDate date !! i = Some c →
     if bool_decide (i = 4 ∨ i = 7)%nat then c = 45%N
     else if bool_decide (i = 10)%nat then c = 32%N
     else if bool_decide (i = 13 ∨ i = 16)%nat then c = 58%N
     else isDigit c = true).
Proof.
  intros Hv.
  destruct (formatDate_fields date Hv)
    as (y & m & d & h & mi & s & -> & (y1 & y2 & y3 & y4 & -> & Hy1 & Hy2 & Hy3 & Hy4 & _)
        & (m1 & m2 & -> & Hm1 & Hm2 & _) & (d1 & d2 & -> & Hd1 & Hd2 & _)
        & (h1 & h2 & -> & Hh1 & Hh2 & _) & (i1 & i2 & -> & Hi1 & Hi2 & _)
        & (s1 & s2 & -> & Hs1 & Hs2 & _)).
  split; [reflexivity|].
  do 19 (destruct i as [|i]; [intros [= <-]; first [reflexivity|assumption]|]).
  discriminate.
Qed.

(** The theorem at the first second of 2026. *)
Lemma timestamp_format_witness :
  length (formatDate (mkDate 2026 0 1 0 0 0)) = 19%nat.
Proof.
  apply (timestamp_format (mkDate 2026 0 1 0 0 0) 0 50).
  unfold valid. cbn. lia.
Defined.

(** X10: two valid dates with the same timestamp agree in all six fields:
    the timestamp tells the second. *)
Theorem timestamp_tells_the_second (d1 d2 : Date) :
  valid d1 → valid d2 → formatDate d1 = formatDate d2 → d1 = d2.
Proof.
  intros Hv1 Hv2 Heq.
  destruct (formatDate_fields d1 Hv1)
    as (y & m & d & h & mi & s & E1 & (y1 & y2 & y3 & y4 & -> & _ & _ & _ & _ & Hy)
        & (m1 & m2 & -> & _ & _ & Hm) & (a1 & a2 & -> & _ & _ & Hd)
        & (h1 & h2 & -> & _ & _ & Hh) & (i1 & i2 & -> & _ & _ & Hi)
        & (s1 & s2 & -> & _ & _ & Hs)).
  destruct (formatDate_fields d2 Hv2)
    as (y' & m' & d' & h' & mi' & s' & E2 & (z1 & z2 & z3 & z4 & -> & _ & _ & _ & _ & Hy')
        & (n1 & n2 & -> & _ & _ & Hm') & (b1 & b2 & -> & _ & _ & Hd')
        & (k1 & k2 & -> & _ & _ & Hh') & (j1 & j2 & -> & _ & _ & Hi')
        & (t1 & t2 & -> & _ & _ & Hs')).
  rewrite E1, E2 in Heq. cbn [app] in Heq.
  injection Heq as -> -> -> -> -> -> -> -> -> -> -> -> -> ->.
  destruct d1, d2. cbn in *. f_equal; lia.
Qed.

(** The theorem at one date. *)
Lemma timestamp_tells_the_second_witness :
  mkDate 2026 0 1 0 0 0 = mkDate 2026 0 1 0 0 0.
Proof.
  apply timestamp_tells_the_second; [unfold valid; cbn; lia..|reflexivity].
Defined.

End TimestampMore.

(** ** The README: rows stay rows, prose stays prose *)

Module ReadmeMore.
Import JS Regex Readme JSFacts RegexFacts ReadmeFacts TimestampFacts.

Lemma digits_of_uint_nonempty (d : uint) : d ≠ Nil → digits_of_uint d ≠ [].
Proof. destruct d; [congruence|discriminate..]. Qed.

(** A count that is not negative is printed as one digit or more. *)
Lemma Number_toString_digits (n : Z) :
  (0 ≤ n)%Z → Number_toString n ≠ [] ∧ forallb isDigit (Number_toString n) = true.
Proof.
  intros Hn. destruct n as [|p|p]; [split; [discriminate|reflexivity]| |lia].
  cbn [Number_toString]. split; [|apply digits_of_uint_digits].
  apply digits_of_uint_nonempty, Stdlib.Numbers.DecimalPos.Unsigned.to_uint_nonnil.
Qed.

Lemma forallb_replicate_space (n : nat) : forallb isSpace (replicate n SPACE ++ [SPACE]) = true.
Proof. induction n as [|n IH]; [reflexivity|exact IH]. Qed.

(** The row written for a count that is not negative has the shape of a
    row. *)
Lemma row_has_row_shape (key : jsstring) (value : Z) :
  (0 ≤ value)%Z → row_shape key (row key value).
Proof.
  intros Hv. destruct (Number_toString_digits value Hv) as [Hne Hds].
  exists [SPACE], (replicate (14 - length key) SPACE ++ [SPACE]), [SPACE],
    (Number_toString value),
    (replicate (5 - length (Number_toString value)) SPACE ++ [SPACE]).
  split; [|repeat split; try apply forallb_replicate_space; assumption].
  unfold row, padEnd. unfold_lits. cbn [app]. rewrite <- !app_assoc. reflexivity.
Qed.

(** X11: a row written by [updateReadme] for a count that is not negative
    is a row again: a later run with other counts puts the new count of the
    same key in its place. *)
Theorem written_row_is_rewritten_by_next_run
    (updatedAt : jsstring) (domainCount domainSuffixCount total : Z)
    (tempName : option jsstring) (key : jsstring) (old new : Z) :
  (0 ≤ old)%Z →
  (key, new) ∈ [(lit "DOMAIN", domainCount);
                (lit "DOMAIN-SUFFIX", domainSuffixCount);
                (lit "TOTAL", total)] →
  rewriteLine updatedAt domainCount domainSuffixCount total tempName
    (lit "| " ++ padEnd key 14 ++ lit " | " ++ padEnd (Number_toString old) 5 ++ lit " |")
  = lit "| " ++ padEnd key 14 ++ lit " | " ++ padEnd (Number_toString new) 5 ++ lit " |".
Proof.
  intros Hold Hin. pose proof (row_has_row_shape key old Hold) as Hshape.
  change (lit "| " ++ padEnd key 14 ++ lit " | " ++ padEnd (Number_toString old) 5
          ++ lit " |") with (row key old).
  unfold rewriteLine.
  rewrite (row_not_label key _ Hshape).
  rewrite (matchRow_shape domainCount domainSuffixCount total key new _ Hin Hshape).
  reflexivity.
Qed.

(** The theorem at a TOTAL row. *)
Lemma written_row_is_rewritten_by_next_run_witness :
  rewriteLine (lit "2026-01-01 00:00:00") 3 1 4 None (lit "| TOTAL          | 12    |")
  = lit "| TOTAL          | 4     |".
Proof.
  apply (written_row_is_rewritten_by_next_run (lit "2026-01-01 00:00:00") 3 1 4 None
           (lit "TOTAL") 12 4).
  - discriminate.
  - do 2 apply list_elem_of_further. apply list_elem_of_here.
Defined.

Lemma includes_needs_first (s t : jsstring) (d : N) (t' : jsstring) :
  t = d :: t' → d ∉ s → includes s t = false.
Proof.
  intros -> Hd. induction s as [|c s IH]; [reflexivity|].
  apply not_elem_of_cons in Hd as [Hc Hs].
  rewrite includes_cons, (IH Hs). cbn [startsWith].
  destruct (N.eqb_spec c d); [congruence|reflexivity].
Qed.

(** X12: a line without a dollar sign that begins neither with the label
    nor with a pipe is returned as it is, whatever the timestamp, the counts
    and the template name. *)
Theorem plain_line_untouched
    (updatedAt : jsstring) (domainCount domainSuffixCount total : Z)
    (tempName : option jsstring) (line : jsstring) :
  startsWith line updatedAtPrefix = false →
  startsWith line [PIPE] = false →
  includes line [DOLLAR] = false →
  rewriteLine updatedAt domainCount domainSuffixCount total tempName line = line.
Proof.
  intros Hlabel Hpipe Hd. apply includes_unit in Hd. unfold rewriteLine. rewrite Hlabel.
  rewrite (matchRow_none domainCount domainSuffixCount total line).
  - unfold DATETIME, TEMPNAME.
    rewrite (includes_needs_first line (lit "${{ datetime }}") DOLLAR _ eq_refl Hd).
    rewrite (includes_needs_first line (lit "${{ TempName }}") DOLLAR _ eq_refl Hd).
    reflexivity.
  - intros key value _ (w1 & w2 & w3 & ds & w4 & -> & _). cbn in Hpipe. discriminate Hpipe.
Qed.

(** The theorem at a heading. *)
Lemma plain_line_untouched_witness :
  rewriteLine (lit "2026-01-01 00:00:00") 3 1 4 (Some (lit "Foo")) (lit "## Rules | all")
  = lit "## Rules | all".
Proof.
  apply plain_line_untouched; reflexivity.
Defined.

End ReadmeMore.

(** ** One rule-set directory *)

Module RuleDirFacts.
Import JS ListHeader Counter Timestamp RuleDir.
Import JSFacts ListHeaderFacts TrimFacts CounterMore HeaderMore TimestampFacts.

(** The lines of a text joined by LF, as the split gives them back: every
    line but the last without the CR that may stand at its end. *)
Fixpoint chompInit (ls : list jsstring) : list jsstring :=
  match ls with
  | [] => []
  | [l] => [l]
  | l :: ls' => chomp l :: chompInit ls'
  end.

Lemma split_join_chomp (ls : list jsstring) :
  ls ≠ [] → Forall (λ l, LF ∉ l) ls → split_lines (join_lines ls) = chompInit ls.
Proof.
  intros Hne Hall. induction Hall as [|l ls Hl Hls IH]; [congruence|].
  destruct ls as [|l' ls].
  - apply split_lines_last. exact Hl.
  - rewrite join_lines_cons, (split_lines_chomp _ _ Hl), IH by discriminate. reflexivity.
Qed.

Lemma chomp_fixed (l : jsstring) : endsWith l CR = false → chomp l = l.
Proof.
  intros H. destruct (chomp_cases l) as [Hc|(l' & -> & _)]; [exact Hc|].
  unfold endsWith in H. rewrite last_snoc, N.eqb_refl in H. discriminate H.
Qed.

Lemma chompInit_elem (x : jsstring) (ls : list jsstring) :
  endsWith x CR = false → x ∈ ls → x ∈ chompInit ls.
Proof.
  intros Hx. induction ls as [|l ls IH]; intros Hin; [exact Hin|].
  destruct ls as [|l' ls]; [exact Hin|].
  change (chompInit (l :: l' :: ls)) with (chomp l :: chompInit (l' :: ls)).
  apply elem_of_cons in Hin as [->|Hin].
  - rewrite (chomp_fixed _ Hx). apply list_elem_of_here.
  - apply list_elem_of_further, IH, Hin.
Qed.

Lemma chompInit_origin (x : jsstring) (ls : list jsstring) :
  x ∈ chompInit ls → ∃ l, l ∈ ls ∧ (l = x ∨ l = x ++ [CR]).
Proof.
  induction ls as [|l ls IH]; intros Hin; [apply elem_of_nil in Hin; contradiction|].
  destruct ls as [|l' ls].
  - exists x. split; [exact Hin|left; reflexivity].
  - change (chompInit (l :: l' :: ls)) with (chomp l :: chompInit (l' :: ls)) in Hin.
    apply elem_of_cons in Hin as [->|Hin].
    + exists l. split; [apply list_elem_of_here|].
      destruct (chomp_cases l) as [->|(l0 & -> & ->)]; [left|right]; reflexivity.
    + destruct (IH Hin) as (l0 & Hl0 & Hor).
      exists l0. split; [apply list_elem_of_further, Hl0|exact Hor].
Qed.

Lemma startsWith_snoc (s p : jsstring) (c : N) :
  startsWith s p = true → startsWith (s ++ [c]) p = true.
Proof.
  revert s. induction p as [|a p IH]; intros s H; [reflexivity|].
  destruct s as [|b s]; [discriminate H|].
  cbn [app startsWith] in H |- *. apply andb_true_iff in H as [Hb H].
  rewrite Hb. cbn [andb]. apply IH. exact H.
Qed.

Section Header.
Variables (updatedAt : jsstring) (domainCount domainSuffixCount total : Z).
Hypothesis updatedAt_no_LF : LF ∉ updatedAt.
Hypothesis updatedAt_no_CR_end : endsWith updatedAt CR = false.

Local Abbreviation updateListHeader :=
  (updateListHeader updatedAt domainCount domainSuffixCount total).
Local Abbreviation updateListHeader_lines :=
  (updateListHeader_lines updatedAt domainCount domainSuffixCount total).

Lemma header_lines_no_CR_end :
  endsWith (updatedLine updatedAt) CR = false
  ∧ endsWith (domainLine domainCount) CR = false
  ∧ endsWith (domainSuffixLine domainSuffixCount) CR = false
  ∧ endsWith (totalLine total) CR = false.
Proof.
  assert (HN : ∀ p n, forallb (λ c, negb (c =? LF)%N) p = true → endsWith p CR = false →
               endsWith (p ++ Number_toString n) CR = false).
  { intros p n Hp Hpe. apply header_one_line;
      [apply literal_no_LF; exact Hp|exact Hpe
      |apply plain_no_LF, Number_toString_plain
      |apply plain_endsWith, Number_toString_plain]. }
  repeat split; try (apply HN; reflexivity).
  apply header_one_line; [apply literal_no_LF; reflexivity|reflexivity| |]; assumption.
Qed.

Lemma output_text_lines (content : jsstring) :
  split_lines (updateListHeader content) = chompInit (updateListHeader_lines content).
Proof.
  unfold ListHeader.updateListHeader. apply split_join_chomp.
  - apply afterTotal_nonempty. rewrite scan_spec. cbn [out].
    intros H. apply fmap_nil_inv in H. exact (split_lines_nonempty content H).
  - unfold ListHeader.updateListHeader_lines.
    assert (HN : ∀ p n, forallb (λ c, negb (c =? LF)%N) p = true →
                 LF ∉ p ++ Number_toString n).
    { intros p n Hp. apply not_elem_of_app. split.
      - apply literal_no_LF. exact Hp.
      - apply plain_no_LF, Number_toString_plain. }
    apply afterTotal_Forall; [|apply HN; reflexivity..|].
    + apply not_elem_of_app. split; [apply literal_no_LF; reflexivity|assumption].
    + rewrite scan_spec. cbn [out]. apply Forall_fmap.
      eapply Forall_impl; [apply split_lines_no_LF|].
      intros l Hl. apply canonical_no_LF; assumption.
Qed.

(** The four header lines are lines of the rewritten text. *)
Lemma output_text_has_headers (content : jsstring) :
  updatedLine updatedAt ∈ split_lines (updateListHeader content)
  ∧ domainLine domainCount ∈ split_lines (updateListHeader content)
  ∧ domainSuffixLine domainSuffixCount ∈ split_lines (updateListHeader content)
  ∧ totalLine total ∈ split_lines (updateListHeader content).
Proof.
  rewrite output_text_lines.
  destruct header_lines_no_CR_end as (EU & ED & ES & ET).
  destruct (headers_present updatedAt domainCount domainSuffixCount total
              (split_lines content)) as (HU & HD & HS & HT).
  repeat split; apply chompInit_elem; assumption.
Qed.

(** A line of the rewritten text is rewritten to itself. *)
Lemma output_text_settled (content l : jsstring) :
  l ∈ split_lines (updateListHeader content) →
  isHeader l = true →
  canonical updatedAt domainCount domainSuffixCount total l = l.
Proof.
  rewrite output_text_lines. intros Hl Hh.
  destruct (chompInit_origin _ _ Hl) as (l0 & Hl0 & [-> | ->]).
  - pose proof (lines_settled updatedAt domainCount domainSuffixCount total
                  (split_lines content)) as Hset.
    rewrite Forall_forall in Hset. apply Hset. exact Hl0.
  - exfalso.
    pose proof (lines_settled updatedAt domainCount domainSuffixCount total
                  (split_lines content)) as Hset.
    rewrite Forall_forall in Hset. specialize (Hset _ Hl0). cbn beta in Hset.
    assert (Hh0 : isHeader (l ++ [CR]) = true).
    { unfold isHeader in Hh |- *.
      repeat (apply orb_true_iff in Hh as [Hh|Hh]);
        rewrite (startsWith_snoc _ _ CR Hh), ?orb_true_r; reflexivity. }
    destruct header_lines_no_CR_end as (EU & ED & ES & ET).
    assert (He : endsWith (l ++ [CR]) CR = true).
    { unfold endsWith. rewrite last_snoc. apply N.eqb_refl. }
    destruct (canonical_cases updatedAt domainCount domainSuffixCount total (l ++ [CR]))
      as [H|[H|[H|[H|H]]]]; rewrite Hset in H; try (rewrite H in He; congruence).
    unfold isHeader in Hh0.
    repeat (apply orb_true_iff in Hh0 as [Hh0|Hh0]).
    + rewrite (canonical_of_updated _ _ _ _ _ Hh0) in Hset. rewrite <- Hset in He. congruence.
    + rewrite (canonical_of_domain _ _ _ _ _ Hh0) in Hset. rewrite <- Hset in He. congruence.
    + rewrite (canonical_of_suffix _ _ _ _ _ Hh0) in Hset. rewrite <- Hset in He. congruence.
    + rewrite (canonical_of_total _ _ _ _ _ Hh0) in Hset. rewrite <- Hset in He. congruence.
Qed.

(** A second pass with the same values returns the output of the first,
    when no line of the text ends in CR. *)
Lemma second_pass_fixed (content : jsstring) :
  forallb (λ l, negb (endsWith l CR)) (split_lines content) = true →
  updateListHeader (updateListHeader content) = updateListHeader content.
Proof.
  intros Hlines.
  assert (Hone : Forall (λ l, (LF ∉ l) ∧ endsWith l CR = false) (split_lines content)).
  { apply Forall_forall. intros l Hl. split.
    - pose proof (split_lines_no_LF content) as Hno. rewrite Forall_forall in Hno.
      apply Hno. exact Hl.
    - rewrite forallb_forall in Hlines. apply negb_true_iff, Hlines, list_elem_of_In, Hl. }
  unfold ListHeader.updateListHeader at 1. unfold ListHeader.updateListHeader_lines at 1.
  assert (Hsplit : split_lines (updateListHeader content) = updateListHeader_lines content).
  { unfold ListHeader.updateListHeader. apply split_join_lines.
    - apply afterTotal_nonempty. rewrite scan_spec. cbn [out].
      intros H. apply fmap_nil_inv in H. exact (split_lines_nonempty content H).
    - apply lines_one_line; assumption. }
  rewrite Hsplit. unfold ListHeader.updateListHeader, ListHeader.updateListHeader_lines.
  f_equal.
  pose proof (headers_present updatedAt domainCount domainSuffixCount total
                (split_lines content)) as (HU & HD & HS & HT).
  apply pass_fixed; [apply lines_settled|assumption..].
Qed.

End Header.

End RuleDirFacts.

(** ** The fixed points of the header rewrite *)

Module FixedPointFacts.
Import JS ListHeader JSFacts ListHeaderFacts TrimFacts HeaderMore RuleDirFacts.

(** The number of LF units of a string. *)
Definition countLF (s : jsstring) : nat := length (List.filter (λ c, c =? LF)%N s).

Lemma countLF_app (s t : jsstring) : countLF (s ++ t) = (countLF s + countLF t)%nat.
Proof. unfold countLF. rewrite List.filter_app, length_app. reflexivity. Qed.

Lemma countLF_none (s : jsstring) : LF ∉ s → countLF s = 0%nat.
Proof.
  induction s as [|c s IH]; intros H; [reflexivity|].
  apply not_elem_of_cons in H as [Hc Hs]. unfold countLF in *. cbn [List.filter].
  destruct (N.eqb_spec c LF); [congruence|]. apply IH. exact Hs.
Qed.

Lemma countLF_some (s : jsstring) : LF ∈ s → (0 < countLF s)%nat.
Proof.
  induction s as [|c s IH]; intros H; [apply elem_of_nil in H; contradiction|].
  unfold countLF in *. cbn [List.filter].
  destruct (N.eqb_spec c LF) as [->|Hne]; [cbn [length]; lia|].
  apply elem_of_cons in H as [H|H]; [congruence|]. apply IH. exact H.
Qed.

Lemma length_push_front (c : N) (ls : list jsstring) :
  ls ≠ [] → length (push_front c ls) = length ls.
Proof. destruct ls; [congruence|reflexivity]. Qed.

(** The split gives one line more than the text has LF units. *)
Lemma length_split_lines (s : jsstring) : length (split_lines s) = S (countLF s).
Proof.
  assert (Hlen : ∀ n s, (length s < n)%nat → length (split_lines s) = S (countLF s)).
  { clear s. induction n as [|n IH]; intros s Hn; [lia|].
    destruct s as [|c s]; [reflexivity|]. cbn [length] in Hn.
    cbn [split_lines]. unfold countLF. cbn [List.filter].
    destruct (N.eqb_spec c LF) as [->|Hc].
    - cbn [length]. f_equal. apply IH. lia.
    - destruct (N.eqb_spec c CR) as [->|Hcr].
      + destruct s as [|c' s]; [reflexivity|].
        destruct (N.eqb_spec c' LF) as [->|Hc'].
        * cbn [length List.filter]. rewrite N.eqb_refl. cbn [length]. f_equal.
          apply IH. cbn [length] in Hn. lia.
        * rewrite length_push_front by apply split_lines_nonempty.
          apply IH. lia.
      + rewrite length_push_front by apply split_lines_nonempty.
        apply IH. lia. }
  apply (Hlen (S (length s))). lia.
Qed.

(** The LF units of a joined text: those of its lines and one between any
    two of them. *)
Lemma countLF_join_lines (ls : list jsstring) :
  ls ≠ [] →
  S (countLF (join_lines ls)) = (length ls + countLF (mjoin ls))%nat.
Proof.
  induction ls as [|l ls IH]; intros Hne; [congruence|].
  destruct ls as [|l' ls].
  - cbn. rewrite app_nil_r. reflexivity.
  - rewrite join_lines_cons. change (mjoin (l :: l' :: ls)) with (l ++ mjoin (l' :: ls)).
    rewrite !countLF_app. change (LF :: join_lines (l' :: ls)) with ([LF] ++ join_lines (l' :: ls)).
    rewrite countLF_app. specialize (IH ltac:(discriminate)).
    change (countLF [LF]) with 1%nat. cbn [length] in IH |- *. lia.
Qed.

Lemma countLF_mjoin_elem (x : jsstring) (ls : list jsstring) :
  x ∈ ls → (countLF x ≤ countLF (mjoin ls))%nat.
Proof.
  induction ls as [|l ls IH]; intros H; [apply elem_of_nil in H; contradiction|].
  change (mjoin (l :: ls)) with (l ++ mjoin ls). rewrite countLF_app.
  apply elem_of_cons in H as [->|H]; [lia|]. specialize (IH H). lia.
Qed.

(** Lines without LF are determined by their joined text. *)
Lemma join_lines_inj (xs ys : list jsstring) :
  xs ≠ [] → ys ≠ [] →
  Forall (λ l, LF ∉ l) xs → Forall (λ l, LF ∉ l) ys →
  join_lines xs = join_lines ys → xs = ys.
Proof.
  assert (Hcut : ∀ (l l' r r' : jsstring),
             LF ∉ l → LF ∉ l' → l ++ LF :: r = l' ++ LF :: r' → l = l' ∧ r = r').
  { induction l as [|c l IH]; intros [|c' l'] r r' Hl Hl' H; cbn [app] in H.
    - injection H as ->. split; reflexivity.
    - injection H as <- _. exfalso. apply Hl'. apply list_elem_of_here.
    - injection H as -> _. exfalso. apply Hl. apply list_elem_of_here.
    - injection H as -> H. apply not_elem_of_cons in Hl as [_ Hl].
      apply not_elem_of_cons in Hl' as [_ Hl'].
      destruct (IH l' r r' Hl Hl' H) as [-> ->]. split; reflexivity. }
  intros Hx Hy Hxs. revert ys Hy. induction Hxs as [|x xs Hxl Hxs IH]; [congruence|].
  intros ys Hy Hys Hjoin. destruct Hys as [|y ys Hyl Hys]; [congruence|].
  destruct xs as [|x' xs], ys as [|y' ys].
  - cbn in Hjoin. rewrite Hjoin. reflexivity.
  - rewrite join_lines_cons in Hjoin. cbn [join_lines join] in Hjoin.
    exfalso. apply Hxl. rewrite Hjoin. apply elem_of_app. right. apply list_elem_of_here.
  - rewrite join_lines_cons in Hjoin. cbn [join_lines join] in Hjoin.
    exfalso. apply Hyl. rewrite <- Hjoin. apply elem_of_app. right. apply list_elem_of_here.
  - rewrite !join_lines_cons in Hjoin.
    destruct (Hcut _ _ _ _ Hxl Hyl Hjoin) as [-> Hrest].
    f_equal. apply IH; [discriminate|discriminate|exact Hys|exact Hrest].
Qed.


Lemma chomp_no_LF (l : jsstring) : LF ∉ l → LF ∉ chomp l.
Proof.
  intros H. destruct (chomp_cases l) as [->|(l' & -> & ->)]; [exact H|].
  apply not_elem_of_app in H as [H _]. exact H.
Qed.

Lemma chompInit_no_LF (ls : list jsstring) :
  Forall (λ l, LF ∉ l) ls → Forall (λ l, LF ∉ l) (chompInit ls).
Proof.
  induction 1 as [|l ls Hl Hls IH]; [constructor|].
  destruct ls as [|l' ls]; [constructor; [exact Hl|constructor]|].
  change (chompInit (l :: l' :: ls)) with (chomp l :: chompInit (l' :: ls)).
  constructor; [apply chomp_no_LF, Hl|exact IH].
Qed.

Lemma chompInit_nonempty (ls : list jsstring) : ls ≠ [] → chompInit ls ≠ [].
Proof. destruct ls as [|l [|l' ls]]; [congruence|discriminate..]. Qed.

(** A line of the array is a line of the text, with or without the CR at
    its end. *)
Lemma chompInit_has (x : jsstring) (ls : list jsstring) :
  x ∈ ls → x ∈ chompInit ls ∨ chomp x ∈ chompInit ls.
Proof.
  induction ls as [|l ls IH]; intros Hin; [apply elem_of_nil in Hin; contradiction|].
  destruct ls as [|l' ls]; [left; exact Hin|].
  change (chompInit (l :: l' :: ls)) with (chomp l :: chompInit (l' :: ls)).
  apply elem_of_cons in Hin as [->|Hin].
  - right. apply list_elem_of_here.
  - destruct (IH Hin) as [H|H]; [left|right]; apply list_elem_of_further, H.
Qed.

Lemma endsWith_snoc (l : jsstring) (c : N) : endsWith (l ++ [c]) c = true.
Proof. unfold endsWith. rewrite last_snoc. apply N.eqb_refl. Qed.

Lemma chomp_ends (l : jsstring) : endsWith l CR = true → l = chomp l ++ [CR].
Proof.
  destruct l as [|c l _] using rev_ind; [discriminate|].
  unfold endsWith. rewrite last_snoc. intros H. apply N.eqb_eq in H as ->.
  rewrite chomp_snoc_CR. reflexivity.
Qed.

Section Rewrite.
Variables (updatedAt : jsstring) (domainCount domainSuffixCount total : Z).

Local Abbreviation scan := (scan updatedAt domainCount domainSuffixCount total).
Local Abbreviation canonical := (canonical updatedAt domainCount domainSuffixCount total).
Local Abbreviation afterTotal := (afterTotal updatedAt domainCount domainSuffixCount total).
Local Abbreviation updateListHeader :=
  (updateListHeader updatedAt domainCount domainSuffixCount total).
Local Abbreviation updateListHeader_lines :=
  (updateListHeader_lines updatedAt domainCount domainSuffixCount total).

Lemma number_line_no_CR_end (p : jsstring) (n : Z) :
  endsWith (p ++ Number_toString n) CR = false.
Proof.
  rewrite endsWith_app.
  pose proof (plain_endsWith _ (Number_toString_plain n)) as H.
  destruct (Number_toString n) eqn:E; [|exact H].
  destruct n as [|q|q]; cbn in E; try discriminate E.
  exfalso. revert E. unfold Pos.to_uint.
  pose proof (Stdlib.Numbers.DecimalPos.Unsigned.to_uint_nonnil q) as Hq.
  unfold Pos.to_uint in Hq. destruct (Decimal.rev (Pos.to_little_uint q)); [congruence|discriminate..].
Qed.

(** The UPDATED line keeps its prefix when the CR at its end is cut off. *)
Lemma chomp_updatedLine :
  startsWith (chomp (updatedLine updatedAt)) (lit "# UPDATED:") = true.
Proof.
  destruct (chomp_cases (updatedLine updatedAt)) as [->|(l' & Hl & ->)].
  - unfold updatedLine. unfold_lits. reflexivity.
  - unfold updatedLine in Hl.
    destruct updatedAt as [|c u] using rev_ind.
    + rewrite app_nil_r in Hl. unfold_lits.
      change [35; 32; 85; 80; 68; 65; 84; 69; 68; 58; 32]%N
        with ([35; 32; 85; 80; 68; 65; 84; 69; 68; 58]%N ++ [32%N]) in Hl.
      apply app_inj_tail in Hl as [_ Hl]. discriminate Hl.
    + rewrite app_assoc in Hl. apply app_inj_tail in Hl as [<- _].
      unfold_lits. reflexivity.
Qed.

(** What the second pass makes of a line of the array that has a line
    behind it: the line comes back exactly when it does not end in CR or is
    a header line. *)
Lemma settled_step (l : jsstring) :
  canonical l = l →
  canonical (chomp l) = l ↔ negb (endsWith l CR) || isHeader l = true.
Proof.
  intros Hset. destruct (endsWith l CR) eqn:He; cbn [negb orb].
  2:{ rewrite (chomp_fixed l He). split; [reflexivity|intros _; exact Hset]. }
  destruct (isHeader l) eqn:Hh.
  - split; [reflexivity|intros _].
    unfold isHeader in Hh.
    repeat (apply orb_true_iff in Hh as [Hh|Hh]).
    + rewrite (canonical_of_updated _ _ _ _ _ Hh) in Hset. rewrite <- Hset.
      apply canonical_of_updated, chomp_updatedLine.
    + rewrite (canonical_of_domain _ _ _ _ _ Hh) in Hset. rewrite <- Hset in He.
      unfold domainLine in He. rewrite number_line_no_CR_end in He. discriminate He.
    + rewrite (canonical_of_suffix _ _ _ _ _ Hh) in Hset. rewrite <- Hset in He.
      unfold domainSuffixLine in He. rewrite number_line_no_CR_end in He. discriminate He.
    + rewrite (canonical_of_total _ _ _ _ _ Hh) in Hset. rewrite <- Hset in He.
      unfold totalLine in He. rewrite number_line_no_CR_end in He. discriminate He.
  - split; [|discriminate]. intros Hc. exfalso.
    destruct (canonical_cases updatedAt domainCount domainSuffixCount total (chomp l))
      as [H|[H|[H|[H|H]]]]; rewrite Hc in H.
    + rewrite H, isHeader_updatedLine in Hh. discriminate Hh.
    + rewrite H, isHeader_domainLine in Hh. discriminate Hh.
    + rewrite H, isHeader_domainSuffixLine in Hh. discriminate Hh.
    + rewrite H, isHeader_totalLine in Hh. discriminate Hh.
    + apply chomp_ends in He. rewrite <- H in He.
      apply (f_equal (@length N)) in He. rewrite length_app in He. cbn [length] in He. lia.
Qed.

(** The second pass over the lines of the first output returns the array
    of the first pass exactly when every line but the last that ends in CR
    is a header line. *)
Lemma settled_lines (arr : list jsstring) :
  Forall (λ l, canonical l = l) arr →
  map canonical (chompInit arr) = arr
  ↔ forallb (λ l, negb (endsWith l CR) || isHeader l) (removelast arr) = true.
Proof.
  induction 1 as [|l arr Hl Harr IH]; [split; reflexivity|].
  destruct arr as [|l' arr].
  - cbn [chompInit map removelast forallb]. rewrite Hl. split; reflexivity.
  - change (chompInit (l :: l' :: arr)) with (chomp l :: chompInit (l' :: arr)).
    change (removelast (l :: l' :: arr)) with (l :: removelast (l' :: arr)).
    cbn [map forallb]. rewrite andb_true_iff, <- IH, <- (settled_step l Hl).
    split.
    + intros H. injection H as H1 H2. split; assumption.
    + intros [H1 H2]. rewrite H1, H2. reflexivity.
Qed.

(** A pass over lines that hold the four tags inserts nothing. *)
Lemma pass_with_headers (lines : list jsstring) :
  existsb (λ l, startsWith l (lit "# UPDATED:")) lines = true →
  existsb (λ l, startsWith l (lit "# DOMAIN:")) lines = true →
  existsb (λ l, startsWith l (lit "# DOMAIN-SUFFIX:")) lines = true →
  existsb (λ l, startsWith l (lit "# TOTAL:")) lines = true →
  afterTotal (scan lines) = map canonical lines.
Proof.
  intros HU HD HS HT. rewrite scan_spec.
  unfold ListHeader.afterTotal, afterDomainSuffix, afterDomain, afterUpdated.
  cbn [out hasUpdated hasDomain hasDomainSuffix hasTotal].
  rewrite HU, HD, HS, HT. reflexivity.
Qed.

Lemma first_pass_nonempty (content : jsstring) : updateListHeader_lines content ≠ [].
Proof.
  apply afterTotal_nonempty. rewrite scan_spec. cbn [out].
  intros H. apply fmap_nil_inv in H. exact (split_lines_nonempty content H).
Qed.

Lemma first_pass_no_LF (content : jsstring) :
  LF ∉ updatedAt → Forall (λ l, LF ∉ l) (updateListHeader_lines content).
Proof.
  intros Hlf.
  pose proof (output_text_lines updatedAt domainCount domainSuffixCount total Hlf content)
    as Hsplit.
  assert (HN : ∀ p n, forallb (λ c, negb (c =? LF)%N) p = true →
               LF ∉ p ++ Number_toString n).
  { intros p n Hp. apply not_elem_of_app. split.
    - apply literal_no_LF. exact Hp.
    - apply plain_no_LF, Number_toString_plain. }
  apply afterTotal_Forall; [|apply HN; reflexivity..|].
  - apply not_elem_of_app. split; [apply literal_no_LF; reflexivity|assumption].
  - rewrite scan_spec. cbn [out]. apply Forall_fmap.
    eapply Forall_impl; [apply split_lines_no_LF|].
    intros l Hl. apply canonical_no_LF; assumption.
Qed.

(** With a timestamp without LF, the second pass reads the lines of the
    first array, every one but the last without the CR at its end, and
    inserts nothing. *)
Lemma second_pass_lines (content : jsstring) :
  LF ∉ updatedAt →
  updateListHeader_lines (updateListHeader content)
  = map canonical (chompInit (updateListHeader_lines content)).
Proof.
  intros Hlf. unfold ListHeader.updateListHeader_lines at 1.
  rewrite (output_text_lines updatedAt domainCount domainSuffixCount total Hlf content).
  destruct (headers_present updatedAt domainCount domainSuffixCount total
              (split_lines content)) as (HU & HD & HS & HT).
  fold (updateListHeader_lines content) in HU, HD, HS, HT.
  assert (Hex : ∀ prefix (x : jsstring) ls,
             x ∈ ls → startsWith x prefix = true →
             existsb (λ l, startsWith l prefix) ls = true).
  { intros prefix x ls Hx Hp. apply existsb_exists. exists x.
    split; [apply list_elem_of_In; exact Hx|exact Hp]. }
  apply pass_with_headers.
  - destruct (chompInit_has _ _ HU) as [H|H]; apply (Hex _ _ _ H).
    + unfold updatedLine. unfold_lits. reflexivity.
    + apply chomp_updatedLine.
  - apply (Hex _ (domainLine domainCount)).
    + apply chompInit_elem; [apply number_line_no_CR_end|exact HD].
    + unfold domainLine. unfold_lits. reflexivity.
  - apply (Hex _ (domainSuffixLine domainSuffixCount)).
    + apply chompInit_elem; [apply number_line_no_CR_end|exact HS].
    + unfold domainSuffixLine. unfold_lits. reflexivity.
  - apply (Hex _ (totalLine total)).
    + apply chompInit_elem; [apply number_line_no_CR_end|exact HT].
    + unfold totalLine. unfold_lits. reflexivity.
Qed.

(** With an LF in the timestamp the second output has more LF units than
    the first. *)
Lemma second_pass_grows (content : jsstring) :
  LF ∈ updatedAt →
  (countLF (updateListHeader content)
   < countLF (updateListHeader (updateListHeader content)))%nat.
Proof.
  intros Hlf.
  set (text := updateListHeader content).
  pose proof (countLF_join_lines (updateListHeader_lines text) (first_pass_nonempty text))
    as Hcount.
  fold (updateListHeader text) in Hcount.
  destruct (headers_present updatedAt domainCount domainSuffixCount total
              (split_lines text)) as (HU & _).
  fold (updateListHeader_lines text) in HU.
  pose proof (countLF_mjoin_elem _ _ HU) as Hone.
  assert (Hup : (0 < countLF (updatedLine updatedAt))%nat).
  { apply countLF_some. unfold updatedLine. apply elem_of_app. right. exact Hlf. }
  assert (Hlen : (length (split_lines text) ≤ length (updateListHeader_lines text))%nat).
  { unfold ListHeader.updateListHeader_lines.
    rewrite scan_spec.
    unfold ListHeader.afterTotal, afterDomainSuffix, afterDomain, afterUpdated,
      insertHeaderIfMissing.
    cbn [out hasUpdated hasDomain hasDomainSuffix hasTotal fst].
    repeat match goal with
           | |- context [if ?b then _ else _] => destruct b
           end; rewrite ?length_splice0, length_map; lia. }
  rewrite length_split_lines in Hlen. lia.
Qed.

End Rewrite.

End FixedPointFacts.

Module FixedPointClaim.
Import JS ListHeader JSFacts ListHeaderFacts TrimFacts HeaderMore RuleDirFacts FixedPointFacts.

(** C3, as the code has it: the output of [updateListHeader] is a fixed
    point of [updateListHeader] with the same timestamp and counts exactly
    when the timestamp holds no LF and, in the array of lines that the first
    application joins, every line but the last that ends in CR begins with
    one of the four header prefixes. *)
Theorem header_rewrite_fixed_point
    (updatedAt : jsstring) (domainCount domainSuffixCount total : Z)
    (content : jsstring) :
  updateListHeader updatedAt domainCount domainSuffixCount total
    (updateListHeader updatedAt domainCount domainSuffixCount total content)
  = updateListHeader updatedAt domainCount domainSuffixCount total content
  ↔ includes updatedAt [LF] = false
    ∧ forallb (λ l, negb (endsWith l CR) || isHeader l)
        (removelast
           (updateListHeader_lines updatedAt domainCount domainSuffixCount total content))
      = true.
Proof.
  destruct (includes updatedAt [LF]) eqn:Hlf.
  - split; [|intros [H _]; discriminate H]. intros Hfix. exfalso.
    assert (Hin : LF ∈ updatedAt).
    { destruct (decide (LF ∈ updatedAt)) as [H|H]; [exact H|].
      apply includes_unit in H. congruence. }
    pose proof (second_pass_grows updatedAt domainCount domainSuffixCount total content Hin)
      as Hgrow.
    rewrite Hfix in Hgrow. lia.
  - apply includes_unit in Hlf.
    rewrite <- (settled_lines updatedAt domainCount domainSuffixCount total)
      by apply lines_settled.
    unfold updateListHeader at 1 3.
    rewrite (second_pass_lines updatedAt domainCount domainSuffixCount total content Hlf).
    pose proof (first_pass_no_LF updatedAt domainCount domainSuffixCount total content Hlf)
      as Hno.
    pose proof (first_pass_nonempty updatedAt domainCount domainSuffixCount total content)
      as Hne.
    split.
    + intros Hjoin. split; [reflexivity|].
      apply join_lines_inj; [|exact Hne| |exact Hno|exact Hjoin].
      * intros H. apply fmap_nil_inv in H. exact (chompInit_nonempty _ Hne H).
      * apply Forall_fmap. eapply Forall_impl; [apply chompInit_no_LF, Hno|].
        intros l Hl. apply canonical_no_LF; assumption.
    + intros [_ H]. rewrite H. reflexivity.
Qed.

(** The theorem at a timestamp that ends in CR and a text with the four
    header lines whose last line ends in CR: the UPDATED line is the one
    line in front of an LF that ends in CR, and the output of the rewrite
    is a fixed point. *)
Lemma header_rewrite_fixed_point_witness :
  updateListHeader (lit "2026-01-01 00:00:00" ++ [CR]) 1 0 1
    (updateListHeader (lit "2026-01-01 00:00:00" ++ [CR]) 1 0 1
       (lit "# UPDATED: old" ++ [CR; LF] ++ lit "# DOMAIN: 0" ++ [LF]
        ++ lit "# DOMAIN-SUFFIX: 0" ++ [LF] ++ lit "# TOTAL: 0" ++ [LF]
        ++ lit "DOMAIN,a.com" ++ [CR]))
  = updateListHeader (lit "2026-01-01 00:00:00" ++ [CR]) 1 0 1
      (lit "# UPDATED: old" ++ [CR; LF] ++ lit "# DOMAIN: 0" ++ [LF]
       ++ lit "# DOMAIN-SUFFIX: 0" ++ [LF] ++ lit "# TOTAL: 0" ++ [LF]
       ++ lit "DOMAIN,a.com" ++ [CR]).
Proof.
  apply header_rewrite_fixed_point. split; reflexivity.
Defined.

End FixedPointClaim.

Module RuleDirMore.
Import JS ListHeader Counter Timestamp RuleDir.
Import JSFacts ListHeaderFacts TrimFacts CounterMore HeaderMore TimestampFacts RuleDirFacts.

Lemma dom_overwrite (m : gmap jsstring jsstring) (k v : jsstring) :
  is_Some (m !! k) → dom (<[k := v]> m) = dom m.
Proof.
  intros Hk. rewrite dom_insert_L. apply elem_of_dom in Hk.
  apply subseteq_union_1_L, singleton_subseteq_l, Hk.
Qed.

Section Paths.
Variable path_join : jsstring → jsstring → jsstring.
Variable path_basename : jsstring → jsstring → jsstring.
Variable readdirSync : jsstring → list Dirent.
Variable now : Date.

Local Abbreviation processRuleDir :=
  (processRuleDir path_join path_basename readdirSync now).
Local Abbreviation listFiles := (listFiles readdirSync).

(** The text written to the list file with content [c]. *)
Definition rewrittenList (c : jsstring) : jsstring :=
  updateListHeader (formatDate now)
    (getOr0 (typeCounts (parseCountsFromList c)) (lit "DOMAIN"))
    (getOr0 (typeCounts (parseCountsFromList c)) (lit "DOMAIN-SUFFIX"))
    (total (parseCountsFromList c)) c.

(** The text written to the README with content [r], for the list file
    [file] with content [c]. *)
Definition rewrittenReadme (file c r : jsstring) : jsstring :=
  Readme.updateReadme (formatDate now)
    (getOr0 (typeCounts (parseCountsFromList c)) (lit "DOMAIN"))
    (getOr0 (typeCounts (parseCountsFromList c)) (lit "DOMAIN-SUFFIX"))
    (total (parseCountsFromList c))
    (Some (path_basename file (lit ".list"))) r.

(** The run of [processRuleDir] on a directory with a list file, step by
    step. *)
Lemma processRuleDir_run (ruleDir first : jsstring) (rest : list jsstring)
    (fs : FileSystem) :
  listFiles ruleDir = first :: rest →
  let listFile := path_join ruleDir first in
  let readmeFile := path_join ruleDir (lit "README.md") in
  let done := mkOutcome true (Some listFile) (Some readmeFile) in
  processRuleDir ruleDir fs =
    match files fs !! listFile with
    | None => (fs, inl ENOENT)
    | Some c =>
        if bool_decide (listFile ∈ readonly fs) then (fs, inl EACCES)
        else
          let fs1 := mkFS (<[listFile := rewrittenList c]> (files fs)) (readonly fs) in
          match files fs1 !! readmeFile with
          | None => (fs1, inr done)
          | Some r =>
              if bool_decide (readmeFile ∈ readonly fs) then (fs1, inl EACCES)
              else (mkFS (<[readmeFile := rewrittenReadme listFile c r]> (files fs1))
                         (readonly fs), inr done)
          end
    end.
Proof.
  intros Hlist. cbv zeta. unfold RuleDir.processRuleDir. rewrite Hlist.
  unfold bind, readText, writeText, existsSync, ret.
  destruct (files fs !! path_join ruleDir first) as [c|]; [|reflexivity].
  destruct (bool_decide (path_join ruleDir first ∈ readonly fs)); [reflexivity|].
  cbn [files readonly].
  destruct (<[path_join ruleDir first := _]> (files fs) !! path_join ruleDir (lit "README.md"))
    as [r|] eqn:Hr; [|reflexivity].
  cbn [bool_decide decide_rel is_Some_dec files readonly]. rewrite Hr.
  cbn [files readonly].
  destruct (bool_decide (path_join ruleDir (lit "README.md") ∈ readonly fs)); reflexivity.
Qed.

Lemma readonly_after_run (ruleDir : jsstring) (fs : FileSystem) :
  readonly (processRuleDir ruleDir fs).1 = readonly fs.
Proof.
  destruct (listFiles ruleDir) as [|first rest] eqn:Hlist.
  - unfold RuleDir.processRuleDir. rewrite Hlist. reflexivity.
  - rewrite (processRuleDir_run ruleDir first rest fs Hlist). cbv zeta.
    destruct (files fs !! path_join ruleDir first) as [c|]; [|reflexivity].
    destruct (bool_decide _); [reflexivity|]. cbn [files].
    destruct (<[_ := _]> (files fs) !! path_join ruleDir (lit "README.md")) as [r|];
      [destruct (bool_decide _)|]; reflexivity.
Qed.

(** The list file after a run. *)
Lemma list_file_after_run (ruleDir first : jsstring) (rest : list jsstring)
    (fs : FileSystem) :
  listFiles ruleDir = first :: rest →
  path_join ruleDir first ≠ path_join ruleDir (lit "README.md") →
  files (processRuleDir ruleDir fs).1 !! path_join ruleDir first
  = match files fs !! path_join ruleDir first with
    | None => None
    | Some c =>
        if bool_decide (path_join ruleDir first ∈ readonly fs) then Some c
        else Some (rewrittenList c)
    end.
Proof.
  intros Hlist Hne.
  rewrite (processRuleDir_run ruleDir first rest fs Hlist). cbv zeta.
  destruct (files fs !! path_join ruleDir first) as [c|] eqn:Hc; [|exact Hc].
  destruct (bool_decide _); [exact Hc|]. cbn [files].
  destruct (<[_ := _]> (files fs) !! path_join ruleDir (lit "README.md")) as [r|];
    [destruct (bool_decide _)|]; cbn [fst files];
    rewrite ?(lookup_insert_ne _ (path_join ruleDir (lit "README.md"))) by congruence;
    apply lookup_insert_eq.
Qed.

(** The header that [rewrittenList] writes shows the counts of the text it
    writes. *)
Lemma rewrittenList_summary (c : jsstring) :
  parseCountsFromList (rewrittenList c) = parseCountsFromList c.
Proof.
  unfold rewrittenList. apply rewrite_keeps_summary.
  apply includes_unit, formatDate_no_LF.
Qed.

Lemma rewrittenList_again (c : jsstring) :
  forallb (λ l, negb (endsWith l CR)) (split_lines c) = true →
  rewrittenList (rewrittenList c) = rewrittenList c.
Proof.
  intros Hlines. unfold rewrittenList at 1. rewrite rewrittenList_summary.
  unfold rewrittenList. apply second_pass_fixed; [| |exact Hlines].
  - apply includes_unit, formatDate_no_LF.
  - apply formatDate_no_CR_end.
Qed.

(** X13: [processRuleDir] writes to no path but that of the first list
    file and that of the README: every other file, and the set of paths that
    cannot be written, are as before, whether the run returns or throws;
    without a list file nothing at all is written and [changed] is false. *)
Theorem only_list_and_readme_written (ruleDir : jsstring) (fs : FileSystem) (p : jsstring) :
  ((∀ first rest, listFiles ruleDir = first :: rest → p ≠ path_join ruleDir first) →
   p ≠ path_join ruleDir (lit "README.md") →
   files (processRuleDir ruleDir fs).1 !! p = files fs !! p)
  ∧ readonly (processRuleDir ruleDir fs).1 = readonly fs
  ∧ (listFiles ruleDir = [] →
     processRuleDir ruleDir fs = (fs, inr (mkOutcome false None None))).
Proof.
  split; [|split].
  - intros Hl Hr. destruct (listFiles ruleDir) as [|first rest] eqn:Hlist.
    + unfold RuleDir.processRuleDir. rewrite Hlist. reflexivity.
    + specialize (Hl first rest eq_refl).
      rewrite (processRuleDir_run ruleDir first rest fs Hlist). cbv zeta.
      destruct (files fs !! path_join ruleDir first) as [c|]; [|reflexivity].
      destruct (bool_decide _); [reflexivity|]. cbn [files].
      destruct (<[_ := _]> (files fs) !! path_join ruleDir (lit "README.md")) as [r|];
        [destruct (bool_decide _)|]; cbn [fst files];
        rewrite ?lookup_insert_ne by congruence; reflexivity.
  - apply readonly_after_run.
  - intros Hlist. unfold RuleDir.processRuleDir. rewrite Hlist. reflexivity.
Qed.

(** X14: [processRuleDir] creates no file and removes none: the paths
    that hold a file are the same after the run, whether it returns or
    throws; a README that is not there is not made. *)
Theorem no_file_created (ruleDir : jsstring) (fs : FileSystem) :
  dom (files (processRuleDir ruleDir fs).1) = dom (files fs).
Proof.
  destruct (listFiles ruleDir) as [|first rest] eqn:Hlist.
  - unfold RuleDir.processRuleDir. rewrite Hlist. reflexivity.
  - rewrite (processRuleDir_run ruleDir first rest fs Hlist). cbv zeta.
    destruct (files fs !! path_join ruleDir first) as [c|] eqn:Hc; [|reflexivity].
    destruct (bool_decide _); [reflexivity|]. cbn [files].
    assert (H1 : dom (<[path_join ruleDir first := rewrittenList c]> (files fs))
                 = dom (files fs)) by (apply dom_overwrite; eauto).
    destruct (<[_ := _]> (files fs) !! path_join ruleDir (lit "README.md")) as [r|] eqn:Hr;
      [destruct (bool_decide _)|]; cbn [fst files]; try exact H1.
    rewrite dom_overwrite by eauto. exact H1.
Qed.

(** X15: after a run that returns, the list file is in step with itself:
    its summary is that of the text read, each of the lines [# UPDATED:],
    [# DOMAIN:], [# DOMAIN-SUFFIX:] and [# TOTAL:] is there, and every line
    of the file that begins with one of these prefixes shows the timestamp
    of the run, and the DOMAIN count, the DOMAIN-SUFFIX count and the total
    of the file as it now is. *)
Theorem written_list_in_step (ruleDir first : jsstring) (rest : list jsstring)
    (fs fs' : FileSystem) (outcome : Outcome) (l : jsstring) :
  listFiles ruleDir = first :: rest →
  path_join ruleDir first ≠ path_join ruleDir (lit "README.md") →
  processRuleDir ruleDir fs = (fs', inr outcome) →
  ∃ old new,
    files fs !! path_join ruleDir first = Some old
    ∧ files fs' !! path_join ruleDir first = Some new
    ∧ parseCountsFromList new = parseCountsFromList old
    ∧ (lit "# UPDATED: " ++ formatDate now ∈ split_lines new
       ∧ lit "# DOMAIN: "
           ++ Number_toString (getOr0 (typeCounts (parseCountsFromList new)) (lit "DOMAIN"))
         ∈ split_lines new
       ∧ lit "# DOMAIN-SUFFIX: "
           ++ Number_toString
                (getOr0 (typeCounts (parseCountsFromList new)) (lit "DOMAIN-SUFFIX"))
         ∈ split_lines new
       ∧ lit "# TOTAL: " ++ Number_toString (total (parseCountsFromList new))
         ∈ split_lines new)
    ∧ (l ∈ split_lines new →
       (startsWith l (lit "# UPDATED:") = true → l = lit "# UPDATED: " ++ formatDate now)
       ∧ (startsWith l (lit "# DOMAIN:") = true →
          l = lit "# DOMAIN: "
              ++ Number_toString
                   (getOr0 (typeCounts (parseCountsFromList new)) (lit "DOMAIN")))
       ∧ (startsWith l (lit "# DOMAIN-SUFFIX:") = true →
          l = lit "# DOMAIN-SUFFIX: "
              ++ Number_toString
                   (getOr0 (typeCounts (parseCountsFromList new)) (lit "DOMAIN-SUFFIX")))
       ∧ (startsWith l (lit "# TOTAL:") = true →
          l = lit "# TOTAL: " ++ Number_toString (total (parseCountsFromList new)))).
Proof.
  intros Hlist Hne Hrun.
  rewrite (processRuleDir_run ruleDir first rest fs Hlist) in Hrun. cbv zeta in Hrun.
  destruct (files fs !! path_join ruleDir first) as [c|] eqn:Hc; [|discriminate Hrun].
  destruct (bool_decide _); [discriminate Hrun|]. cbn [files] in Hrun.
  exists c, (rewrittenList c).
  assert (Hnew : files fs' !! path_join ruleDir first = Some (rewrittenList c)).
  { destruct (<[_ := _]> (files fs) !! path_join ruleDir (lit "README.md")) as [r|];
      [destruct (bool_decide _); [discriminate Hrun|]|];
      injection Hrun as <- _; cbn [files];
      rewrite ?(lookup_insert_ne _ (path_join ruleDir (lit "README.md"))) by congruence;
      apply lookup_insert_eq. }
  split; [reflexivity|]. split; [exact Hnew|].
  split; [apply rewrittenList_summary|].
  rewrite rewrittenList_summary.
  pose proof (proj1 (includes_unit _ _) (formatDate_no_LF now)) as Hlf.
  pose proof (formatDate_no_CR_end now) as Hcr.
  split.
  - apply (output_text_has_headers _ _ _ _ Hlf Hcr c).
  - intros Hl.
    assert (Hset : ∀ prefix, startsWith l prefix = true → isHeader l = true →
              canonical (formatDate now)
                (getOr0 (typeCounts (parseCountsFromList c)) (lit "DOMAIN"))
                (getOr0 (typeCounts (parseCountsFromList c)) (lit "DOMAIN-SUFFIX"))
                (total (parseCountsFromList c)) l = l).
    { intros prefix _ Hh. apply (output_text_settled _ _ _ _ Hlf Hcr c l Hl Hh). }
    repeat split; intros H.
    + rewrite <- (Hset _ H) at 1 by (unfold isHeader; rewrite H; reflexivity).
      apply canonical_of_updated. exact H.
    + rewrite <- (Hset _ H) at 1 by (unfold isHeader; rewrite H, ?orb_true_r; reflexivity).
      apply canonical_of_domain. exact H.
    + rewrite <- (Hset _ H) at 1 by (unfold isHeader; rewrite H, ?orb_true_r; reflexivity).
      apply canonical_of_suffix. exact H.
    + rewrite <- (Hset _ H) at 1 by (unfold isHeader; rewrite H, ?orb_true_r; reflexivity).
      apply canonical_of_total. exact H.
Qed.

(** X16: a second run at the same second leaves the list file as the first
    run left it, when no line of the list file ends in CR; this holds also
    when one of the runs throws. *)
Theorem second_run_keeps_list_file (ruleDir first : jsstring) (rest : list jsstring)
    (fs : FileSystem) :
  listFiles ruleDir = first :: rest →
  path_join ruleDir first ≠ path_join ruleDir (lit "README.md") →
  (∀ c, files fs !! path_join ruleDir first = Some c →
        forallb (λ l, negb (endsWith l CR)) (split_lines c) = true) →
  files (processRuleDir ruleDir (processRuleDir ruleDir fs).1).1 !! path_join ruleDir first
  = files (processRuleDir ruleDir fs).1 !! path_join ruleDir first.
Proof.
  intros Hlist Hne Hlines.
  rewrite (list_file_after_run ruleDir first rest _ Hlist Hne), readonly_after_run.
  rewrite (list_file_after_run ruleDir first rest fs Hlist Hne).
  destruct (files fs !! path_join ruleDir first) as [c|] eqn:Hc; [|reflexivity].
  destruct (bool_decide (path_join ruleDir first ∈ readonly fs)); [reflexivity|].
  rewrite (rewrittenList_again c (Hlines c eq_refl)). reflexivity.
Qed.

End Paths.

(** A directory [r] with the list file [a.list], paths joined by a slash. *)
Definition demo_join (dir name : jsstring) : jsstring := dir ++ lit "/" ++ name.
Definition demo_basename (file ext : jsstring) : jsstring := lit "a".
Definition demo_readdir (dir : jsstring) : list Dirent :=
  [mkDirent (lit "notes.txt") true; mkDirent (lit "a.list") true].
Definition demo_now : Date := mkDate 2026 0 1 0 0 0.
Definition demo_fs : FileSystem :=
  mkFS {[ lit "r/a.list" := lit "DOMAIN,x.com" ++ [CR; LF] ++ lit "DOMAIN,y.com" ]} ∅.

(** The theorem at that directory. *)
Lemma written_list_in_step_witness :
  ∃ new,
    files (processRuleDir demo_join demo_basename demo_readdir demo_now (lit "r") demo_fs).1
      !! lit "r/a.list" = Some new
    ∧ total (parseCountsFromList new) = 2%Z
    ∧ lit "# TOTAL: 2" ∈ split_lines new.
Proof.
  destruct (written_list_in_step demo_join demo_basename demo_readdir demo_now
              (lit "r") (lit "a.list") [] demo_fs
              (processRuleDir demo_join demo_basename demo_readdir demo_now (lit "r")
                 demo_fs).1
              (mkOutcome true (Some (lit "r/a.list")) (Some (lit "r/README.md"))) [])
    as (old & new & Hold & Hnew & Hsum & (_ & _ & _ & Htotal) & _).
  - reflexivity.
  - cbv. discriminate.
  - vm_compute. reflexivity.
  - exists new. split; [exact Hnew|].
    assert (Ht : total (parseCountsFromList new) = 2%Z).
    { rewrite Hsum. vm_compute in Hold. injection Hold as <-. vm_compute. reflexivity. }
    split; [exact Ht|]. rewrite Ht in Htotal. exact Htotal.
Defined.

(** The theorem at that directory. *)
Lemma second_run_keeps_list_file_witness :
  files (processRuleDir demo_join demo_basename demo_readdir demo_now (lit "r")
           (processRuleDir demo_join demo_basename demo_readdir demo_now (lit "r")
              demo_fs).1).1 !! lit "r/a.list"
  = files (processRuleDir demo_join demo_basename demo_readdir demo_now (lit "r")
             demo_fs).1 !! lit "r/a.list".
Proof.
  apply (second_run_keeps_list_file demo_join demo_basename demo_readdir demo_now
           (lit "r") (lit "a.list") [] demo_fs).
  - reflexivity.
  - cbv. discriminate.
  - intros c Hc. vm_compute in Hc. injection Hc as <-. reflexivity.
Defined.

End RuleDirMore.

(** ** The changed rule sets *)

Module GitStatusFacts.
Import JS GitStatus JSFacts.

Lemma splitOn_nonempty (c : N) (s : jsstring) : splitOn c s ≠ [].
Proof.
  induction s as [|b s IH]; cbn [splitOn]; [discriminate|].
  destruct (b =? c)%N; [discriminate|]. destruct (splitOn c s); [congruence|discriminate].
Qed.

(** No part holds the separator. *)
Lemma splitOn_parts (c : N) (s : jsstring) : Forall (λ part, c ∉ part) (splitOn c s).
Proof.
  induction s as [|b s IH]; cbn [splitOn].
  - constructor; [apply not_elem_of_nil|constructor].
  - destruct (N.eqb_spec b c) as [->|Hne].
    + constructor; [apply not_elem_of_nil|exact IH].
    + destruct (splitOn c s) as [|part parts]; cbn [push_front].
      * constructor; [|constructor]. apply not_elem_of_cons.
        split; [congruence|apply not_elem_of_nil].
      * apply Forall_cons in IH as [Hp Hps]. constructor; [|exact Hps].
        apply not_elem_of_cons. split; [congruence|exact Hp].
Qed.

(** Every unit of a part is a unit of the text. *)
Lemma splitOn_units (c : N) (s : jsstring) (x : N) :
  Exists (λ part, x ∈ part) (splitOn c s) → x ∈ s.
Proof.
  induction s as [|b s IH]; cbn [splitOn]; intros H.
  - apply Exists_cons in H as [H|H]; [exact H|]. apply Exists_nil in H. contradiction.
  - destruct (b =? c)%N.
    + apply Exists_cons in H as [H|H]; [apply elem_of_nil in H; contradiction|].
      apply list_elem_of_further, IH, H.
    + destruct (splitOn c s) as [|part parts]; cbn [push_front] in H.
      * apply Exists_cons in H as [H|H]; [|apply Exists_nil in H; contradiction].
        apply elem_of_cons in H as [->|H]; [apply list_elem_of_here|].
        apply elem_of_nil in H. contradiction.
      * apply Exists_cons in H as [H|H].
        -- apply elem_of_cons in H as [->|H]; [apply list_elem_of_here|].
           apply list_elem_of_further, IH, Exists_cons. left. exact H.
        -- apply list_elem_of_further, IH, Exists_cons. right. exact H.
Qed.

(** The text in front of the first separator is the first part. *)
Lemma splitOn_app (c : N) (a b : jsstring) :
  c ∉ a → splitOn c (a ++ c :: b) = a :: splitOn c b.
Proof.
  induction a as [|x a IH]; intros Ha; cbn [app splitOn].
  - rewrite N.eqb_refl. reflexivity.
  - apply not_elem_of_cons in Ha as [Hx Ha].
    destruct (N.eqb_spec x c); [congruence|]. rewrite (IH Ha). reflexivity.
Qed.

Lemma toPosix_no_backslash (s : jsstring) : 92%N ∉ toPosix s.
Proof.
  unfold toPosix. intros H. apply list_elem_of_fmap in H as (x & Hx & _).
  destruct (N.eqb_spec x 92); [discriminate Hx|congruence].
Qed.

Lemma toPosix_id (s : jsstring) : 92%N ∉ s → toPosix s = s.
Proof.
  induction s as [|x s IH]; intros H; [reflexivity|].
  apply not_elem_of_cons in H as [Hx Hs]. unfold toPosix in *. cbn [map].
  destruct (N.eqb_spec x 92); [congruence|]. rewrite (IH Hs). reflexivity.
Qed.

Lemma toPosix_app (s t : jsstring) : toPosix (s ++ t) = toPosix s ++ toPosix t.
Proof. unfold toPosix. apply map_app. Qed.

Lemma indexOfString_absent (s t : jsstring) :
  includes s t = false → indexOfString s t = (-1)%Z.
Proof.
  induction s as [|c s IH]; cbn [includes indexOfString]; intros H.
  - rewrite orb_false_r in H. rewrite H. reflexivity.
  - apply orb_false_elim in H as [H1 H2]. rewrite H1, (IH H2). reflexivity.
Qed.

Lemma indexOfString_ge (s t : jsstring) : (-1 ≤ indexOfString s t)%Z.
Proof.
  induction s as [|c s IH]; cbn [indexOfString].
  - destruct (startsWith [] t); lia.
  - destruct (startsWith (c :: s) t); [lia|].
    destruct (Z.eqb_spec (indexOfString s t) (-1)); lia.
Qed.

(** The arrow of a rename behind a text without [>] is found at the end of
    that text. *)
Lemma indexOfString_arrow (pre post : jsstring) :
  62%N ∉ pre →
  indexOfString (pre ++ lit "->" ++ post) (lit "->") = Z.of_nat (length pre).
Proof.
  induction pre as [|c pre IH]; intros Hgt; [reflexivity|].
  apply not_elem_of_cons in Hgt as [Hc Hpre].
  cbn [app indexOfString length]. rewrite (IH Hpre).
  assert (Hs : startsWith (c :: pre ++ lit "->" ++ post) (lit "->") = false).
  { unfold_lits. cbn [startsWith]. destruct (c =? 45)%N; [|reflexivity]. cbn [andb].
    destruct pre as [|c' pre]; cbn [app]; [reflexivity|].
    apply not_elem_of_cons in Hpre as [Hc' _].
    destruct (N.eqb_spec c' 62); [congruence|reflexivity]. }
  rewrite Hs. destruct (Z.eqb_spec (Z.of_nat (length pre)) (-1)); lia.
Qed.

Lemma Set_add_elem (x y : jsstring) (set : list jsstring) :
  y ∈ Set_add x set ↔ y = x ∨ y ∈ set.
Proof.
  unfold Set_add. destruct (bool_decide (x ∈ set)) eqn:Hx.
  - apply bool_decide_eq_true in Hx. split; [auto|]. intros [->|H]; assumption.
  - rewrite elem_of_app, list_elem_of_singleton. tauto.
Qed.

Lemma Set_add_NoDup (x : jsstring) (set : list jsstring) :
  NoDup set → NoDup (Set_add x set).
Proof.
  intros Hnd. unfold Set_add. destruct (bool_decide (x ∈ set)) eqn:Hx; [exact Hnd|].
  apply bool_decide_eq_false in Hx. apply NoDup_app. split; [exact Hnd|].
  split; [|apply NoDup_singleton].
  intros y Hy Hy'. apply list_elem_of_singleton in Hy'. congruence.
Qed.

Section Paths.
Variable path_join : jsstring → jsstring → jsstring → jsstring.
Variable isDirectory : jsstring → bool.
Variable ruleRoot : jsstring.

Local Abbreviation statusLine := (statusLine path_join isDirectory ruleRoot).

(** A platform and a rule set as [statusLine] accepts them. *)
Definition accepted (dir : jsstring) : Prop :=
  ∃ platform ruleSet,
    dir = path_join ruleRoot platform ruleSet
    ∧ platform ≠ [] ∧ ruleSet ≠ [] ∧ platform ≠ lit "__template__"
    ∧ (47%N ∉ platform) ∧ (92%N ∉ platform) ∧ (47%N ∉ ruleSet) ∧ (92%N ∉ ruleSet)
    ∧ isDirectory dir = true.

(** What one line can do: nothing, note a path under [rule/], or note the
    path and add an accepted directory. *)
Lemma statusLine_cases (acc : Found) (line : jsstring) :
  statusLine acc line = acc
  ∨ ∃ p, startsWith p (lit "rule/") = true
         ∧ (statusLine acc line = mkFound (changed acc) (changedPaths acc ++ [p])
            ∨ ∃ dir, accepted dir
                     ∧ statusLine acc line
                       = mkFound (Set_add dir (changed acc)) (changedPaths acc ++ [p])).
Proof.
  unfold GitStatus.statusLine. cbv zeta.
  set (rawPath := if negb _ then _ else _).
  destruct rawPath as [|r0 raw] eqn:Hraw; [left; reflexivity|].
  set (posixPath := toPosix (r0 :: raw)).
  destruct (startsWith posixPath (lit "rule/")) eqn:Hrule; cbn [negb]; [|left; reflexivity].
  right. exists posixPath. split; [exact Hrule|].
  destruct (length (splitOn 47 posixPath) <? 3)%nat eqn:Hlen; [left; reflexivity|].
  apply Nat.ltb_ge in Hlen.
  pose proof (splitOn_parts 47 posixPath) as Hparts.
  assert (Hunits : ∀ i, (i < length (splitOn 47 posixPath))%nat →
             (47%N ∉ nth i (splitOn 47 posixPath) [])
             ∧ (92%N ∉ nth i (splitOn 47 posixPath) [])).
  { intros i Hi. split.
    - rewrite List.Forall_nth in Hparts. apply Hparts. exact Hi.
    - intros Hin. apply (toPosix_no_backslash (r0 :: raw)).
      apply (splitOn_units 47). apply Exists_exists.
      exists (nth i (splitOn 47 posixPath) []). split; [|exact Hin].
      apply list_elem_of_In, nth_In. exact Hi. }
  destruct (Hunits 1%nat ltac:(lia)) as [Hp1 Hp2].
  destruct (Hunits 2%nat ltac:(lia)) as [Hs1 Hs2].
  destruct (nth 1 (splitOn 47 posixPath) []) as [|p0 platform] eqn:Hplat; [left; reflexivity|].
  destruct (nth 2 (splitOn 47 posixPath) []) as [|s0 ruleSet] eqn:Hset; [left; reflexivity|].
  destruct (bool_decide (p0 :: platform = lit "__template__")) eqn:Htemp; [left; reflexivity|].
  apply bool_decide_eq_false in Htemp.
  destruct (isDirectory (path_join ruleRoot (p0 :: platform) (s0 :: ruleSet))) eqn:Hdir;
    [|left; reflexivity].
  right. exists (path_join ruleRoot (p0 :: platform) (s0 :: ruleSet)).
  split; [|reflexivity].
  exists (p0 :: platform), (s0 :: ruleSet). repeat split; try assumption; discriminate.
Qed.

Lemma statusLine_grows (acc : Found) (line x : jsstring) :
  x ∈ changed acc → x ∈ changed (statusLine acc line).
Proof.
  intros Hx. destruct (statusLine_cases acc line) as [->|(p & _ & [->|(dir & _ & ->)])];
    cbn [changed]; [exact Hx..|].
  apply Set_add_elem. right. exact Hx.
Qed.

Lemma fold_grows (lines : list jsstring) (acc : Found) (x : jsstring) :
  x ∈ changed acc → x ∈ changed (fold_left statusLine lines acc).
Proof.
  revert acc. induction lines as [|l lines IH]; intros acc Hx; [exact Hx|].
  cbn [fold_left]. apply IH, statusLine_grows, Hx.
Qed.

(** What holds of the set and of the noted paths after any lines. *)
Lemma fold_invariant (lines : list jsstring) (acc : Found) :
  NoDup (changed acc) → Forall accepted (changed acc) →
  Forall (λ p, startsWith p (lit "rule/") = true) (changedPaths acc) →
  let acc' := fold_left statusLine lines acc in
  NoDup (changed acc') ∧ Forall accepted (changed acc')
  ∧ Forall (λ p, startsWith p (lit "rule/") = true) (changedPaths acc').
Proof.
  revert acc. induction lines as [|l lines IH]; intros acc Hnd Hacc Hp; [auto|].
  cbn [fold_left]. apply IH;
    destruct (statusLine_cases acc l) as [->|(p & Hrule & [->|(dir & Hdir & ->)])];
    cbn [changed changedPaths]; try assumption.
  - apply Set_add_NoDup. exact Hnd.
  - apply Forall_forall. intros y Hy. apply Set_add_elem in Hy as [->|Hy]; [exact Hdir|].
    rewrite Forall_forall in Hacc. apply Hacc, Hy.
  - apply Forall_app. split; [exact Hp|]. constructor; [exact Hrule|constructor].
  - apply Forall_app. split; [exact Hp|]. constructor; [exact Hrule|constructor].
Qed.

End Paths.

End GitStatusFacts.

Module GitStatusMore.
Import JS GitStatus JSFacts GitStatusFacts.

(** The path that [statusLine] reads off a line. *)
Definition rawPathOf (line : jsstring) : jsstring :=
  if negb (indexOfString line (lit "->") =? -1)%Z
  then trim (sliceFrom line (indexOfString line (lit "->") + 2))
  else trim (sliceFrom line 3).

Lemma rawPathOf_plain (status path : jsstring) :
  length status = 3%nat → includes (status ++ path) (lit "->") = false →
  rawPathOf (status ++ path) = trim path.
Proof.
  intros Hlen Hno. unfold rawPathOf. rewrite (indexOfString_absent _ _ Hno).
  cbn [Z.eqb negb]. unfold sliceFrom. change (Z.to_nat 3) with 3%nat.
  rewrite <- Hlen, drop_app_length. reflexivity.
Qed.

Lemma rawPathOf_rename (pre post : jsstring) :
  62%N ∉ pre → rawPathOf (pre ++ lit "->" ++ post) = trim post.
Proof.
  intros Hpre. unfold rawPathOf. rewrite (indexOfString_arrow pre post Hpre).
  destruct (Z.eqb_spec (Z.of_nat (length pre)) (-1)); [lia|]. cbn [negb].
  unfold sliceFrom. replace (Z.to_nat (Z.of_nat (length pre) + 2)) with (length pre + 2)%nat by lia.
  rewrite <- drop_drop, drop_app_length. reflexivity.
Qed.

Lemma unit_not_in (c : N) (s : jsstring) :
  forallb (λ b, negb (b =? c)%N) s = true → c ∉ s.
Proof.
  intros H Hin. rewrite forallb_forall in H. apply list_elem_of_In, H in Hin.
  rewrite N.eqb_refl in Hin. discriminate Hin.
Qed.

Lemma splitOn_none (c : N) (s : jsstring) : c ∉ s → splitOn c s = [s].
Proof.
  induction s as [|x s IH]; intros H; [reflexivity|].
  apply not_elem_of_cons in H as [Hx Hs]. cbn [splitOn].
  destruct (N.eqb_spec x c); [congruence|]. rewrite (IH Hs). reflexivity.
Qed.

(** A platform or rule-set name: not empty, without slash or backslash. *)
Definition segment (s : jsstring) : bool :=
  negb (bool_decide (s = [])) && forallb (λ c, negb (c =? 47)%N && negb (c =? 92)%N) s.

Lemma segment_inv (s : jsstring) :
  segment s = true → s ≠ [] ∧ (47%N ∉ s) ∧ (92%N ∉ s).
Proof.
  unfold segment. intros H. apply andb_true_iff in H as [Hne Hall].
  apply negb_true_iff, bool_decide_eq_false in Hne. split; [exact Hne|].
  rewrite forallb_forall in Hall.
  split; intros Hin; apply list_elem_of_In, Hall in Hin; discriminate Hin.
Qed.

Section Paths.
Variable path_join : jsstring → jsstring → jsstring → jsstring.
Variable isDirectory : jsstring → bool.
Variable ruleRoot : jsstring.

Local Abbreviation statusLine := (statusLine path_join isDirectory ruleRoot).
Local Abbreviation getChangedRuleDirs :=
  (getChangedRuleDirs path_join isDirectory ruleRoot).

(** A line whose path is [rule/], a platform, a slash, a rule set and then
    nothing or a slash and more, adds the directory of that rule set. *)
Lemma statusLine_adds (acc : Found) (line platform ruleSet tail : jsstring) :
  rawPathOf line = lit "rule/" ++ platform ++ [47%N] ++ ruleSet ++ tail →
  (tail = [] ∨ ∃ rest, tail = 47%N :: rest) →
  segment platform = true → segment ruleSet = true →
  platform ≠ lit "__template__" →
  isDirectory (path_join ruleRoot platform ruleSet) = true →
  path_join ruleRoot platform ruleSet ∈ changed (statusLine acc line).
Proof.
  intros Hraw Htail Hp Hs Htemp Hdir.
  apply segment_inv in Hp as (Hpne & Hp47 & Hp92).
  apply segment_inv in Hs as (Hsne & Hs47 & Hs92).
  unfold GitStatus.statusLine. cbv zeta. unfold rawPathOf in Hraw. rewrite Hraw.
  assert (Hposix : ∃ tail', (tail' = [] ∨ ∃ rest, tail' = 47%N :: rest)
             ∧ toPosix (lit "rule/" ++ platform ++ [47%N] ++ ruleSet ++ tail)
               = lit "rule" ++ 47%N :: platform ++ 47%N :: ruleSet ++ tail').
  { exists (toPosix tail). split.
    - destruct Htail as [->|(rest & ->)]; [left; reflexivity|right].
      exists (toPosix rest). reflexivity.
    - rewrite !toPosix_app, (toPosix_id platform Hp92), (toPosix_id ruleSet Hs92).
      reflexivity. }
  destruct Hposix as (tail' & Htail' & ->).
  assert (Hparts : ∃ more, splitOn 47 (lit "rule" ++ 47%N :: platform ++ 47%N :: ruleSet ++ tail')
                           = lit "rule" :: platform :: ruleSet :: more).
  { rewrite (splitOn_app 47 (lit "rule")) by (apply unit_not_in; reflexivity).
    rewrite (splitOn_app 47 platform) by exact Hp47.
    destruct Htail' as [->|(rest & ->)].
    - rewrite app_nil_r, (splitOn_none 47 ruleSet Hs47). exists []. reflexivity.
    - rewrite (splitOn_app 47 ruleSet) by exact Hs47. eexists. reflexivity. }
  destruct Hparts as (more & ->).
  cbn [app]. unfold_lits. cbn [app startsWith length nth].
  rewrite !N.eqb_refl. cbn [andb negb Nat.ltb Nat.leb].
  destruct platform as [|p0 platform]; [congruence|].
  destruct ruleSet as [|s0 ruleSet]; [congruence|].
  rewrite bool_decide_eq_false_2 by exact Htemp. rewrite Hdir. cbn [changed].
  apply Set_add_elem. left. reflexivity.
Qed.

Lemma reported (output line dir : jsstring) :
  line ∈ split_lines output → line ≠ [] →
  (∀ acc, dir ∈ changed (statusLine acc line)) →
  dir ∈ (getChangedRuleDirs (Some output)).1.
Proof.
  intros Hin Hne Hadds. unfold GitStatus.getChangedRuleDirs. cbn [fst].
  assert (Hin' : line ∈ List.filter (λ l, negb (bool_decide (l = []))) (split_lines output)).
  { apply list_elem_of_In, filter_In. split; [apply list_elem_of_In, Hin|].
    apply negb_true_iff, bool_decide_eq_false. exact Hne. }
  apply list_elem_of_split in Hin' as (l1 & l2 & ->).
  rewrite fold_left_app. cbn [fold_left]. apply fold_grows, Hadds.
Qed.

(** X17: whatever [git status] prints, the set returned has no directory
    twice, and each of its directories is [path.join] of the rule root, a
    platform and a rule set that are not empty and hold no slash or
    backslash, the platform is not [__template__], and the directory exists;
    every path printed begins with [rule/]. *)
Theorem changed_dirs_are_rule_sets (gitStatus : option jsstring) :
  let '(dirs, printed) := getChangedRuleDirs gitStatus in
  NoDup dirs
  ∧ (∀ dir, dir ∈ dirs →
       ∃ platform ruleSet,
         dir = path_join ruleRoot platform ruleSet
         ∧ platform ≠ [] ∧ ruleSet ≠ [] ∧ platform ≠ lit "__template__"
         ∧ (47%N ∉ platform) ∧ (92%N ∉ platform) ∧ (47%N ∉ ruleSet) ∧ (92%N ∉ ruleSet)
         ∧ isDirectory dir = true)
  ∧ (printed = []
     ∨ ∃ paths, paths ≠ []
                ∧ Forall (λ p, startsWith p (lit "rule/") = true) paths
                ∧ printed = lit "Changed files under rule/:" :: map (λ p, lit " - " ++ p) paths).
Proof.
  destruct gitStatus as [output|]; cbn [GitStatus.getChangedRuleDirs].
  - set (lines := List.filter _ (split_lines output)).
    destruct (fold_invariant path_join isDirectory ruleRoot lines (mkFound [] []))
      as (Hnd & Hacc & Hpaths); [constructor..|].
    split; [exact Hnd|]. split.
    + intros dir Hdir. rewrite Forall_forall in Hacc. exact (Hacc dir Hdir).
    + unfold report. destruct (changedPaths (fold_left statusLine lines (mkFound [] [])))
        as [|p paths] eqn:Hp; [left; reflexivity|].
      right. exists (p :: paths). split; [discriminate|]. split; [exact Hpaths|reflexivity].
  - split; [constructor|]. split; [|left; reflexivity].
    intros dir Hdir. apply elem_of_nil in Hdir. contradiction.
Qed.

(** X18: a line of [git status] with two status columns, a space and the
    path [rule/], platform, slash, rule set and nothing more or a slash and
    more, puts the directory of that rule set into the set returned,
    when the directory exists, the platform is not [__template__] and the
    line holds no arrow. *)
Theorem changed_file_reports_its_rule_set
    (output status platform ruleSet tail : jsstring) :
  let path := lit "rule/" ++ platform ++ [47%N] ++ ruleSet ++ tail in
  status ++ path ∈ split_lines output →
  length status = 3%nat →
  includes (status ++ path) (lit "->") = false →
  trim path = path →
  (tail = [] ∨ ∃ rest, tail = 47%N :: rest) →
  segment platform = true → segment ruleSet = true →
  platform ≠ lit "__template__" →
  isDirectory (path_join ruleRoot platform ruleSet) = true →
  path_join ruleRoot platform ruleSet ∈ (getChangedRuleDirs (Some output)).1.
Proof.
  cbv zeta. intros Hin Hlen Hno Htrim Htail Hp Hs Htemp Hdir.
  apply (reported output _ _ Hin).
  - intros H. apply (f_equal (@length N)) in H. rewrite length_app, Hlen in H.
    cbn in H. lia.
  - intros acc. apply (statusLine_adds acc _ platform ruleSet tail); try assumption.
    rewrite (rawPathOf_plain _ _ Hlen Hno). exact Htrim.
Qed.

(** X19: a rename line, [old -> new] behind the status columns, is read by
    its new path: when the text in front of the arrow holds no [>] and the
    trimmed text behind the arrow is [rule/], platform, slash, rule set and
    nothing more or a slash and more, the directory of that rule set is in
    the set returned, when the directory exists and the platform is not
    [__template__]. *)
Theorem renamed_file_reports_its_new_rule_set
    (output pre post platform ruleSet tail : jsstring) :
  pre ++ lit "->" ++ post ∈ split_lines output →
  includes pre [62%N] = false →
  trim post = lit "rule/" ++ platform ++ [47%N] ++ ruleSet ++ tail →
  (tail = [] ∨ ∃ rest, tail = 47%N :: rest) →
  segment platform = true → segment ruleSet = true →
  platform ≠ lit "__template__" →
  isDirectory (path_join ruleRoot platform ruleSet) = true →
  path_join ruleRoot platform ruleSet ∈ (getChangedRuleDirs (Some output)).1.
Proof.
  intros Hin Hpre Htrim Htail Hp Hs Htemp Hdir. apply includes_unit in Hpre.
  apply (reported output _ _ Hin).
  - intros H. apply (f_equal (@length N)) in H. rewrite !length_app in H.
    cbn in H. lia.
  - intros acc. apply (statusLine_adds acc _ platform ruleSet tail); try assumption.
    rewrite (rawPathOf_rename _ _ Hpre). exact Htrim.
Qed.

End Paths.

Definition demo_join (root platform ruleSet : jsstring) : jsstring :=
  root ++ lit "/" ++ platform ++ lit "/" ++ ruleSet.

(** The theorem at a modified list file. *)
Lemma changed_file_reports_its_rule_set_witness :
  lit "/repo/rule/clash/Ads"
  ∈ (getChangedRuleDirs demo_join (λ _, true) (lit "/repo/rule")
       (Some (lit "?? notes.txt" ++ [LF] ++ lit " M rule/clash/Ads/Ads.list" ++ [LF]))).1.
Proof.
  apply (changed_file_reports_its_rule_set demo_join (λ _, true) (lit "/repo/rule")
           (lit "?? notes.txt" ++ [LF] ++ lit " M rule/clash/Ads/Ads.list" ++ [LF])
           (lit " M ") (lit "clash") (lit "Ads") (lit "/Ads.list")).
  - vm_compute. apply list_elem_of_further, list_elem_of_here.
  - reflexivity.
  - reflexivity.
  - reflexivity.
  - right. eexists. reflexivity.
  - reflexivity.
  - reflexivity.
  - vm_compute. discriminate.
  - reflexivity.
Defined.

(** The theorem at a renamed list file. *)
Lemma renamed_file_reports_its_new_rule_set_witness :
  lit "/repo/rule/clash/Ads"
  ∈ (getChangedRuleDirs demo_join (λ _, true) (lit "/repo/rule")
       (Some (lit "R  rule/clash/Old/Old.list -> rule/clash/Ads/Ads.list"))).1.
Proof.
  apply (renamed_file_reports_its_new_rule_set demo_join (λ _, true) (lit "/repo/rule")
           (lit "R  rule/clash/Old/Old.list -> rule/clash/Ads/Ads.list")
           (lit "R  rule/clash/Old/Old.list ") (lit " rule/clash/Ads/Ads.list")
           (lit "clash") (lit "Ads") (lit "/Ads.list")).
  - vm_compute. apply list_elem_of_here.
  - reflexivity.
  - reflexivity.
  - right. eexists. reflexivity.
  - reflexivity.
  - reflexivity.
  - vm_compute. discriminate.
  - reflexivity.
Defined.

End GitStatusMore.

(** ** Texts with CR LF line endings, and the README of a rule set *)

Module LineEndingsMore.
Import JS ListHeader Readme JSFacts TrimFacts CounterMore.

Lemma split_join_crlf (ls : list jsstring) :
  ls ≠ [] → Forall (λ l, LF ∉ l) ls → split_lines (join [CR; LF] ls) = ls.
Proof.
  intros Hne Hall. induction Hall as [|l ls Hl Hls IH]; [congruence|].
  destruct ls as [|l' ls].
  - apply split_lines_last. exact Hl.
  - change (join [CR; LF] (l :: l' :: ls)) with (l ++ CR :: LF :: join [CR; LF] (l' :: ls)).
    rewrite (split_lines_crlf _ _ Hl), IH by discriminate. reflexivity.
Qed.

(** X20: a text with CR LF line endings is read as its lines and written
    with LF line endings: for lines without LF joined by CR LF, both
    rewrites return the LF-joined result of their work on those lines. *)
Theorem crlf_text_rewritten_with_lf
    (updatedAt : jsstring) (domainCount domainSuffixCount total : Z)
    (tempName : option jsstring) (ls : list jsstring) :
  ls ≠ [] → forallb (λ l, negb (includes l [LF])) ls = true →
  updateListHeader updatedAt domainCount domainSuffixCount total (join [CR; LF] ls)
  = join [LF] (afterTotal updatedAt domainCount domainSuffixCount total
                 (scan updatedAt domainCount domainSuffixCount total ls))
  ∧ updateReadme updatedAt domainCount domainSuffixCount total tempName (join [CR; LF] ls)
    = join [LF] (map (rewriteLine updatedAt domainCount domainSuffixCount total tempName) ls).
Proof.
  intros Hne Hall. apply no_LF_lines in Hall.
  unfold ListHeader.updateListHeader, updateListHeader_lines, updateReadme, updateReadme_lines.
  rewrite (split_join_crlf ls Hne Hall). split; reflexivity.
Qed.

(** The theorem at a list of two lines. *)
Lemma crlf_text_rewritten_with_lf_witness :
  updateReadme (lit "2026-01-01 00:00:00") 1 0 1 None
    (lit "# Ads" ++ [CR; LF] ++ lit "| TOTAL | 9 |")
  = lit "# Ads" ++ [LF] ++ lit "| TOTAL          | 1     |".
Proof.
  destruct (crlf_text_rewritten_with_lf (lit "2026-01-01 00:00:00") 1 0 1 None
              [lit "# Ads"; lit "| TOTAL | 9 |"]) as [_ H]; [discriminate|reflexivity|].
  exact H.
Defined.

End LineEndingsMore.

Module RuleDirReadme.
Import JS Counter Readme Timestamp RuleDir.
Import JSFacts ReadmeFacts RuleDirMore.

Section Paths.
Variable path_join : jsstring → jsstring → jsstring.
Variable path_basename : jsstring → jsstring → jsstring.
Variable readdirSync : jsstring → list Dirent.
Variable now : Date.

Local Abbreviation processRuleDir :=
  (processRuleDir path_join path_basename readdirSync now).
Local Abbreviation listFiles := (listFiles readdirSync).

(** X21: after a run that returns on a directory with a README, the README
    written is the LF-joined array of its rewritten lines, and where the
    README read had a row of the key DOMAIN, DOMAIN-SUFFIX or TOTAL, that
    array has the row with the count of that key in the list file as
    written. *)
Theorem readme_rows_show_list_counts
    (ruleDir first : jsstring) (rest : list jsstring) (fs fs' : FileSystem)
    (outcome : Outcome) (readme key line : jsstring) (i : nat) :
  listFiles ruleDir = first :: rest →
  path_join ruleDir first ≠ path_join ruleDir (lit "README.md") →
  files fs !! path_join ruleDir (lit "README.md") = Some readme →
  processRuleDir ruleDir fs = (fs', inr outcome) →
  split_lines readme !! i = Some line →
  row_shape key line →
  ∃ newList arr,
    files fs' !! path_join ruleDir first = Some newList
    ∧ files fs' !! path_join ruleDir (lit "README.md") = Some (join [LF] arr)
    ∧ ∀ value,
        (key, value) ∈ [(lit "DOMAIN",
                         getOr0 (typeCounts (parseCountsFromList newList)) (lit "DOMAIN"));
                        (lit "DOMAIN-SUFFIX",
                         getOr0 (typeCounts (parseCountsFromList newList))
                           (lit "DOMAIN-SUFFIX"));
                        (lit "TOTAL", total (parseCountsFromList newList))] →
        arr !! i = Some (lit "| " ++ padEnd key 14 ++ lit " | "
                         ++ padEnd (Number_toString value) 5 ++ lit " |").
Proof.
  intros Hlist Hne Hreadme Hrun Hline Hshape.
  pose proof (list_file_after_run path_join path_basename readdirSync now
                ruleDir first rest fs Hlist Hne) as Hnew.
  rewrite (processRuleDir_run path_join path_basename readdirSync now
             ruleDir first rest fs Hlist) in Hrun, Hnew.
  cbv zeta in Hrun, Hnew.
  destruct (files fs !! path_join ruleDir first) as [c|] eqn:Hc; [|discriminate Hrun].
  destruct (bool_decide (path_join ruleDir first ∈ readonly fs)); [discriminate Hrun|].
  cbn [files] in Hrun, Hnew.
  rewrite lookup_insert_ne, Hreadme in Hrun, Hnew by exact Hne.
  destruct (bool_decide _); [discriminate Hrun|].
  injection Hrun as <- _. cbn [fst files] in Hnew |- *.
  exists (rewrittenList now c),
    (updateReadme_lines (formatDate now)
       (getOr0 (typeCounts (parseCountsFromList c)) (lit "DOMAIN"))
       (getOr0 (typeCounts (parseCountsFromList c)) (lit "DOMAIN-SUFFIX"))
       (total (parseCountsFromList c))
       (Some (path_basename (path_join ruleDir first) (lit ".list"))) readme).
  split; [exact Hnew|]. split; [apply lookup_insert_eq|].
  rewrite rewrittenList_summary. intros value Hin.
  unfold updateReadme_lines. rewrite list_lookup_fmap, Hline.
  cbn [fmap option_fmap option_map]. f_equal. unfold rewriteLine.
  rewrite (row_not_label key line Hshape).
  rewrite (matchRow_shape _ _ _ key value line Hin Hshape). reflexivity.
Qed.

End Paths.

(** The theorem at a directory with a README of two lines. *)
Lemma readme_rows_show_list_counts_witness :
  ∃ arr,
    files (processRuleDir demo_join demo_basename demo_readdir demo_now (lit "r")
             (mkFS {[ lit "r/a.list" := lit "DOMAIN,x.com";
                      lit "r/README.md" := lit "# a" ++ [LF] ++ lit "| TOTAL | 0 |" ]} ∅)).1
      !! lit "r/README.md" = Some (join [LF] arr)
    ∧ arr !! 1%nat = Some (lit "| TOTAL          | 1     |").
Proof.
  destruct (readme_rows_show_list_counts demo_join demo_basename demo_readdir demo_now
              (lit "r") (lit "a.list") []
              (mkFS {[ lit "r/a.list" := lit "DOMAIN,x.com";
                       lit "r/README.md" := lit "# a" ++ [LF] ++ lit "| TOTAL | 0 |" ]} ∅)
              (processRuleDir demo_join demo_basename demo_readdir demo_now (lit "r")
                 (mkFS {[ lit "r/a.list" := lit "DOMAIN,x.com";
                          lit "r/README.md" := lit "# a" ++ [LF] ++ lit "| TOTAL | 0 |" ]}
                       ∅)).1
              (mkOutcome true (Some (lit "r/a.list")) (Some (lit "r/README.md")))
              (lit "# a" ++ [LF] ++ lit "| TOTAL | 0 |") (lit "TOTAL")
              (lit "| TOTAL | 0 |") 1)
    as (newList & arr & Hnew & Harr & Hrow).
  - reflexivity.
  - cbv. discriminate.
  - vm_compute. reflexivity.
  - vm_compute. reflexivity.
  - reflexivity.
  - exists [SPACE], [SPACE], [SPACE], (lit "0"), [SPACE].
    repeat split; try reflexivity. discriminate.
  - exists arr. split; [exact Harr|].
    assert (Ht : total (parseCountsFromList newList) = 1%Z).
    { vm_compute in Hnew. injection Hnew as <-. vm_compute. reflexivity. }
    rewrite (Hrow 1%Z); [reflexivity|].
    rewrite Ht. do 2 apply list_elem_of_further. apply list_elem_of_here.
Defined.

End RuleDirReadme.
